(** * Folder-Explorer: the filesystem tree service

    A shallow embedding of the three route handlers of the repository

      - [GET] and [POST] of the user-files route (directory tree reader,
        directory initializer, folder creator),
      - [PATCH] of [src/app/api/rename/route.ts] (rename operator),

    together with the parts of the JavaScript string library, of Node's
    [path] module and of [fs/promises] that they call.

    Conventions.
      - A JavaScript string is a [string]: every character stands for the
        UTF-16 code unit of the same number, so the model covers the strings
        whose code units are below 256.
      - The filesystem is a tree of entries, the state the handlers thread:
        regular files, directories (which may refuse to be listed) and
        dangling links.  There are no links to directories, hence no cycles.
        Paths are POSIX paths.
      - [await] is sequencing in the monad [M]; [try]/[catch] is [tryCatch];
        an early [return] from inside a [try] block is a [Some] that the code
        after the block returns.
      - [readDirectory] is recursive on paths, not on data, so it carries a
        fuel argument; running out of fuel is the outcome [Diverge], which no
        [catch] intercepts.
      - The helpers of [@/lib/fileUtils] are not among the sources:
        [generateId] and [getMimeType] are taken from an environment, and
        [sortByLastUpdate] is modelled from the specification. *)

From Stdlib Require Import List String Ascii Bool Arith ZArith Lia DecimalString.
From Stdlib Require Import Sorting.Sorted Sorting.Permutation.
Import ListNotations.

Set Warnings "-register-all".

Local Open Scope string_scope.
Local Open Scope list_scope.

(* ================================================================== *)
(** * Part I: definitions *)
(* ================================================================== *)

(** ** JavaScript strings *)

Module Js.

(** WhiteSpace and LineTerminator code units below 256:
    TAB, LF, VT, FF, CR, SP and NBSP. *)
Definition isWhiteSpace (c : ascii) : bool :=
  let n := nat_of_ascii c in
  (((9 <=? n) && (n <=? 13)) || (n =? 32) || (n =? 160))%nat.

Fixpoint trimStart (s : string) : string :=
  match s with
  | EmptyString => EmptyString
  | String c s' => if isWhiteSpace c then trimStart s' else s
  end.

(** [trimEnd]: a character is kept when it is not white space or when
    something survives after it. *)
Fixpoint trimEnd (s : string) : string :=
  match s with
  | EmptyString => EmptyString
  | String c s' =>
      match trimEnd s' with
      | EmptyString => if isWhiteSpace c then EmptyString else String c EmptyString
      | t => String c t
      end
  end.

(** [String.prototype.trim] *)
Definition trim (s : string) : string := trimEnd (trimStart s).

(** [toLowerCase] on one code unit below 256: A-Z and the Latin-1
    capitals U+00C0-U+00DE (U+00D7, the multiplication sign, apart). *)
Definition lowerChar (c : ascii) : ascii :=
  let n := nat_of_ascii c in
  if (((65 <=? n) && (n <=? 90))
      || ((192 <=? n) && (n <=? 222) && negb (n =? 215)))%nat
  then ascii_of_nat (n + 32) else c.

(** [String.prototype.toLowerCase] *)
Fixpoint toLowerCase (s : string) : string :=
  match s with
  | EmptyString => EmptyString
  | String c s' => String (lowerChar c) (toLowerCase s')
  end.

(** [s.split(c)] for a one-character separator: never an empty array;
    [n] separators give [n + 1] pieces. *)
Fixpoint split (c : ascii) (s : string) : list string :=
  match s with
  | EmptyString => [EmptyString]
  | String a s' =>
      if Ascii.eqb a c then EmptyString :: split c s'
      else match split c s' with
           | h :: t => String a h :: t
           | [] => [String a EmptyString]
           end
  end.

(** [Array.prototype.pop], the returned element only: [undefined]
    ([None]) on the empty array. *)
Fixpoint pop (l : list string) : option string :=
  match l with
  | [] => None
  | [x] => Some x
  | _ :: t => pop t
  end.

(** Truthiness of a string: only the empty string is falsy. *)
Definition truthy (s : string) : bool :=
  match s with EmptyString => false | _ => true end.

(** [a || b] on strings *)
Definition orElse (a b : string) : string := if truthy a then a else b.

(** [s.indexOf(pat)] as the text before and after the first occurrence. *)
Fixpoint breakAt (pat s : string) : option (string * string) :=
  if String.prefix pat s
  then Some (EmptyString, substring (String.length pat) (String.length s - String.length pat) s)
  else match s with
       | EmptyString => None
       | String c s' =>
           match breakAt pat s' with
           | Some (before, after) => Some (String c before, after)
           | None => None
           end
       end.

(** GetSubstitution of ECMA-262 for a string pattern (no captures):
    [$$] is a dollar, [$&] the match, [$`] the text before it, [$'] the
    text after it; every other use of [$] stands for itself. *)
Fixpoint getSubstitution (matched before after repl : string) : string :=
  match repl with
  | EmptyString => EmptyString
  | String "$" (String c r as rest) =>
      if Ascii.eqb c "$" then String "$" (getSubstitution matched before after r)
      else if Ascii.eqb c "&" then (matched ++ getSubstitution matched before after r)%string
      else if Ascii.eqb c "`" then (before ++ getSubstitution matched before after r)%string
      else if Ascii.eqb c "'" then (after ++ getSubstitution matched before after r)%string
      else String "$" (getSubstitution matched before after rest)
  | String c rest => String c (getSubstitution matched before after rest)
  end.

(** [s.replace(pat, repl)] with a string pattern: the first occurrence
    only. *)
Definition replace (s pat repl : string) : string :=
  match breakAt pat s with
  | Some (before, after) =>
      (before ++ getSubstitution pat before after repl ++ after)%string
  | None => s
  end.

(** [re.test(s)] for a character class [re]. *)
Fixpoint testClass (cls : ascii -> bool) (s : string) : bool :=
  match s with
  | EmptyString => false
  | String c s' => cls c || testClass cls s'
  end.

Fixpoint endsWith (c : ascii) (s : string) : bool :=
  match s with
  | EmptyString => false
  | String a EmptyString => Ascii.eqb a c
  | String _ s' => endsWith c s'
  end.

(** Does [c] occur in [s]? *)
Definition includes (c : ascii) (s : string) : bool :=
  testClass (Ascii.eqb c) s.

Definition startsWith (c : ascii) (s : string) : bool :=
  match s with
  | String a _ => Ascii.eqb a c
  | EmptyString => false
  end.

End Js.

(** ** Node's [path] module, POSIX flavour *)

Module Path.

(** One step of [normalizeString]: the segments kept so far are a stack,
    last one on top.  Empty segments and [.] are dropped; [..] removes the
    segment on top, or is itself kept when nothing can be removed and the
    path is relative. *)
Definition pushSegment (allowAboveRoot : bool) (stack : list string) (seg : string)
  : list string :=
  if (seg =? "") || (seg =? ".") then stack
  else if seg =? ".." then
    match stack with
    | [] => if allowAboveRoot then [".."] else []
    | top :: below =>
        if top =? ".." then (if allowAboveRoot then ".." :: stack else stack)
        else below
    end
  else seg :: stack.

Definition normalizeSegments (allowAboveRoot : bool) (pieces : list string)
  : list string :=
  rev (fold_left (pushSegment allowAboveRoot) pieces []).

Definition normalizeString (path : string) (allowAboveRoot : bool) : string :=
  String.concat "/" (normalizeSegments allowAboveRoot (Js.split "/" path)).

(** [path.normalize] *)
Definition normalize (path : string) : string :=
  if path =? "" then "."
  else
    let isAbsolute := Js.startsWith "/" path in
    let trailingSeparator := Js.endsWith "/" path in
    let p := normalizeString path (negb isAbsolute) in
    if p =? "" then
      (if isAbsolute then "/" else if trailingSeparator then "./" else ".")
    else
      let p := if trailingSeparator then (p ++ "/")%string else p in
      if isAbsolute then String "/" p else p.

(** [path.join] on arguments already known to be strings: the non-empty
    ones are glued with [/] and the result is normalised. *)
Definition join (args : list string) : string :=
  match filter Js.truthy args with
  | [] => "."
  | parts => normalize (String.concat "/" parts)
  end.

(** [path.basename] with one argument: the last non-empty segment. *)
Definition basename (path : string) : string :=
  last (filter Js.truthy (Js.split "/" path)) "".

Fixpoint dropEmpty (l : list string) : list string :=
  match l with
  | "" :: t => dropEmpty t
  | _ => l
  end.

(** [path.dirname]: the text before the slash that precedes the last
    non-empty segment; [/] or [.] when there is no such slash, and [//]
    for the paths that start with two slashes followed by their only
    segment. *)
Definition dirname (path : string) : string :=
  let hasRoot := Js.startsWith "/" path in
  match dropEmpty (rev (Js.split "/" path)) with
  | [] => if hasRoot then "/" else "."
  | _ :: before =>
      match before with
      | [] => "."
      | _ =>
          let d := String.concat "/" (rev before) in
          if d =? "" then "/" else if d =? "/" then "//" else d
      end
  end.

End Path.

(** ** The filesystem *)

Module Fs.

Inductive Errno : Set :=
| ENOENT | ENOTDIR | EEXIST | EISDIR | ENOTEMPTY | EACCES | EBUSY | EINVAL
| EROFS | ENOSPC.

(** The result of one system call. *)
Inductive Res (A : Type) : Type :=
| Done (a : A)
| Fail (e : Errno).
Arguments Done {A} a.
Arguments Fail {A} e.

Definition andThen {A B} (r : Res A) (k : A -> Res B) : Res B :=
  match r with
  | Done a => k a
  | Fail e => Fail e
  end.

(** An entry of the tree.  Times are milliseconds since the epoch.  A
    directory keeps its entries in enumeration order, and may be
    unreadable (listing it is refused).  [Dangling] is a name that the
    directory lists but that [stat] cannot follow: a symbolic link
    without a target. *)
Inductive Entry : Type :=
| File (size birthtime mtime : Z)
| Dir (birthtime mtime : Z) (readable : bool) (items : list (string * Entry))
| Dangling.

(** What [stat] reports and the handlers read. *)
Record Stats : Type := mkStats {
  isDirectory : bool;
  size : Z;
  birthtime : Z;
  mtime : Z
}.

Definition isDir (e : Entry) : bool :=
  match e with Dir _ _ _ _ => true | _ => false end.

Fixpoint findItem (name : string) (items : list (string * Entry)) : option Entry :=
  match items with
  | [] => None
  | (n, e) :: rest => if n =? name then Some e else findItem name rest
  end.

(** Replace the entry called [name], or enumerate it last. *)
Fixpoint setItem (name : string) (e : Entry) (items : list (string * Entry))
  : list (string * Entry) :=
  match items with
  | [] => [(name, e)]
  | (n, x) :: rest =>
      if n =? name then (n, e) :: rest else (n, x) :: setItem name e rest
  end.

Fixpoint removeItem (name : string) (items : list (string * Entry))
  : list (string * Entry) :=
  match items with
  | [] => []
  | (n, x) :: rest => if n =? name then rest else (n, x) :: removeItem name rest
  end.

(** The segments the kernel walks: the non-empty pieces between slashes.
    Every path the handlers pass comes out of [Path.join], so it holds
    no [.] or [..]; segments are looked up by name. *)
Definition segments (path : string) : list string :=
  filter Js.truthy (Js.split "/" path).

(** Walk down from [e]; the last segment may be any entry (as [lstat]
    sees it), the ones before must be directories. *)
Fixpoint lookup (segs : list string) (e : Entry) : Res Entry :=
  match segs with
  | [] => Done e
  | s :: rest =>
      match e with
      | Dir _ _ _ items =>
          match findItem s items with
          | Some child => lookup rest child
          | None => Fail ENOENT
          end
      | File _ _ _ => Fail ENOTDIR
      | Dangling => Fail ENOENT
      end
  end.

(** Resolution of a path string: the empty path names nothing, and a
    trailing slash demands a directory. *)
Definition resolve (path : string) (root : Entry) : Res Entry :=
  if path =? "" then Fail ENOENT
  else
    andThen (lookup (segments path) root) (fun e =>
      match e with
      | File _ _ _ => if Js.endsWith "/" path then Fail ENOTDIR else Done e
      | _ => Done e
      end).

(** [stat] follows links.  The handlers do not read the size of a
    directory; it is reported as 0. *)
Definition statEntry (path : string) (root : Entry) : Res Stats :=
  andThen (resolve path root) (fun e =>
    match e with
    | File sz b m => Done (mkStats false sz b m)
    | Dir b m _ _ => Done (mkStats true 0 b m)
    | Dangling => Fail ENOENT
    end).

(** [readdir]: the names, in enumeration order. *)
Definition readdirEntry (path : string) (root : Entry) : Res (list string) :=
  andThen (resolve path root) (fun e =>
    match e with
    | File _ _ _ => Fail ENOTDIR
    | Dir _ _ readable items => if readable then Done (map fst items) else Fail EACCES
    | Dangling => Fail ENOENT
    end).

(** A chain of new, empty, readable directories. *)
Fixpoint freshDirs (now : Z) (segs : list string) : Entry :=
  match segs with
  | [] => Dir now now true []
  | s :: rest => Dir now now true [(s, freshDirs now rest)]
  end.

(** What the kernel refuses to create for this process: [refuse p] is the
    error it answers when asked for a new entry at the segments [p]
    (EACCES without write permission on the directory that would receive
    it, EROFS on a read-only file system, ENOSPC on a full one), [None]
    where it creates the entry. *)
Definition Refusal : Type := list string -> option Errno.

(** [mkdir(path, {recursive: true})]: existing directories on the way are
    kept, missing ones are created (the directory that receives a new
    entry gets a new modification time).  A file on the way is ENOTDIR, a
    file at the end is EEXIST, a dangling link is ENOENT; where the first
    missing directory is to be created the kernel may refuse, and then
    nothing is created.  [refuse] is relative to [e]: on the way into the
    child [s] it is asked with [s] put back in front. *)
Fixpoint mkdirp (refuse : Refusal) (now : Z) (segs : list string) (e : Entry)
  : Res Entry :=
  match segs with
  | [] =>
      match e with
      | Dir _ _ _ _ => Done e
      | File _ _ _ => Fail EEXIST
      | Dangling => Fail ENOENT
      end
  | s :: rest =>
      match e with
      | Dir b m r items =>
          match findItem s items with
          | Some child =>
              andThen (mkdirp (fun p => refuse (s :: p)) now rest child) (fun child' =>
                Done (Dir b m r (setItem s child' items)))
          | None =>
              match refuse [s] with
              | Some err => Fail err
              | None => Done (Dir b now r (setItem s (freshDirs now rest) items))
              end
          end
      | File _ _ _ => Fail ENOTDIR
      | Dangling => Fail ENOENT
      end
  end.

Definition mkdirEntry (refuse : Refusal) (now : Z) (path : string) (root : Entry)
  : Res Entry :=
  if path =? "" then Fail ENOENT
  else
    match mkdirp refuse now (segments path) root with
    | Fail EEXIST => if Js.endsWith "/" path then Fail ENOTDIR else Fail EEXIST
    | r => r
    end.

(** Unlink the entry at [segs] from its directory. *)
Fixpoint removeAt (now : Z) (segs : list string) (e : Entry) : Res Entry :=
  match segs, e with
  | [], _ => Fail EBUSY
  | _ :: _, File _ _ _ => Fail ENOTDIR
  | _ :: _, Dangling => Fail ENOENT
  | s :: rest, Dir b m r items =>
      match findItem s items with
      | None => Fail ENOENT
      | Some child =>
          match rest with
          | [] => Done (Dir b now r (removeItem s items))
          | _ =>
              andThen (removeAt now rest child) (fun child' =>
                Done (Dir b m r (setItem s child' items)))
          end
      end
  end.

(** Link [x] at [segs], over whatever is there; the directory that is to
    hold it must exist. *)
Fixpoint insertAt (now : Z) (segs : list string) (x : Entry) (e : Entry) : Res Entry :=
  match segs, e with
  | [], _ => Fail EBUSY
  | _ :: _, File _ _ _ => Fail ENOTDIR
  | _ :: _, Dangling => Fail ENOENT
  | s :: rest, Dir b m r items =>
      match rest with
      | [] => Done (Dir b now r (setItem s x items))
      | _ =>
          match findItem s items with
          | None => Fail ENOENT
          | Some child =>
              andThen (insertAt now rest x child) (fun child' =>
                Done (Dir b m r (setItem s child' items)))
          end
      end
  end.

Fixpoint isPrefix (a b : list string) : bool :=
  match a, b with
  | [], _ => true
  | x :: a', y :: b' => (x =? y) && isPrefix a' b'
  | _ :: _, [] => false
  end.

Definition segments_eqb (a b : list string) : bool :=
  isPrefix a b && isPrefix b a.

(** May [src] take the place of an existing [dst]? *)
Definition replaceCheck (src dst : Entry) : Res unit :=
  match src, dst with
  | Dir _ _ _ _, Dir _ _ _ [] => Done tt
  | Dir _ _ _ _, Dir _ _ _ (_ :: _) => Fail ENOTEMPTY
  | Dir _ _ _ _, _ => Fail ENOTDIR
  | _, Dir _ _ _ _ => Fail EISDIR
  | _, _ => Done tt
  end.

(** [rename(oldPath, newPath)]: all or nothing.  The root cannot be moved,
    nothing moves below itself, and the entry is unlinked from its old
    directory and linked into the new one. *)
Definition renameEntry (now : Z) (oldPath newPath : string) (root : Entry)
  : Res Entry :=
  if (oldPath =? "") || (newPath =? "") then Fail ENOENT
  else
    let old := segments oldPath in
    let new := segments newPath in
    match old, new with
    | [], _ | _, [] => Fail EBUSY
    | _, _ =>
        andThen (lookup old root) (fun src =>
          if (Js.endsWith "/" oldPath || Js.endsWith "/" newPath) && negb (isDir src)
          then Fail ENOTDIR
          else if segments_eqb old new then Done root
          else if isPrefix old new then Fail EINVAL
          else
            andThen (match lookup new root with
                     | Done dst => replaceCheck src dst
                     | Fail _ =>
                         andThen (lookup (removelast new) root) (fun parent =>
                           match parent with
                           | Dir _ _ _ _ => Done tt
                           | File _ _ _ => Fail ENOTDIR
                           | Dangling => Fail ENOENT
                           end)
                     end) (fun _ =>
              andThen (removeAt now old root) (fun root1 =>
                insertAt now new src root1)))
    end.

End Fs.

(** ** Computations of the handlers *)

(** What a handler can throw. *)
Inductive Exn : Type :=
| SystemError (code : Fs.Errno)
| TypeError
| SyntaxError.

(** The state behind one request: the filesystem, the clock that
    [new Date()] reads and the number of ids generated so far. *)
Record World : Type := mkWorld {
  root : Fs.Entry;
  clock : Z;
  nextId : nat
}.

Inductive Outcome (A : Type) : Type :=
| Ok (a : A)
| Throw (e : Exn)
| Diverge.
Arguments Ok {A} a.
Arguments Throw {A} e.
Arguments Diverge {A}.

Definition M (A : Type) : Type := World -> World * Outcome A.

Definition ret {A} (a : A) : M A := fun w => (w, Ok a).

Definition bind {A B} (c : M A) (k : A -> M B) : M B :=
  fun w =>
    match c w with
    | (w', Ok a) => k a w'
    | (w', Throw e) => (w', Throw e)
    | (w', Diverge) => (w', Diverge)
    end.

Definition throw {A} (e : Exn) : M A := fun w => (w, Throw e).

Definition diverge {A} : M A := fun w => (w, Diverge).

(** [try { c } catch (e) { h e }]: what [c] did to the world before it threw
    stays done. *)
Definition tryCatch {A} (c : M A) (h : Exn -> M A) : M A :=
  fun w =>
    match c w with
    | (w', Throw e) => h e w'
    | r => r
    end.

Declare Scope m_scope.
Delimit Scope m_scope with m.
Notation "x <- c ;; k" := (bind c (fun x => k))
  (at level 61, c at next level, right associativity) : m_scope.
Notation "c ;; k" := (bind c (fun _ => k))
  (at level 61, right associativity) : m_scope.
Local Open Scope m_scope.

(** [for (const x of xs) { acc = body acc x }] *)
Fixpoint forEach {A S} (xs : list A) (acc : S) (body : S -> A -> M S) : M S :=
  match xs with
  | [] => ret acc
  | x :: rest => acc' <- body acc x ;; forEach rest acc' body
  end.

(** A system call that only reads. *)
Definition reading {A} (call : Fs.Entry -> Fs.Res A) : M A :=
  fun w =>
    match call (root w) with
    | Fs.Done a => (w, Ok a)
    | Fs.Fail e => (w, Throw (SystemError e))
    end.

(** A system call that writes: the tree is replaced on success only. *)
Definition writing (call : Z -> Fs.Entry -> Fs.Res Fs.Entry) : M unit :=
  fun w =>
    match call (clock w) (root w) with
    | Fs.Done r => (mkWorld r (clock w) (nextId w), Ok tt)
    | Fs.Fail e => (w, Throw (SystemError e))
    end.

(** The four calls of [fs/promises] the handlers make. *)
Definition stat (path : string) : M Fs.Stats := reading (Fs.statEntry path).
Definition readdir (path : string) : M (list string) := reading (Fs.readdirEntry path).
Definition mkdir (refuse : Fs.Refusal) (path : string) : M unit :=
  writing (fun now => Fs.mkdirEntry refuse now path).
Definition rename (oldPath newPath : string) : M unit :=
  writing (fun now => Fs.renameEntry now oldPath newPath).

(** [new Date()] *)
Definition newDate : M Z := fun w => (w, Ok (clock w)).

(** [console.log] and [console.error] leave no trace in the model. *)
Definition console {A} (_ : A) : M unit := ret tt.

(** ** JSON request bodies *)

Inductive Json : Type :=
| JNull
| JBool (b : bool)
| JNum (n : Z)
| JStr (s : string)
| JArr (elems : list Json)
| JObj (fields : list (string * Json)).

(** A JavaScript value read out of a body: [None] is [undefined].  Of a
    number only its being zero matters here. *)
Definition JsVal : Type := option Json.

Definition truthy (v : JsVal) : bool :=
  match v with
  | None | Some JNull => false
  | Some (JBool b) => b
  | Some (JNum n) => negb (n =? 0)%Z
  | Some (JStr s) => Js.truthy s
  | Some (JArr _) | Some (JObj _) => true
  end.

Definition isString (v : JsVal) : bool :=
  match v with Some (JStr _) => true | _ => false end.

(** The text of a value that [typeof] has shown to be a string. *)
Definition textOf (v : JsVal) : string :=
  match v with Some (JStr s) => s | _ => "" end.

(** The last binding of a key wins, as in [JSON.parse]. *)
Fixpoint getField (key : string) (fields : list (string * Json)) : JsVal :=
  match fields with
  | [] => None
  | (k, v) :: rest =>
      match getField key rest with
      | Some v' => Some v'
      | None => if k =? key then Some v else None
      end
  end.

(** [const { key } = value]: a TypeError on [null], [undefined] on whatever
    is no object. *)
Definition property (value : Json) (key : string) : M JsVal :=
  match value with
  | JNull => throw TypeError
  | JObj fields => ret (getField key fields)
  | _ => ret None
  end.

(** [await req.json()]: [None] is a body that does not parse. *)
Definition reqJson (body : option Json) : M Json :=
  match body with
  | Some j => ret j
  | None => throw SyntaxError
  end.

(** [path.join] on values: every argument must be a string. *)
Fixpoint stringsOf (args : list JsVal) : option (list string) :=
  match args with
  | [] => Some []
  | Some (JStr s) :: rest =>
      match stringsOf rest with
      | Some l => Some (s :: l)
      | None => None
      end
  | _ :: _ => None
  end.

Definition joinValues (args : list JsVal) : M string :=
  match stringsOf args with
  | Some l => ret (Path.join l)
  | None => throw TypeError
  end.

(** ** Tree nodes and responses *)

Inductive Node : Type :=
| FileNode (id name : string) (size : Z) (extension mimeType : string)
           (createdAt updatedAt : Z)
| FolderNode (id name : string) (children : list Node) (createdAt updatedAt : Z).

Definition nodeName (n : Node) : string :=
  match n with
  | FileNode _ name _ _ _ _ _ => name
  | FolderNode _ name _ _ _ => name
  end.

Definition updatedAt (n : Node) : Z :=
  match n with
  | FileNode _ _ _ _ _ _ u => u
  | FolderNode _ _ _ _ u => u
  end.

Definition isFolder (n : Node) : bool :=
  match n with FolderNode _ _ _ _ _ => true | _ => false end.

Definition childrenOf (n : Node) : list Node :=
  match n with
  | FolderNode _ _ children _ _ => children
  | FileNode _ _ _ _ _ _ _ => []
  end.

Inductive Payload : Type :=
| Failure (error : string)                          (* {success: false, error} *)
| Tree (data : Node)                                (* {success: true, data} *)
| Created (message : string) (data : Node)          (* {success: true, message, data} *)
| Renamed (message oldPath newPath newName : string).

Record Response : Type := mkResponse {
  status : Z;
  payload : Payload
}.

(** [NextResponse.json(body, {status})]; the status defaults to 200. *)
Definition json (body : Payload) (st : Z) : Response := mkResponse st body.

(** ** Collaborators outside the sources *)

(** The working directory of the process, the two helpers of
    [@/lib/fileUtils] whose algorithms the specification leaves open (the
    MIME lookup and the id generator, as the text of the [n]-th id), and
    what the kernel refuses to create for the process. *)
Record Env : Type := mkEnv {
  cwd : string;
  getMimeType : string -> string;
  idText : nat -> string;
  refuses : Fs.Refusal
}.

Definition generateId (env : Env) : M string :=
  fun w => (mkWorld (root w) (clock w) (S (nextId w)), Ok (idText env (nextId w))).

Fixpoint insertByUpdate (n : Node) (l : list Node) : list Node :=
  match l with
  | [] => [n]
  | h :: t =>
      if (updatedAt n <? updatedAt h)%Z then h :: insertByUpdate n t else n :: l
  end.

(** Modelled from the spec: [sortByLastUpdate] of [@/lib/fileUtils], which is
    not among the sources.  Called with [true] it orders the nodes by
    [updatedAt], most recent first, and keeps nodes of equal time in the
    order it received them. *)
Definition sortByLastUpdate (nodes : list Node) : list Node :=
  fold_right insertByUpdate [] nodes.

(** ** The user-files route *)

Section Handlers.

Variable env : Env.

(** [join(process.cwd(), 'public', 'user-files')] *)
Definition userFilesDirOf : string := Path.join [cwd env; "public"; "user-files"].

Definition initializeUserFilesDirectory (userFilesDir : string) : M unit :=
  tryCatch
    (mkdir (refuses env) userFilesDir ;;
     items <- readdir userFilesDir ;;
     if (List.length items =? 0)%nat then
       mkdir (refuses env) (Path.join [userFilesDir; "Documents"]) ;;
       mkdir (refuses env) (Path.join [userFilesDir; "Images"])
     else ret tt)
    (fun error => console error).

(** [item.split('.').pop()?.toLowerCase() || ''] *)
Definition extensionOf (item : string) : string :=
  match Js.pop (Js.split "." item) with
  | Some last => Js.orElse (Js.toLowerCase last) ""
  | None => ""
  end.

Fixpoint readDirectory (fuel : nat) (dirPath relativePath : string) : M (list Node) :=
  match fuel with
  | O => diverge
  | S fuel' =>
      tryCatch
        (items <- readdir dirPath ;;
         nodes <- forEach items [] (fun nodes item =>
           let fullPath := Path.join [dirPath; item] in
           stats <- stat fullPath ;;
           let itemRelativePath :=
             if Js.truthy relativePath then Path.join [relativePath; item] else item in
           if Fs.isDirectory stats then
             children <- readDirectory fuel' fullPath itemRelativePath ;;
             id <- generateId env ;;
             ret (nodes ++ [FolderNode id item children
                              (Fs.birthtime stats) (Fs.mtime stats)])
           else
             id <- generateId env ;;
             ret (nodes ++ [FileNode id item (Fs.size stats) (extensionOf item)
                              (getMimeType env item)
                              (Fs.birthtime stats) (Fs.mtime stats)])) ;;
         ret (sortByLastUpdate nodes))
        (fun error => console error ;; ret [])
  end.

(** The name of the synthetic root:
    [requestedPath ? requestedPath.split('/').pop() || 'user-files' : 'My Files'] *)
Definition rootName (requestedPath : string) : string :=
  if Js.truthy requestedPath then
    match Js.pop (Js.split "/" requestedPath) with
    | Some last => Js.orElse last "user-files"
    | None => "user-files"
    end
  else "My Files".

(** GET: [query] is [searchParams.get('path')], [None] when the parameter
    is absent.  An early [return] inside [try] is a [Some]. *)
Definition GET (fuel : nat) (query : option string) : M Response :=
  tryCatch
    (let requestedPath := match query with Some p => Js.orElse p "" | None => "" end in
     let userFilesDir := userFilesDirOf in
     let targetDir :=
       if Js.truthy requestedPath then Path.join [userFilesDir; requestedPath]
       else userFilesDir in
     initializeUserFilesDirectory userFilesDir ;;
     early <- tryCatch
                (stats <- stat targetDir ;;
                 if negb (Fs.isDirectory stats)
                 then ret (Some (json (Failure "Path is not a directory") 400))
                 else ret None)
                (fun _ => ret (Some (json (Failure "Directory not found") 404))) ;;
     match early with
     | Some response => ret response
     | None =>
         children <- readDirectory fuel targetDir requestedPath ;;
         let folderName := rootName requestedPath in
         created <- newDate ;;
         updated <- newDate ;;
         ret (json (Tree (FolderNode (Js.orElse requestedPath "root") folderName
                            children created updated)) 200)
     end)
    (fun error =>
       console error ;;
       ret (json (Failure "Failed to read filesystem") 500)).

(** POST: create a folder. *)
Definition POST (body : option Json) : M Response :=
  tryCatch
    (parsed <- reqJson body ;;
     folderPath <- property parsed "folderPath" ;;
     name <- property parsed "name" ;;
     if negb (truthy name) || negb (isString name)
     then ret (json (Failure "Folder name is required") 400)
     else
       let userFilesDir := userFilesDirOf in
       initializeUserFilesDirectory userFilesDir ;;
       targetDir <- (if truthy folderPath
                     then joinValues [Some (JStr userFilesDir); folderPath;
                                      Some (JStr (Js.trim (textOf name)))]
                     else ret (Path.join [userFilesDir; Js.trim (textOf name)])) ;;
       early <- tryCatch
                  (stats <- stat targetDir ;;
                   if Fs.isDirectory stats
                   then ret (Some (json (Failure "Folder already exists") 409))
                   else ret None)
                  (fun error => console error ;; ret None) ;;
       match early with
       | Some response => ret response
       | None =>
           early' <- tryCatch
                       (mkdir (refuses env) targetDir ;; ret None)
                       (fun error =>
                          match error with
                          | SystemError Fs.EEXIST =>
                              ret (Some (json (Failure "Folder already exists") 409))
                          | _ => throw error
                          end) ;;
           match early' with
           | Some response => ret response
           | None =>
               id <- generateId env ;;
               created <- newDate ;;
               updated <- newDate ;;
               ret (json (Created "Folder created successfully"
                            (FolderNode id (Js.trim (textOf name)) [] created updated))
                      200)
           end
       end)
    (fun error =>
       console error ;;
       ret (json (Failure "Failed to create folder") 500)).

(** ** The rename route *)

(** The character class of the regular expression [invalidChars]:
    less-than, greater-than, colon, double quote, slash, backslash,
    vertical bar, question mark and asterisk. *)
Definition invalidChar (c : ascii) : bool :=
  let n := nat_of_ascii c in
  ((n =? 60) || (n =? 62) || (n =? 58) || (n =? 34) || (n =? 47)
   || (n =? 92) || (n =? 124) || (n =? 63) || (n =? 42))%nat.

(** PATCH: rename a file or folder. *)
Definition PATCH (body : option Json) : M Response :=
  tryCatch
    (parsed <- reqJson body ;;
     oldPathValue <- property parsed "oldPath" ;;
     newNameValue <- property parsed "newName" ;;
     if negb (truthy oldPathValue) || negb (truthy newNameValue)
        || negb (isString oldPathValue) || negb (isString newNameValue)
     then ret (json (Failure "Old path and new name are required") 400)
     else
       let oldPath := textOf oldPathValue in
       let newName := textOf newNameValue in
       let trimmedNewName := Js.trim newName in
       if negb (Js.truthy trimmedNewName)
       then ret (json (Failure "New name cannot be empty") 400)
       else if Js.testClass invalidChar trimmedNewName
       then ret (json (Failure "Name contains invalid characters") 400)
       else
         let userFilesDir := userFilesDirOf in
         let fullOldPath := Path.join [userFilesDir; oldPath] in
         early <- tryCatch
                    (stat fullOldPath ;; ret None)
                    (fun _ => ret (Some (json (Failure "File or folder not found") 404))) ;;
         match early with
         | Some response => ret response
         | None =>
             let parentDir := Path.dirname fullOldPath in
             let fullNewPath := Path.join [parentDir; trimmedNewName] in
             early' <- tryCatch
                         (stat fullNewPath ;;
                          ret (Some (json (Failure "A file or folder with this name already exists") 409)))
                         (fun error => console error ;; ret None) ;;
             match early' with
             | Some response => ret response
             | None =>
                 rename fullOldPath fullNewPath ;;
                 ret (json (Renamed "Item renamed successfully" oldPath
                              (Js.replace oldPath (Path.basename oldPath) trimmedNewName)
                              trimmedNewName) 200)
             end
         end)
    (fun error =>
       console error ;;
       ret (json (Failure "Failed to rename item") 500)).

End Handlers.

(** ** Vocabulary of the statements *)

(** A name a directory can hold: not empty, not [.] or [..], no slash. *)
Definition validName (s : string) : bool :=
  Js.truthy s && negb (s =? ".") && negb (s =? "..") && negb (Js.includes "/" s).

(** The text of a normalised path with the segments [segs]. *)
Definition render (absolute : bool) (segs : list string) (trailing : bool) : string :=
  ((if absolute then "/" else "") ++ String.concat "/" segs
   ++ (if trailing then "/" else ""))%string.

Definition absRender (segs : list string) (trailing : bool) : string :=
  match segs with
  | [] => "/"
  | _ => render true segs trailing
  end.



(** A property of the children read in a directory, at every level of a
    tree of nodes: [P dir forest] for the forest read in [dir] and, below
    each folder node, for its children and the directory joined with its
    name. *)
Fixpoint everyLevelBelow (P : string -> list Node -> Prop) (dir : string) (n : Node)
  : Prop :=
  match n with
  | FolderNode _ name children _ _ =>
      let sub := Path.join [dir; name] in
      P sub children
      /\ (fix each (l : list Node) : Prop :=
            match l with
            | [] => True
            | c :: t => everyLevelBelow P sub c /\ each t
            end) children
  | FileNode _ _ _ _ _ _ _ => True
  end.

Definition everyLevel (P : string -> list Node -> Prop) (dir : string)
  (forest : list Node) : Prop :=
  P dir forest /\ Forall (everyLevelBelow P dir) forest.

(** The node the loop of [readDirectory] builds for the enumerated [item]
    of [dir]. *)
Definition nodeOfItem (r : Fs.Entry) (dir : string) (n : Node) (item : string) : Prop :=
  nodeName n = item
  /\ exists st, Fs.statEntry (Path.join [dir; item]) r = Fs.Done st
                /\ isFolder n = Fs.isDirectory st
                /\ updatedAt n = Fs.mtime st.

(** One level as [readDirectory] leaves it: nothing, or the nodes of the
    enumerated items, sorted. *)
Definition levelRead (r : Fs.Entry) (dir : string) (forest : list Node) : Prop :=
  forest = []
  \/ exists items unsorted,
       Fs.readdirEntry dir r = Fs.Done items
       /\ Forall2 (nodeOfItem r dir) unsorted items
       /\ forest = sortByLastUpdate unsorted.

(** Names at one level are names the directory enumerates, and folder
    nodes stand for directories, file nodes for the rest. *)
Definition levelFaithful (r : Fs.Entry) (dir : string) (forest : list Node) : Prop :=
  forall n, In n forest ->
    (exists items, Fs.readdirEntry dir r = Fs.Done items /\ In (nodeName n) items)
    /\ (exists st, Fs.statEntry (Path.join [dir; nodeName n]) r = Fs.Done st
                   /\ Fs.isDirectory st = isFolder n).

(** Is [item] of [dir] an entry last modified at [t]? *)
Definition modifiedAt (r : Fs.Entry) (dir : string) (t : Z) (item : string) : bool :=
  match Fs.statEntry (Path.join [dir; item]) r with
  | Fs.Done st => (Fs.mtime st =? t)%Z
  | Fs.Fail _ => false
  end.

(** One level is ordered: most recent first, and the nodes of any one time
    come in the order in which the directory enumerates them. *)
Definition levelOrdered (r : Fs.Entry) (dir : string) (forest : list Node) : Prop :=
  StronglySorted (fun a b => (updatedAt b <= updatedAt a)%Z) forest
  /\ (forest = []
      \/ exists items,
           Fs.readdirEntry dir r = Fs.Done items
           /\ forall t,
                map nodeName (filter (fun n => (updatedAt n =? t)%Z) forest)
                = filter (modifiedAt r dir t) items).

(** Reading [dir] meets an error: it cannot be listed, or one of the
    entries it lists cannot be examined. *)
Definition readError (r : Fs.Entry) (dir : string) : Prop :=
  match Fs.readdirEntry dir r with
  | Fs.Fail _ => True
  | Fs.Done items =>
      exists item e, In item items /\ Fs.statEntry (Path.join [dir; item]) r = Fs.Fail e
  end.

(** A computation that changes neither the tree nor the clock. *)
Definition readOnly {A} (c : M A) : Prop :=
  forall w w' o, c w = (w', o) -> root w' = root w /\ clock w' = clock w.

(** What stays of an entry when directories are created around it: a file
    and a dangling link are untouched, a directory is still a directory. *)
Definition sameKind (x x' : Fs.Entry) : Prop :=
  match x with
  | Fs.Dir _ _ _ _ => Fs.isDir x' = true
  | _ => x' = x
  end.

(** The path POST is to create, when its arguments are acceptable to
    [path.join]. *)
Definition createTarget (env : Env) (folderPath : JsVal) (nameText : string)
  : option string :=
  if truthy folderPath
  then match stringsOf [Some (JStr (userFilesDirOf env)); folderPath;
                        Some (JStr (Js.trim nameText))] with
       | Some l => Some (Path.join l)
       | None => None
       end
  else Some (Path.join [userFilesDirOf env; Js.trim nameText]).

(** Is there a directory at these segments? *)
Definition directoryAt (segs : list string) (r : Fs.Entry) : Prop :=
  exists d, Fs.lookup segs r = Fs.Done d /\ Fs.isDir d = true.

(** The path a GET asks for and the directory it resolves to. *)
Definition requestedPathOf (query : option string) : string :=
  match query with Some p => Js.orElse p "" | None => "" end.

Definition targetDirOf (env : Env) (query : option string) : string :=
  if Js.truthy (requestedPathOf query)
  then Path.join [userFilesDirOf env; requestedPathOf query]
  else userFilesDirOf env.


(** ** Sample worlds *)

(** A process started in [/srv/app]; the [n]-th id reads [id-n]; the
    kernel refuses it nothing. *)
Definition sampleEnv : Env :=
  mkEnv "/srv/app"
        (fun _ => "application/octet-stream")
        (fun n => ("id-" ++ NilZero.string_of_uint (Nat.to_uint n))%string)
        (fun _ => None).

(** The same process without write permission: whatever it asks the kernel
    to create is answered EACCES. *)
Definition deniedEnv : Env :=
  mkEnv (cwd sampleEnv) (getMimeType sampleEnv) (idText sampleEnv)
        (fun _ => Some Fs.EACCES).

(** The same process on a disk that fills up: an entry named [Images] can
    no longer be created. *)
Definition fullDiskEnv : Env :=
  mkEnv (cwd sampleEnv) (getMimeType sampleEnv) (idText sampleEnv)
        (fun p => if last p "" =? "Images" then Some Fs.ENOSPC else None).

(** A tree that holds [/srv/app/public/user-files] with the given entries. *)
Definition hostTree (userFiles : list (string * Fs.Entry)) : Fs.Entry :=
  Fs.Dir 0 0 true
    [("srv", Fs.Dir 0 0 true
       [("app", Fs.Dir 0 0 true
          [("public", Fs.Dir 0 0 true
             [("user-files", Fs.Dir 0 0 true userFiles)])])])].

Definition sampleWorld (userFiles : list (string * Fs.Entry)) : World :=
  mkWorld (hostTree userFiles) 1000 0.

(** Folders and files of several times, a folder that cannot be listed and
    a folder with a dangling link. *)
Definition sampleFiles : list (string * Fs.Entry) :=
  [("Documents", Fs.Dir 10 50 true
      [("notes.txt", Fs.File 120 11 40);
       ("README", Fs.File 12 5 40);
       ("Archive.TAR.GZ", Fs.File 4096 20 90)]);
   ("Images", Fs.Dir 10 50 true [("Photo.JPG", Fs.File 2048 30 30)]);
   ("locked", Fs.Dir 10 20 false [("secret", Fs.File 1 1 1)]);
   ("broken", Fs.Dir 10 60 true [("ok.txt", Fs.File 1 1 1); ("ghost", Fs.Dangling)]);
   ("report.PDF", Fs.File 300 12 70)].

(** What [readDirectory] is expected to return for the user-files
    directory of [sampleWorld sampleFiles]. *)
Definition sampleListing : list Node :=
  [FileNode "id-9" "report.PDF" 300 "pdf" "application/octet-stream" 12 70;
   FolderNode "id-8" "broken" [] 10 60;
   FolderNode "id-3" "Documents"
     [FileNode "id-2" "Archive.TAR.GZ" 4096 "gz" "application/octet-stream" 20 90;
      FileNode "id-0" "notes.txt" 120 "txt" "application/octet-stream" 11 40;
      FileNode "id-1" "README" 12 "readme" "application/octet-stream" 5 40]
     10 50;
   FolderNode "id-5" "Images"
     [FileNode "id-4" "Photo.JPG" 2048 "jpg" "application/octet-stream" 30 30]
     10 50;
   FolderNode "id-6" "locked" [] 10 20].

(** A machine on which nothing has been created yet. *)
Definition emptyWorld : World := mkWorld (Fs.Dir 0 0 true []) 1000 0.

(** ** Vocabulary of the further properties *)

(** No name occurs twice. *)
Fixpoint namesOnce (names : list string) : bool :=
  match names with
  | [] => true
  | n :: rest => negb (existsb (String.eqb n) rest) && namesOnce rest
  end.

(** No directory of the tree lists a name twice. *)
Fixpoint uniqueTree (e : Fs.Entry) : bool :=
  match e with
  | Fs.Dir _ _ _ items =>
      namesOnce (map fst items)
      && (fix all (l : list (string * Fs.Entry)) : bool :=
            match l with
            | [] => true
            | (_, c) :: t => uniqueTree c && all t
            end) items
  | _ => true
  end.

(** The two paths PATCH works with: where the entry is, and where it is to
    go. *)
Definition fullOldPathOf (env : Env) (oldPath : string) : string :=
  Path.join [userFilesDirOf env; oldPath].

Definition fullNewPathOf (env : Env) (oldPath trimmedNewName : string) : string :=
  Path.join [Path.dirname (fullOldPathOf env oldPath); trimmedNewName].

(** An empty directory at [segs], whenever it was made. *)
Definition emptyDirectoryAt (segs : list string) (r : Fs.Entry) : Prop :=
  exists b m rd, Fs.lookup segs r = Fs.Done (Fs.Dir b m rd []).

(** A computation that removes no entry and alters no file. *)
Definition keepsEntries {A} (c : M A) : Prop :=
  forall w w' o, c w = (w', o) ->
    forall p x, Fs.lookup p (root w) = Fs.Done x ->
      exists x', Fs.lookup p (root w') = Fs.Done x' /\ sameKind x x'.

(** The world the initializer leaves when a handler calls it. *)
Definition initialized (env : Env) (w : World) : World :=
  fst (initializeUserFilesDirectory env (userFilesDirOf env) w).

(** The node of [item] in [dir], field by field, as the loop of
    [readDirectory] fills it from the answer of [stat]. *)
Definition nodeBuilt (env : Env) (r : Fs.Entry) (dir : string) (n : Node) (item : string)
  : Prop :=
  exists st,
    Fs.statEntry (Path.join [dir; item]) r = Fs.Done st
    /\ match n with
       | FileNode _ name size extension mimeType created updated =>
           Fs.isDirectory st = false /\ name = item /\ size = Fs.size st
           /\ extension = extensionOf item /\ mimeType = getMimeType env item
           /\ created = Fs.birthtime st /\ updated = Fs.mtime st
       | FolderNode _ name _ created updated =>
           Fs.isDirectory st = true /\ name = item
           /\ created = Fs.birthtime st /\ updated = Fs.mtime st
       end.

(** One level, exactly: empty after a read error, otherwise the nodes of
    all the enumerated items, sorted. *)
Definition levelExact (env : Env) (r : Fs.Entry) (dir : string) (forest : list Node)
  : Prop :=
  (readError r dir /\ forest = [])
  \/ exists items unsorted,
       Fs.readdirEntry dir r = Fs.Done items
       /\ Forall2 (nodeBuilt env r dir) unsorted items
       /\ forest = sortByLastUpdate unsorted.

(** A level read without error names every enumerated entry, once each. *)
Definition levelComplete (r : Fs.Entry) (dir : string) (forest : list Node) : Prop :=
  ~ readError r dir ->
  exists items,
    Fs.readdirEntry dir r = Fs.Done items /\ Permutation (map nodeName forest) items.

(** Every node of a level carries what [stat] says of the entry it is
    named after. *)
Definition levelDetailed (env : Env) (r : Fs.Entry) (dir : string) (forest : list Node)
  : Prop :=
  forall n, In n forest -> nodeBuilt env r dir n (nodeName n).

(* ================================================================== *)
(** * Part II: properties *)
(* ================================================================== *)

(** ** The monad *)

Lemma bind_Ok {A B} (c : M A) (k : A -> M B) w w' a :
  c w = (w', Ok a) -> bind c k w = k a w'.
Proof. intros H. unfold bind. now rewrite H. Qed.

Lemma bind_Throw {A B} (c : M A) (k : A -> M B) w w' e :
  c w = (w', Throw e) -> bind c k w = (w', Throw e).
Proof. intros H. unfold bind. now rewrite H. Qed.

Lemma tryCatch_Ok {A} (c : M A) (h : Exn -> M A) w w' a :
  c w = (w', Ok a) -> tryCatch c h w = (w', Ok a).
Proof. intros H. unfold tryCatch. now rewrite H. Qed.

Lemma tryCatch_Throw {A} (c : M A) (h : Exn -> M A) w w' e :
  c w = (w', Throw e) -> tryCatch c h w = h e w'.
Proof. intros H. unfold tryCatch. now rewrite H. Qed.

Lemma reading_root {A} (call : Fs.Entry -> Fs.Res A) w w' o :
  reading call w = (w', o) -> w' = w.
Proof. unfold reading. destruct (call (root w)); intros [= <- _]; reflexivity. Qed.

(** ** The rename route leaves the tree alone unless it answers 200 *)

Ltac break_match :=
  match goal with
  | |- context [match ?x with _ => _ end] =>
      lazymatch x with
      | context [match _ with _ => _ end] => fail
      | _ => destruct x eqn:?
      end
  end.

(** C8.  PATCH always answers, and whenever the status it answers is not
    200 (the 400s of validation, 404 for a missing source, 409 for a name
    that is taken, 500 for a failed system call) the world after the request
    is the world before it: no entry was renamed, created or removed. *)
Theorem PATCH_failure_changes_nothing env body w :
  exists w' resp,
    PATCH env body w = (w', Ok resp) /\ (status resp <> 200%Z -> w' = w).
Proof.
  unfold PATCH, tryCatch, bind, reqJson, property, ret, throw, console, json,
    stat, rename, reading, writing.
  repeat (break_match; cbn in * ); try discriminate;
    repeat match goal with H : (_, _) = (_, _) |- _ => inversion H; clear H; subst end;
    eexists _, _; (split; [reflexivity|]); cbn; intros; try reflexivity; try congruence.
Qed.

(** ** Strings: [split] against concatenation *)

Lemma split_not_nil c s : Js.split c s <> [].
Proof.
  destruct s as [|a s]; cbn; [discriminate|].
  destruct (Ascii.eqb a c); [discriminate|].
  destruct (Js.split c s); discriminate.
Qed.

Lemma split_excludes c s : Js.includes c s = false -> Js.split c s = [s].
Proof.
  unfold Js.includes. induction s as [|a s IH]; cbn; [reflexivity|].
  intros H. apply orb_false_iff in H as [Ha Hs].
  rewrite Ascii.eqb_sym, Ha, (IH Hs). reflexivity.
Qed.

Lemma split_app c a b :
  Js.split c (a ++ String c b)%string = Js.split c a ++ Js.split c b.
Proof.
  induction a as [|x a IH]; cbn.
  - now rewrite Ascii.eqb_refl.
  - destruct (Ascii.eqb x c); [now rewrite IH|].
    rewrite IH. destruct (Js.split c a) eqn:E; [now apply split_not_nil in E|].
    reflexivity.
Qed.

Lemma split_pieces c s : Forall (fun p => Js.includes c p = false) (Js.split c s).
Proof.
  unfold Js.includes. induction s as [|a s IH]; cbn.
  - constructor; [reflexivity|constructor].
  - destruct (Ascii.eqb a c) eqn:E.
    + constructor; [reflexivity|exact IH].
    + destruct (Js.split c s) as [|h t].
      * constructor; [|constructor]. cbn. now rewrite Ascii.eqb_sym, E.
      * inversion IH; subst. constructor; [|assumption].
        cbn. now rewrite Ascii.eqb_sym, E.
Qed.

Lemma split_concat c (l : list string) :
  l <> [] -> Forall (fun p => Js.includes c p = false) l ->
  Js.split c (String.concat (String c "") l) = l.
Proof.
  induction l as [|x l IH]; [congruence|]. intros _ H. inversion H; subst.
  destruct l as [|y l].
  - cbn. now apply split_excludes.
  - change (String.concat (String c "") (x :: y :: l))
      with (x ++ String c (String.concat (String c "") (y :: l)))%string.
    rewrite split_app, IH, split_excludes by (assumption || discriminate).
    reflexivity.
Qed.

Lemma concat_split c s : String.concat (String c "") (Js.split c s) = s.
Proof.
  induction s as [|a s IH]; cbn; [reflexivity|].
  destruct (Ascii.eqb a c) eqn:E.
  - apply Ascii.eqb_eq in E. subst a.
    destruct (Js.split c s) eqn:S; [now apply split_not_nil in S|].
    cbn in *. now rewrite IH.
  - destruct (Js.split c s) as [|h t] eqn:S; [now apply split_not_nil in S|].
    destruct t; cbn in *; now rewrite <- IH.
Qed.

(** ** Paths: normal forms *)

Lemma validName_truthy s : validName s = true -> Js.truthy s = true.
Proof. unfold validName. intros H. now repeat (apply andb_prop in H as [H _]). Qed.

Lemma validName_excludes s : validName s = true -> Js.includes "/" s = false.
Proof. unfold validName. intros H. apply andb_prop in H as [_ H]. now apply negb_true_iff. Qed.

Lemma pushSegment_valid allow st seg :
  validName seg = true -> Path.pushSegment allow st seg = seg :: st.
Proof.
  unfold validName, Path.pushSegment. intros H.
  repeat (apply andb_prop in H as [H ?]).
  destruct seg; [discriminate|].
  repeat match goal with H : negb _ = true |- _ => apply negb_true_iff in H; rewrite ?H end.
  reflexivity.
Qed.

Lemma fold_push_filter allow pieces st :
  fold_left (Path.pushSegment allow) pieces st
  = fold_left (Path.pushSegment allow) (filter Js.truthy pieces) st.
Proof.
  revert st. induction pieces as [|x l IH]; intros st; [reflexivity|].
  cbn. destruct x; cbn; [apply IH|apply IH].
Qed.

Lemma fold_push_valid allow l st :
  Forall (fun s => validName s = true) l ->
  fold_left (Path.pushSegment allow) l st = rev l ++ st.
Proof.
  revert st. induction l as [|x l IH]; intros st H; [reflexivity|].
  inversion H; subst. cbn. rewrite pushSegment_valid, IH by assumption.
  now rewrite <- app_assoc.
Qed.

Lemma normalizeSegments_valid allow pieces :
  Forall (fun s => validName s = true) (filter Js.truthy pieces) ->
  Path.normalizeSegments allow pieces = filter Js.truthy pieces.
Proof.
  intros H. unfold Path.normalizeSegments.
  rewrite fold_push_filter, fold_push_valid, app_nil_r, rev_involutive by assumption.
  reflexivity.
Qed.

Lemma fold_push_absolute pieces st :
  Forall (fun p => Js.includes "/" p = false) pieces ->
  Forall (fun s => validName s = true) st ->
  Forall (fun s => validName s = true) (fold_left (Path.pushSegment false) pieces st).
Proof.
  revert st. induction pieces as [|x l IH]; intros st Hp Hst; [assumption|].
  inversion Hp; subst. cbn. apply IH; [assumption|].
  unfold Path.pushSegment.
  destruct (x =? "") eqn:E1; [assumption|].
  destruct (x =? ".") eqn:E2; [assumption|]. cbn.
  destruct (x =? "..") eqn:E3.
  - destruct st as [|top below]; [constructor|].
    inversion Hst; subst. destruct (top =? ".."); assumption.
  - constructor; [|assumption]. unfold validName.
    rewrite E2, E3, H1. destruct x; [discriminate|reflexivity].
Qed.

Lemma normalizeSegments_absolute pieces :
  Forall (fun p => Js.includes "/" p = false) pieces ->
  Forall (fun s => validName s = true) (Path.normalizeSegments false pieces).
Proof.
  intros H. unfold Path.normalizeSegments. apply Forall_rev.
  apply fold_push_absolute; [assumption|constructor].
Qed.

Lemma concat_valid_eqb l :
  l <> [] -> Forall (fun s => validName s = true) l ->
  (String.concat "/" l =? "") = false.
Proof.
  destruct l as [|x l]; [congruence|]. intros _ H. inversion H; subst.
  apply validName_truthy in H2. destruct x; [discriminate|].
  destruct l; reflexivity.
Qed.

Lemma append_empty_r (s : string) : (s ++ "")%string = s.
Proof. induction s; cbn; congruence. Qed.

Lemma append_assoc (a b c : string) : (a ++ b ++ c)%string = ((a ++ b) ++ c)%string.
Proof. induction a; cbn; congruence. Qed.

Lemma endsWith_cons c a s : s <> "" -> Js.endsWith c (String a s) = Js.endsWith c s.
Proof. destruct s; [congruence|reflexivity]. Qed.

Lemma endsWith_app c a b : b <> "" -> Js.endsWith c (a ++ b)%string = Js.endsWith c b.
Proof.
  intros Hb. induction a as [|x a IH]; [reflexivity|].
  cbn [append]. rewrite endsWith_cons; [assumption|].
  destruct a; [assumption|discriminate].
Qed.

Lemma endsWith_excludes c s : Js.includes c s = false -> Js.endsWith c s = false.
Proof.
  unfold Js.includes. induction s as [|a s IH]; [reflexivity|]. cbn.
  intros H. apply orb_false_iff in H as [Ha Hs].
  destruct s; [now rewrite Ascii.eqb_sym|now apply IH].
Qed.

Lemma startsWith_app c a b : a <> "" -> Js.startsWith c (a ++ b)%string = Js.startsWith c a.
Proof. destruct a; [congruence|reflexivity]. Qed.

Lemma startsWith_excludes c s : Js.includes c s = false -> Js.startsWith c s = false.
Proof.
  unfold Js.includes. destruct s; [reflexivity|]. cbn.
  intros H. apply orb_false_iff in H as [Ha _]. now rewrite Ascii.eqb_sym.
Qed.

Lemma truthy_nonempty s : Js.truthy s = true <-> s <> "".
Proof. destruct s; cbn; split; congruence. Qed.

Lemma concat_valid_nonempty l :
  l <> [] -> Forall (fun s => validName s = true) l -> String.concat "/" l <> "".
Proof.
  intros H1 H2 E. pose proof (concat_valid_eqb l H1 H2) as H.
  rewrite E in H. discriminate.
Qed.

Lemma concat_cons2 sep x y (l : list string) :
  String.concat sep (x :: y :: l) = (x ++ sep ++ String.concat sep (y :: l))%string.
Proof. reflexivity. Qed.

Lemma valid_filter l :
  Forall (fun s => validName s = true) l -> filter Js.truthy l = l.
Proof.
  induction 1 as [|x l Hx _ IH]; [reflexivity|].
  cbn. now rewrite (validName_truthy _ Hx), IH.
Qed.

Lemma valid_excludes l :
  Forall (fun s => validName s = true) l -> Forall (fun p => Js.includes "/" p = false) l.
Proof. intros H. eapply Forall_impl; [|exact H]. apply validName_excludes. Qed.

Lemma endsWith_concat_valid l :
  Forall (fun s => validName s = true) l -> Js.endsWith "/" (String.concat "/" l) = false.
Proof.
  induction 1 as [|x l Hx Hl IH]; [reflexivity|].
  destruct l as [|y l].
  - cbn. apply endsWith_excludes. now apply validName_excludes.
  - rewrite concat_cons2, endsWith_app by discriminate.
    cbn [append]. rewrite endsWith_cons; [exact IH|].
    apply concat_valid_nonempty; [discriminate|assumption].
Qed.

Lemma split_render l tr :
  l <> [] -> Forall (fun s => validName s = true) l ->
  Js.split "/" (render true l tr) = "" :: l ++ (if tr then [""] else []).
Proof.
  intros Hne Hv. unfold render.
  change ("/" ++ ?x)%string with ("" ++ String "/" x)%string.
  rewrite split_app. cbn [Js.split app]. f_equal.
  destruct tr.
  - rewrite split_app, split_concat by (auto using valid_excludes). reflexivity.
  - rewrite append_empty_r, split_concat, app_nil_r by (auto using valid_excludes).
    reflexivity.
Qed.

Lemma split_render_relative l tr :
  l <> [] -> Forall (fun s => validName s = true) l ->
  Js.split "/" (render false l tr) = l ++ (if tr then [""] else []).
Proof.
  intros Hne Hv. unfold render. cbn [append].
  destruct tr.
  - rewrite split_app, split_concat by (auto using valid_excludes). reflexivity.
  - rewrite append_empty_r, split_concat, app_nil_r by (auto using valid_excludes).
    reflexivity.
Qed.

Lemma segments_render abs l tr :
  l <> [] -> Forall (fun s => validName s = true) l ->
  Fs.segments (render abs l tr) = l.
Proof.
  intros Hne Hv. unfold Fs.segments.
  destruct abs; [rewrite split_render by assumption|rewrite split_render_relative by assumption];
    cbn [filter Js.truthy]; rewrite filter_app, valid_filter by assumption;
    destruct tr; cbn; now rewrite app_nil_r.
Qed.

Lemma segments_absRender l tr :
  Forall (fun s => validName s = true) l -> Fs.segments (absRender l tr) = l.
Proof.
  destruct l as [|x l]; [reflexivity|]. intros H.
  apply segments_render; [discriminate|assumption].
Qed.

Lemma endsWith_render abs l tr :
  l <> [] -> Forall (fun s => validName s = true) l ->
  Js.endsWith "/" (render abs l tr) = tr.
Proof.
  intros Hne Hv. unfold render.
  pose proof (concat_valid_nonempty l Hne Hv) as Hc.
  destruct tr.
  - rewrite append_assoc, endsWith_app by discriminate. reflexivity.
  - rewrite append_empty_r.
    destruct abs; cbn [append].
    + rewrite endsWith_cons by assumption. now apply endsWith_concat_valid.
    + now apply endsWith_concat_valid.
Qed.

Lemma render_nonempty abs l tr :
  l <> [] -> Forall (fun s => validName s = true) l -> render abs l tr <> "".
Proof.
  intros Hne Hv. unfold render. pose proof (concat_valid_nonempty l Hne Hv) as Hc.
  destruct abs; cbn [append]; [discriminate|].
  destruct (String.concat "/" l); [congruence|discriminate].
Qed.

Lemma normalize_render p l :
  p <> "" ->
  Path.normalizeSegments (negb (Js.startsWith "/" p)) (Js.split "/" p) = l ->
  l <> [] -> Forall (fun s => validName s = true) l ->
  Path.normalize p = render (Js.startsWith "/" p) l (Js.endsWith "/" p).
Proof.
  intros Hp Hl Hne Hv. unfold Path.normalize, Path.normalizeString.
  apply String.eqb_neq in Hp. rewrite Hp, Hl, concat_valid_eqb by assumption.
  unfold render. destruct (Js.startsWith "/" p), (Js.endsWith "/" p); cbn [append];
    rewrite ?append_empty_r; reflexivity.
Qed.

(** [join] of a directory without dots and of one name: the name is added
    as the last segment. *)
Lemma join_child dir item :
  dir <> "" -> Forall (fun s => validName s = true) (Fs.segments dir) ->
  validName item = true ->
  Path.join [dir; item] = render (Js.startsWith "/" dir) (Fs.segments dir ++ [item]) false.
Proof.
  intros Hd Hsegs Hitem.
  pose proof (validName_truthy _ Hitem) as Hti.
  pose proof (validName_excludes _ Hitem) as Hex.
  assert (Hni : item <> "") by now apply truthy_nonempty.
  unfold Path.join. cbn [filter].
  apply truthy_nonempty in Hd as Htd. rewrite Htd, Hti.
  change (String.concat "/" [dir; item]) with (dir ++ String "/" item)%string.
  assert (Hv : Forall (fun s => validName s = true) (Fs.segments dir ++ [item])).
  { apply Forall_app. split; [assumption|now constructor]. }
  assert (Hne : Fs.segments dir ++ [item] <> []) by (destruct (Fs.segments dir); discriminate).
  erewrite normalize_render; [| | |exact Hne|exact Hv].
  - rewrite startsWith_app by assumption.
    rewrite endsWith_app by discriminate.
    rewrite endsWith_cons by assumption.
    now rewrite (endsWith_excludes _ _ Hex).
  - destruct dir; [congruence|discriminate].
  - rewrite normalizeSegments_valid; rewrite split_app, (split_excludes _ _ Hex), filter_app;
      cbn [filter]; rewrite Hti; [reflexivity|exact Hv].
Qed.

Lemma join_child_segments dir item :
  dir <> "" -> Forall (fun s => validName s = true) (Fs.segments dir) ->
  validName item = true ->
  Fs.segments (Path.join [dir; item]) = Fs.segments dir ++ [item]
  /\ Js.endsWith "/" (Path.join [dir; item]) = false
  /\ Path.join [dir; item] <> "".
Proof.
  intros Hd Hsegs Hitem.
  assert (Hv : Forall (fun s => validName s = true) (Fs.segments dir ++ [item])).
  { apply Forall_app. split; [assumption|now constructor]. }
  assert (Hne : Fs.segments dir ++ [item] <> []) by (destruct (Fs.segments dir); discriminate).
  rewrite join_child by assumption.
  repeat split.
  - now apply segments_render.
  - now apply endsWith_render.
  - now apply render_nonempty.
Qed.

(** Whatever is joined to an absolute path, the result is a normalised
    absolute path. *)
Lemma normalize_absolute p :
  Js.startsWith "/" p = true ->
  exists l, Forall (fun s => validName s = true) l
            /\ Path.normalize p = absRender l (Js.endsWith "/" p).
Proof.
  intros Hp. exists (Path.normalizeSegments false (Js.split "/" p)).
  split; [apply normalizeSegments_absolute, split_pieces|].
  destruct (Path.normalizeSegments false (Js.split "/" p)) as [|x l] eqn:E.
  - unfold Path.normalize, Path.normalizeString. rewrite Hp. cbn [negb]. rewrite E.
    destruct p; [discriminate|reflexivity].
  - unfold absRender. rewrite <- Hp at 1. apply normalize_render.
    + destruct p; [discriminate|congruence].
    + rewrite Hp. exact E.
    + discriminate.
    + rewrite <- E. apply normalizeSegments_absolute, split_pieces.
Qed.

Lemma join_absolute a rest :
  Js.startsWith "/" a = true ->
  exists l tr, Forall (fun s => validName s = true) l
               /\ Path.join (a :: rest) = absRender l tr.
Proof.
  intros Ha. unfold Path.join. cbn [filter].
  assert (Ht : Js.truthy a = true) by (destruct a; [discriminate|reflexivity]).
  rewrite Ht.
  destruct (normalize_absolute (String.concat "/" (a :: filter Js.truthy rest))) as (l & Hl & E).
  - destruct (filter Js.truthy rest); [exact Ha|].
    rewrite concat_cons2, startsWith_app; [exact Ha|]. destruct a; [discriminate|congruence].
  - eauto.
Qed.

Lemma absRender_nonempty l tr :
  Forall (fun s => validName s = true) l -> absRender l tr <> "".
Proof.
  destruct l; [discriminate|]. intros. apply render_nonempty; [discriminate|assumption].
Qed.

Lemma basename_segments p : Path.basename p = last (Fs.segments p) "".
Proof. reflexivity. Qed.

Lemma dirname_render l tr :
  l <> [] -> Forall (fun s => validName s = true) l ->
  Path.dirname (render true l tr) = absRender (removelast l) false.
Proof.
  intros Hne Hv. unfold Path.dirname.
  rewrite split_render by assumption.
  destruct (exists_last Hne) as (front & final & ->).
  apply Forall_app in Hv as [Hfront Hfinal]. inversion Hfinal; subst.
  rewrite removelast_last.
  assert (E : Path.dropEmpty (rev ("" :: (front ++ [final]) ++ (if tr then [""] else [])))
              = final :: rev front ++ [""]).
  { cbn [rev]. rewrite !rev_app_distr. cbn [rev app].
    apply validName_truthy in H1.
    destruct tr; cbn [rev app Path.dropEmpty]; (destruct final; [discriminate|reflexivity]). }
  rewrite E.
  destruct (rev front ++ [""]) eqn:R; [destruct (rev front); discriminate|].
  rewrite <- R. rewrite rev_app_distr, rev_involutive. cbn [rev app].
  destruct front as [|y front]; [reflexivity|].
  rewrite concat_cons2. cbn [append]. cbn [String.eqb Ascii.eqb].
  assert (Hc : String.concat "/" (y :: front) <> "")
    by (apply concat_valid_nonempty; [discriminate|assumption]).
  destruct (String.concat "/" (y :: front)) eqn:C; [congruence|].
  unfold absRender, render. rewrite C. cbn. now rewrite append_empty_r.
Qed.

Lemma startsWith_absRender l tr :
  Forall (fun s => validName s = true) l -> Js.startsWith "/" (absRender l tr) = true.
Proof. destruct l; reflexivity. Qed.

Lemma removelast_valid l :
  Forall (fun s => validName s = true) l ->
  Forall (fun s => validName s = true) (removelast l).
Proof.
  induction 1 as [|x l Hx Hl IH]; [constructor|].
  destruct l; [constructor|]. cbn [removelast]. now constructor.
Qed.

Lemma last_valid l :
  l <> [] -> Forall (fun s => validName s = true) l -> validName (last l "") = true.
Proof.
  intros Hne Hv. destruct (exists_last Hne) as (front & final & ->).
  rewrite last_last. apply Forall_app in Hv as [_ Hv]. now inversion Hv.
Qed.

(** The path of an entry, rebuilt from its directory and its name. *)
Lemma join_dirname_basename l tr :
  l <> [] -> Forall (fun s => validName s = true) l ->
  Path.join [Path.dirname (render true l tr); Path.basename (render true l tr)]
  = render true l false.
Proof.
  intros Hne Hv.
  rewrite dirname_render, basename_segments, segments_render by assumption.
  pose proof (removelast_valid l Hv) as Hr.
  rewrite join_child.
  - rewrite startsWith_absRender, segments_absRender by assumption.
    now rewrite <- app_removelast_last.
  - now apply absRender_nonempty.
  - now rewrite segments_absRender.
  - now apply last_valid.
Qed.

(** ** The filesystem calls *)

Lemma statEntry_render l tr r st :
  l <> [] -> Forall (fun s => validName s = true) l ->
  Fs.statEntry (render true l tr) r = Fs.Done st ->
  Fs.statEntry (render true l false) r = Fs.Done st.
Proof.
  intros Hne Hv. unfold Fs.statEntry, Fs.resolve.
  rewrite !segments_render, !endsWith_render by assumption.
  pose proof (render_nonempty true l tr Hne Hv) as N1.
  pose proof (render_nonempty true l false Hne Hv) as N2.
  apply String.eqb_neq in N1, N2. rewrite N1, N2.
  destruct (Fs.lookup l r) as [e|]; cbn; [|discriminate].
  destruct e, tr; cbn; congruence.
Qed.

Lemma stat_self_sibling a b r st :
  Js.startsWith "/" a = true ->
  Fs.statEntry (Path.join [a; b]) r = Fs.Done st ->
  Path.basename (Path.join [a; b]) <> "" ->
  Fs.statEntry (Path.join [Path.dirname (Path.join [a; b]);
                           Path.basename (Path.join [a; b])]) r = Fs.Done st.
Proof.
  intros Ha Hst Hb.
  destruct (join_absolute a [b] Ha) as (l & tr & Hv & E). rewrite E in *.
  destruct l as [|x l]; [now contradiction Hb|].
  unfold absRender in *.
  rewrite join_dirname_basename by (assumption || discriminate).
  eapply statEntry_render; [discriminate|assumption|exact Hst].
Qed.

Lemma stat_Done path w st :
  Fs.statEntry path (root w) = Fs.Done st -> stat path w = (w, Ok st).
Proof. intros H. unfold stat, reading. now rewrite H. Qed.

(** C9, as amended.  When [oldPath] is a non-empty string that names an
    existing entry and the trimmed [newName] is not empty, holds none of the
    forbidden characters and is the final segment of the path of that entry,
    PATCH answers 409 "A file or folder with this name already exists" and
    changes nothing: the new path is the old one, and it exists. *)
Theorem PATCH_same_name_conflict env fields oldPath newName w st :
  Js.startsWith "/" (cwd env) = true ->
  getField "oldPath" fields = Some (JStr oldPath) ->
  getField "newName" fields = Some (JStr newName) ->
  oldPath <> "" ->
  Js.trim newName <> "" ->
  Js.testClass invalidChar (Js.trim newName) = false ->
  Fs.statEntry (Path.join [userFilesDirOf env; oldPath]) (root w) = Fs.Done st ->
  Js.trim newName = Path.basename (Path.join [userFilesDirOf env; oldPath]) ->
  PATCH env (Some (JObj fields)) w
  = (w, Ok (json (Failure "A file or folder with this name already exists") 409)).
Proof.
  intros Hcwd Hold Hnew Hne Htrim Hvalid Hstat Hsame.
  assert (Hroot : Js.startsWith "/" (userFilesDirOf env) = true).
  { destruct (join_absolute (cwd env) ["public"; "user-files"] Hcwd) as (l & tr & Hv & E).
    unfold userFilesDirOf. rewrite E. now apply startsWith_absRender. }
  assert (Hnn : newName <> "") by (intros ->; now apply Htrim).
  unfold PATCH, tryCatch, bind, reqJson, property, ret.
  rewrite Hold, Hnew. cbn [truthy isString textOf negb orb].
  apply truthy_nonempty in Hne as ->. apply truthy_nonempty in Hnn as ->.
  apply truthy_nonempty in Htrim as Htt. rewrite Htt, Hvalid. cbn [negb orb].
  rewrite (stat_Done _ _ _ Hstat). cbn iota beta.
  rewrite Hsame, (stat_Done _ _ st); [reflexivity|].
  apply stat_self_sibling; [assumption|assumption|].
  now rewrite <- Hsame.
Qed.

(** ** What the reader leaves untouched *)

Lemma readOnly_ret {A} (a : A) : readOnly (ret a).
Proof. intros w w' o [= <- _]. now split. Qed.

Lemma readOnly_diverge {A} : readOnly (@diverge A).
Proof. intros w w' o [= <- _]. now split. Qed.

Lemma readOnly_reading {A} (call : Fs.Entry -> Fs.Res A) : readOnly (reading call).
Proof. intros w w' o H. apply reading_root in H. subst. now split. Qed.

Lemma readOnly_generateId env : readOnly (generateId env).
Proof. intros w w' o [= <- _]. now split. Qed.

Lemma readOnly_bind {A B} (c : M A) (k : A -> M B) :
  readOnly c -> (forall a, readOnly (k a)) -> readOnly (bind c k).
Proof.
  intros Hc Hk w w' o. unfold bind.
  destruct (c w) as [w1 [a|e|]] eqn:E; apply Hc in E as [E1 E2].
  - intros H. apply Hk in H as [H1 H2]. split; congruence.
  - intros [= <- _]. now split.
  - intros [= <- _]. now split.
Qed.

Lemma readOnly_tryCatch {A} (c : M A) (h : Exn -> M A) :
  readOnly c -> (forall e, readOnly (h e)) -> readOnly (tryCatch c h).
Proof.
  intros Hc Hh w w' o. unfold tryCatch.
  destruct (c w) as [w1 [a|e|]] eqn:E; apply Hc in E as [E1 E2].
  - intros [= <- _]. now split.
  - intros H. apply Hh in H as [H1 H2]. split; congruence.
  - intros [= <- _]. now split.
Qed.

Lemma readOnly_forEach {A S} (xs : list A) (body : S -> A -> M S) :
  (forall acc x, readOnly (body acc x)) -> forall acc, readOnly (forEach xs acc body).
Proof.
  intros Hb. induction xs as [|x xs IH]; intros acc; cbn [forEach].
  - apply readOnly_ret.
  - apply readOnly_bind; [apply Hb|]. intros a. apply IH.
Qed.

Lemma readOnly_if {A} (b : bool) (c d : M A) :
  readOnly c -> readOnly d -> readOnly (if b then c else d).
Proof. now destruct b. Qed.

Lemma readDirectory_readOnly env fuel :
  forall dirPath relativePath, readOnly (readDirectory env fuel dirPath relativePath).
Proof.
  induction fuel as [|fuel IH]; intros dirPath relativePath; cbn [readDirectory].
  - apply readOnly_diverge.
  - apply readOnly_tryCatch.
    + apply readOnly_bind; [apply readOnly_reading|]. intros items.
      apply readOnly_bind; [|intros; apply readOnly_ret].
      apply readOnly_forEach. intros acc item.
      apply readOnly_bind; [apply readOnly_reading|]. intros stats.
      apply readOnly_if.
      * apply readOnly_bind; [apply IH|]. intros children.
        apply readOnly_bind; [apply readOnly_generateId|]. intros; apply readOnly_ret.
      * apply readOnly_bind; [apply readOnly_generateId|]. intros; apply readOnly_ret.
    + intros e. apply readOnly_bind; [apply readOnly_ret|]. intros; apply readOnly_ret.
Qed.

(** ** What the reader returns *)

Lemma bind_inv_Ok {A B} (c : M A) (k : A -> M B) w w' b :
  bind c k w = (w', Ok b) -> exists w1 a, c w = (w1, Ok a) /\ k a w1 = (w', Ok b).
Proof.
  unfold bind. destruct (c w) as [w1 [a|e|]]; [eauto|discriminate|discriminate].
Qed.

Lemma tryCatch_inv_Ok {A} (c : M A) (h : Exn -> M A) w w' a :
  tryCatch c h w = (w', Ok a) ->
  c w = (w', Ok a) \/ exists w1 e, c w = (w1, Throw e) /\ h e w1 = (w', Ok a).
Proof.
  unfold tryCatch. destruct (c w) as [w1 [x|e|]]; [auto|eauto|discriminate].
Qed.

Lemma reading_inv_Ok {A} (call : Fs.Entry -> Fs.Res A) w w' a :
  reading call w = (w', Ok a) -> w' = w /\ call (root w) = Fs.Done a.
Proof.
  unfold reading. destruct (call (root w)); [|discriminate].
  intros [= <- <-]. now split.
Qed.

Lemma forEach_collect {A} (R : Node -> A -> Prop) (inv : World -> Prop)
  (body : list Node -> A -> M (list Node)) :
  (forall acc x w w' res,
      inv w -> body acc x w = (w', Ok res) ->
      inv w' /\ exists n, res = acc ++ [n] /\ R n x) ->
  forall items acc w w' res,
    inv w -> forEach items acc body w = (w', Ok res) ->
    inv w' /\ exists new, res = acc ++ new /\ Forall2 R new items.
Proof.
  intros Hbody. induction items as [|x items IH]; intros acc w w' res Hw H; cbn [forEach] in H.
  - injection H as <- <-. split; [assumption|]. exists []. now rewrite app_nil_r.
  - apply bind_inv_Ok in H as (w1 & acc' & H1 & H2).
    destruct (Hbody _ _ _ _ _ Hw H1) as (Hw1 & n & -> & Hn).
    destruct (IH _ _ _ _ Hw1 H2) as (Hw' & new & -> & Hnew).
    split; [assumption|]. exists (n :: new). split; [now rewrite <- app_assoc|].
    now constructor.
Qed.

Lemma each_Forall (Q : Node -> Prop) (l : list Node) :
  (fix each (l : list Node) : Prop :=
     match l with
     | [] => True
     | c :: t => Q c /\ each t
     end) l <-> Forall Q l.
Proof.
  induction l as [|c l IH]; [split; [constructor|trivial]|].
  split.
  - intros [H1 H2]. constructor; [assumption|now apply IH].
  - intros H. inversion H; subst. split; [assumption|now apply IH].
Qed.

Lemma everyLevelBelow_folder P dir id name children created updated :
  everyLevelBelow P dir (FolderNode id name children created updated)
  <-> everyLevel P (Path.join [dir; name]) children.
Proof.
  unfold everyLevel. cbn [everyLevelBelow].
  now rewrite (each_Forall (everyLevelBelow P (Path.join [dir; name]))).
Qed.

Lemma insertByUpdate_In n x l : In x (insertByUpdate n l) <-> x = n \/ In x l.
Proof.
  induction l as [|h t IH]; cbn; [intuition congruence|].
  destruct (updatedAt n <? updatedAt h)%Z; cbn; [rewrite IH|]; intuition congruence.
Qed.

Lemma sortByLastUpdate_In x l : In x (sortByLastUpdate l) <-> In x l.
Proof.
  induction l as [|n l IH]; cbn; [reflexivity|].
  rewrite insertByUpdate_In, IH. intuition congruence.
Qed.

Lemma Forall2_Forall_l {A B} (R : A -> B -> Prop) (Q : A -> Prop) l l' :
  Forall2 (fun a b => R a b /\ Q a) l l' -> Forall2 R l l' /\ Forall Q l.
Proof.
  induction 1 as [|a b l l' [H1 H2] _ [IH1 IH2]]; split; constructor; assumption.
Qed.

(** Every level of the tree that [readDirectory] returns is what its loop
    built from the listing of the directory of that level. *)
Lemma readDirectory_levelRead env fuel :
  forall dirPath relativePath w w' nodes,
    readDirectory env fuel dirPath relativePath w = (w', Ok nodes) ->
    everyLevel (levelRead (root w)) dirPath nodes.
Proof.
  induction fuel as [|fuel IH]; intros dirPath relativePath w w' nodes H;
    cbn [readDirectory] in H; [discriminate|].
  apply tryCatch_inv_Ok in H as [H|(w1 & e & _ & H)].
  2: { cbn in H. injection H as _ <-. split; [now left|constructor]. }
  apply bind_inv_Ok in H as (w1 & items & Hread & H).
  apply reading_inv_Ok in Hread as [-> Hread].
  apply bind_inv_Ok in H as (w2 & unsorted & Hloop & H).
  injection H as _ <-.
  eapply (forEach_collect
            (fun n item => nodeOfItem (root w) dirPath n item
                           /\ everyLevelBelow (levelRead (root w)) dirPath n)
            (fun w0 => root w0 = root w)) in Hloop; [|clear Hloop|reflexivity].
  - destruct Hloop as (_ & new & -> & Hnew). cbn [app].
    apply Forall2_Forall_l in Hnew as [Hitems Hbelow].
    split.
    + right. exists items, new. auto.
    + apply Forall_forall. intros n Hn.
      apply (proj1 (sortByLastUpdate_In _ _)) in Hn.
      rewrite Forall_forall in Hbelow. now apply Hbelow.
  - intros acc item w0 w0' res Hw0 Hb.
    apply bind_inv_Ok in Hb as (w3 & stats & Hstat & Hb).
    apply reading_inv_Ok in Hstat as [-> Hstat]. rewrite Hw0 in Hstat.
    destruct (Fs.isDirectory stats) eqn:Hdir.
    + apply bind_inv_Ok in Hb as (w4 & children & Hrec & Hb).
      pose proof (readDirectory_readOnly _ _ _ _ _ _ _ Hrec) as [Hroot _].
      apply IH in Hrec. rewrite Hw0 in Hrec.
      apply bind_inv_Ok in Hb as (w5 & id & Hid & Hb).
      injection Hid as <- <-. injection Hb as <- <-.
      split; [cbn; congruence|].
      eexists. split; [reflexivity|]. split.
      * split; [reflexivity|]. exists stats. cbn. auto.
      * now apply everyLevelBelow_folder.
    + apply bind_inv_Ok in Hb as (w5 & id & Hid & Hb).
      injection Hid as <- <-. injection Hb as <- <-.
      split; [cbn; congruence|].
      eexists. split; [reflexivity|]. split; [|exact I].
      split; [reflexivity|]. exists stats. cbn. auto.
Qed.

(** ** What the reader returns, exactly *)

Lemma bind_inv {A B} (c : M A) (k : A -> M B) w w' (o : Outcome B) :
  bind c k w = (w', o) ->
  (exists w1 a, c w = (w1, Ok a) /\ k a w1 = (w', o))
  \/ (exists e, c w = (w', Throw e) /\ o = Throw e)
  \/ (c w = (w', Diverge) /\ o = Diverge).
Proof.
  unfold bind. destruct (c w) as [w1 [a|e|]]; intros H.
  - left. eauto.
  - injection H as <- <-. right. left. eauto.
  - injection H as <- <-. right. right. auto.
Qed.

Lemma readDirectory_no_throw env fuel dirPath relativePath w w' e :
  readDirectory env fuel dirPath relativePath w <> (w', Throw e).
Proof.
  destruct fuel as [|fuel]; cbn [readDirectory]; [unfold diverge; discriminate|].
  unfold tryCatch.
  match goal with
  | |- (match ?c with _ => _ end) <> _ => destruct c as [w1 [a|e'|]]
  end; cbn; discriminate.
Qed.

Lemma forEach_inv_Throw {A S} (inv : World -> Prop) (bad : A -> Prop)
  (body : S -> A -> M S) :
  (forall acc x w w' o,
      inv w -> body acc x w = (w', o) -> inv w' /\ (forall e, o = Throw e -> bad x)) ->
  forall items acc w w' e,
    inv w -> forEach items acc body w = (w', Throw e) -> exists x, In x items /\ bad x.
Proof.
  intros Hbody. induction items as [|x items IH]; intros acc w w' e Hw H; cbn [forEach] in H.
  - discriminate.
  - apply bind_inv in H as [(w1 & acc' & H1 & H2)|[(e' & H1 & _)|(_ & H1)]].
    + destruct (Hbody _ _ _ _ _ Hw H1) as (Hw1 & _).
      destruct (IH _ _ _ _ Hw1 H2) as (y & Hy & Hbad).
      exists y. split; [now right|assumption].
    + destruct (Hbody _ _ _ _ _ Hw H1) as (_ & Hbad).
      exists x. split; [now left|]. eapply Hbad. reflexivity.
    + discriminate.
Qed.

Lemma nodeBuilt_name env r dir n item : nodeBuilt env r dir n item -> nodeName n = item.
Proof. intros (st & _ & H). destruct n; cbn; tauto. Qed.

Lemma nodeBuilt_names env r dir unsorted items :
  Forall2 (nodeBuilt env r dir) unsorted items -> map nodeName unsorted = items.
Proof.
  induction 1 as [|n item unsorted items H _ IH]; [reflexivity|].
  cbn. now rewrite (nodeBuilt_name _ _ _ _ _ H), IH.
Qed.

(** Every level of the tree that [readDirectory] returns is empty because
    of a read error, or holds one node for each enumerated entry, filled
    from what [stat] says of it. *)
Lemma readDirectory_levelExact env fuel :
  forall dirPath relativePath w w' nodes,
    readDirectory env fuel dirPath relativePath w = (w', Ok nodes) ->
    everyLevel (levelExact env (root w)) dirPath nodes.
Proof.
  induction fuel as [|fuel IH]; intros dirPath relativePath w w' nodes H;
    cbn [readDirectory] in H; [discriminate|].
  apply tryCatch_inv_Ok in H as [H|(w1 & e & Hthrow & H)].
  2: { cbn in H. injection H as _ <-. split; [|constructor].
       left. split; [|reflexivity]. unfold readError.
       apply bind_inv in Hthrow as [(w2 & items & Hread & Hthrow)|[(e' & Hread & _)|(_ & E)]];
         [| |discriminate].
       - apply reading_inv_Ok in Hread as [-> Hread]. rewrite Hread.
         apply bind_inv in Hthrow as [(w3 & unsorted & _ & E)|[(e1 & Hloop & _)|(_ & E)]];
           [discriminate| |discriminate].
         eapply (forEach_inv_Throw (fun w0 => root w0 = root w)
                   (fun item => exists c,
                        Fs.statEntry (Path.join [dirPath; item]) (root w) = Fs.Fail c))
           in Hloop; [|clear Hloop|reflexivity].
         + destruct Hloop as (item & Hin & c & Hc). eauto.
         + intros acc item w0 w0' o Hw0 Hb.
           apply bind_inv in Hb as [(w3 & stats & Hstat & Hb)|[(e2 & Hstat & ->)|(Hstat & _)]].
           * apply reading_inv_Ok in Hstat as [-> _].
             destruct (Fs.isDirectory stats).
             -- apply bind_inv in Hb as [(w4 & children & Hrec & Hb)|[(e3 & Hrec & _)|(Hrec & ->)]].
                ++ pose proof (readDirectory_readOnly _ _ _ _ _ _ _ Hrec) as [Hroot _].
                   cbn in Hb. injection Hb as <- <-. cbn [root].
                   split; [congruence|discriminate].
                ++ now apply readDirectory_no_throw in Hrec.
                ++ pose proof (readDirectory_readOnly _ _ _ _ _ _ _ Hrec) as [Hroot _].
                   split; [congruence|discriminate].
             -- cbn in Hb. injection Hb as <- <-. cbn [root]. split; [assumption|discriminate].
           * unfold stat, reading in Hstat. rewrite Hw0 in Hstat.
             destruct (Fs.statEntry (Path.join [dirPath; item]) (root w)) as [st|c] eqn:Hst;
               [discriminate|].
             injection Hstat as <- _. split; [assumption|]. intros _ _. eauto.
           * unfold stat, reading in Hstat.
             destruct (Fs.statEntry (Path.join [dirPath; item]) (root w0)); discriminate.
       - unfold readdir, reading in Hread.
         destruct (Fs.readdirEntry dirPath (root w)); [discriminate|exact I]. }
  apply bind_inv_Ok in H as (w1 & items & Hread & H).
  apply reading_inv_Ok in Hread as [-> Hread].
  apply bind_inv_Ok in H as (w2 & unsorted & Hloop & H).
  injection H as _ <-.
  eapply (forEach_collect
            (fun n item => nodeBuilt env (root w) dirPath n item
                           /\ everyLevelBelow (levelExact env (root w)) dirPath n)
            (fun w0 => root w0 = root w)) in Hloop; [|clear Hloop|reflexivity].
  - destruct Hloop as (_ & new & -> & Hnew). cbn [app].
    apply Forall2_Forall_l in Hnew as [Hitems Hbelow].
    split.
    + right. exists items, new. auto.
    + apply Forall_forall. intros n Hn.
      apply (proj1 (sortByLastUpdate_In _ _)) in Hn.
      rewrite Forall_forall in Hbelow. now apply Hbelow.
  - intros acc item w0 w0' res Hw0 Hb.
    apply bind_inv_Ok in Hb as (w3 & stats & Hstat & Hb).
    apply reading_inv_Ok in Hstat as [-> Hstat]. rewrite Hw0 in Hstat.
    destruct (Fs.isDirectory stats) eqn:Hdir.
    + apply bind_inv_Ok in Hb as (w4 & children & Hrec & Hb).
      pose proof (readDirectory_readOnly _ _ _ _ _ _ _ Hrec) as [Hroot _].
      apply IH in Hrec. rewrite Hw0 in Hrec.
      apply bind_inv_Ok in Hb as (w5 & id & Hid & Hb).
      injection Hid as <- <-. injection Hb as <- <-.
      split; [cbn; congruence|].
      eexists. split; [reflexivity|]. split.
      * exists stats. split; [assumption|]. cbn. auto.
      * now apply everyLevelBelow_folder.
    + apply bind_inv_Ok in Hb as (w5 & id & Hid & Hb).
      injection Hid as <- <-. injection Hb as <- <-.
      split; [cbn; congruence|].
      eexists. split; [reflexivity|]. split; [|exact I].
      exists stats. split; [assumption|]. cbn. repeat split; assumption.
Qed.

Lemma Node_forest_ind (Q : Node -> Prop) :
  (forall id name size extension mimeType created updated,
      Q (FileNode id name size extension mimeType created updated)) ->
  (forall id name children created updated,
      Forall Q children -> Q (FolderNode id name children created updated)) ->
  forall n, Q n.
Proof.
  intros Hfile Hfolder. fix IH 1. intros [id name size ext mime c u|id name children c u].
  - apply Hfile.
  - apply Hfolder. induction children as [|child rest IHrest]; constructor.
    + apply IH.
    + exact IHrest.
Qed.

Lemma everyLevelBelow_mono (P Q : string -> list Node -> Prop) :
  (forall dir forest, P dir forest -> Q dir forest) ->
  forall n dir, everyLevelBelow P dir n -> everyLevelBelow Q dir n.
Proof.
  intros HPQ. induction n as [|id name children c u IH] using Node_forest_ind;
    intros dir H; [exact I|].
  apply everyLevelBelow_folder in H as [H1 H2]. apply everyLevelBelow_folder.
  split; [now apply HPQ|].
  rewrite Forall_forall in *. intros child Hc. apply IH; [assumption|now apply H2].
Qed.

Lemma everyLevel_mono (P Q : string -> list Node -> Prop) dir forest :
  (forall dir forest, P dir forest -> Q dir forest) ->
  everyLevel P dir forest -> everyLevel Q dir forest.
Proof.
  intros HPQ [H1 H2]. split; [now apply HPQ|].
  eapply Forall_impl; [|exact H2]. intros n. now apply everyLevelBelow_mono.
Qed.

Lemma Forall2_In_l {A B} (R : A -> B -> Prop) l l' a :
  Forall2 R l l' -> In a l -> exists b, In b l' /\ R a b.
Proof.
  induction 1 as [|x y l l' Hxy _ IH]; intros Hin; [contradiction|].
  destruct Hin as [->|Hin].
  - exists y. split; [now left|assumption].
  - destruct (IH Hin) as (b & Hb & Hab). exists b. split; [now right|assumption].
Qed.

Lemma levelRead_faithful r dir forest : levelRead r dir forest -> levelFaithful r dir forest.
Proof.
  intros [->|(items & unsorted & Hread & Hitems & ->)] n Hn; [contradiction|].
  apply (proj1 (sortByLastUpdate_In _ _)) in Hn.
  destruct (Forall2_In_l _ _ _ _ Hitems Hn) as (item & Hitem & Hname & st & Hst & Hkind & _).
  subst item. split; [eauto|]. exists st. split; [assumption|congruence].
Qed.

(** ** The order of the children *)

Lemma insertByUpdate_sorted n l :
  StronglySorted (fun a b => (updatedAt b <= updatedAt a)%Z) l ->
  StronglySorted (fun a b => (updatedAt b <= updatedAt a)%Z) (insertByUpdate n l).
Proof.
  induction 1 as [|h t Ht IH Hh]; cbn; [repeat constructor|].
  destruct (updatedAt n <? updatedAt h)%Z eqn:E.
  - apply Z.ltb_lt in E. constructor; [assumption|].
    apply Forall_forall. intros x Hx. apply insertByUpdate_In in Hx as [->|Hx]; [lia|].
    rewrite Forall_forall in Hh. now apply Hh.
  - apply Z.ltb_ge in E. constructor; [now constructor|].
    constructor; [assumption|].
    eapply Forall_impl; [|exact Hh]. cbn. intros. lia.
Qed.

Lemma sortByLastUpdate_sorted l :
  StronglySorted (fun a b => (updatedAt b <= updatedAt a)%Z) (sortByLastUpdate l).
Proof.
  induction l as [|n l IH]; cbn; [constructor|]. now apply insertByUpdate_sorted.
Qed.

Lemma insertByUpdate_Permutation n l : Permutation (n :: l) (insertByUpdate n l).
Proof.
  induction l as [|h t IH]; cbn; [reflexivity|].
  destruct (updatedAt n <? updatedAt h)%Z; [|reflexivity].
  rewrite perm_swap. now constructor.
Qed.

Lemma sortByLastUpdate_Permutation l : Permutation l (sortByLastUpdate l).
Proof.
  induction l as [|n l IH]; cbn; [constructor|].
  rewrite <- insertByUpdate_Permutation. now constructor.
Qed.

(** Stability: among the nodes of one time the sort changes nothing. *)
Lemma insertByUpdate_stable t n l :
  filter (fun x => (updatedAt x =? t)%Z) (insertByUpdate n l)
  = filter (fun x => (updatedAt x =? t)%Z) (n :: l).
Proof.
  induction l as [|h l IH]; [reflexivity|]. cbn [insertByUpdate].
  destruct (updatedAt n <? updatedAt h)%Z eqn:E; [|reflexivity].
  apply Z.ltb_lt in E. cbn [filter] in *. rewrite IH.
  destruct (updatedAt n =? t)%Z eqn:En, (updatedAt h =? t)%Z eqn:Eh; try reflexivity.
  apply Z.eqb_eq in En, Eh. lia.
Qed.

Lemma sortByLastUpdate_stable t l :
  filter (fun x => (updatedAt x =? t)%Z) (sortByLastUpdate l)
  = filter (fun x => (updatedAt x =? t)%Z) l.
Proof.
  induction l as [|n l IH]; [reflexivity|].
  cbn [sortByLastUpdate fold_right]. fold (sortByLastUpdate l).
  rewrite insertByUpdate_stable. cbn [filter]. now rewrite IH.
Qed.

Lemma levelRead_ordered r dir forest : levelRead r dir forest -> levelOrdered r dir forest.
Proof.
  intros [->|(items & unsorted & Hread & Hitems & ->)].
  - split; [constructor|now left].
  - split; [apply sortByLastUpdate_sorted|]. right. exists items. split; [assumption|].
    intros t. rewrite sortByLastUpdate_stable. clear Hread.
    induction Hitems as [|n item unsorted items (Hname & st & Hst & _ & Hupd) _ IH];
      [reflexivity|].
    cbn [filter map]. unfold modifiedAt at 1. rewrite Hst, Hupd.
    destruct (Fs.mtime st =? t)%Z; cbn [map]; now rewrite IH, ?Hname.
Qed.

(** C5.  At every level of the tree that [readDirectory] returns, the
    children are sorted by [updatedAt], most recent first, and the children
    of any one time come in the order in which the directory of that level
    enumerates them. *)
Theorem readDirectory_ordered env fuel dirPath relativePath w w' nodes :
  readDirectory env fuel dirPath relativePath w = (w', Ok nodes) ->
  everyLevel (levelOrdered (root w)) dirPath nodes.
Proof.
  intros H. apply readDirectory_levelRead in H.
  eapply everyLevel_mono; [|exact H]. apply levelRead_ordered.
Qed.

Lemma readDirectory_faithful env fuel dirPath relativePath w w' nodes :
  readDirectory env fuel dirPath relativePath w = (w', Ok nodes) ->
  everyLevel (levelFaithful (root w)) dirPath nodes.
Proof.
  intros H. apply readDirectory_levelRead in H.
  eapply everyLevel_mono; [|exact H]. apply levelRead_faithful.
Qed.

(** ** Well-formed trees *)



Lemma findItem_In name items c :
  Fs.findItem name items = Some c -> In (name, c) items.
Proof.
  induction items as [|[n x] items IH]; cbn; [discriminate|].
  destruct (n =? name) eqn:E.
  - apply String.eqb_eq in E. intros [= <-]. left. congruence.
  - intros H. right. now apply IH.
Qed.

Lemma lookup_app a b r :
  Fs.lookup (a ++ b) r = Fs.andThen (Fs.lookup a r) (Fs.lookup b).
Proof.
  revert r. induction a as [|s a IH]; intros r; [reflexivity|].
  cbn [app Fs.lookup]. destruct r as [| |]; try reflexivity.
  destruct (Fs.findItem s items); [apply IH|reflexivity].
Qed.



Lemma readdirEntry_Done dir r items :
  Fs.readdirEntry dir r = Fs.Done items ->
  dir <> "" /\ exists b m its,
    Fs.lookup (Fs.segments dir) r = Fs.Done (Fs.Dir b m true its) /\ items = map fst its.
Proof.
  unfold Fs.readdirEntry, Fs.resolve.
  destruct (dir =? "") eqn:E; [discriminate|]. apply String.eqb_neq in E.
  destruct (Fs.lookup (Fs.segments dir) r) as [e|]; [|discriminate].
  destruct e as [|b m rd its|]; cbn; try (destruct (Js.endsWith "/" dir); discriminate).
  destruct rd; [|discriminate]. intros [= <-]. split; [assumption|]. eauto.
Qed.

Lemma statEntry_lookup path r st :
  Fs.statEntry path r = Fs.Done st ->
  exists e, Fs.lookup (Fs.segments path) r = Fs.Done e
            /\ Fs.isDirectory st = Fs.isDir e /\ e <> Fs.Dangling.
Proof.
  unfold Fs.statEntry, Fs.resolve.
  destruct (path =? ""); [discriminate|].
  destruct (Fs.lookup (Fs.segments path) r) as [e|]; [|discriminate].
  destruct e; cbn; try (destruct (Js.endsWith "/" path); cbn); try discriminate;
    intros [= <-]; eexists; (split; [reflexivity|split; [reflexivity|discriminate]]).
Qed.

(** ** The reader always returns *)




(** ** Creating directories *)

Lemma findItem_setItem name name' e items :
  Fs.findItem name (Fs.setItem name' e items)
  = if name' =? name then Some e else Fs.findItem name items.
Proof.
  induction items as [|[n x] items IH]; cbn.
  - reflexivity.
  - destruct (n =? name') eqn:E1; cbn.
    + apply String.eqb_eq in E1. subst n. destruct (name' =? name); reflexivity.
    + destruct (n =? name) eqn:E2; [|exact IH].
      apply String.eqb_eq in E2. subst n. rewrite String.eqb_sym, E1. reflexivity.
Qed.

Lemma setItem_new name e items :
  Fs.findItem name items = None -> Fs.setItem name e items = items ++ [(name, e)].
Proof.
  induction items as [|[n x] items IH]; cbn; [reflexivity|].
  destruct (n =? name); [discriminate|]. intros H. now rewrite IH.
Qed.

Lemma sameKind_refl x : sameKind x x.
Proof. destruct x; reflexivity. Qed.

Lemma sameKind_trans x y z : sameKind x y -> sameKind y z -> sameKind x z.
Proof.
  destruct x; cbn; intros H1 H2; subst; try assumption.
  destruct y; try discriminate. exact H2.
Qed.

Lemma mkdirp_preserves now q : forall refuse p r r' x,
  Fs.mkdirp refuse now q r = Fs.Done r' -> Fs.lookup p r = Fs.Done x ->
  exists x', Fs.lookup p r' = Fs.Done x' /\ sameKind x x'.
Proof.
  induction q as [|s q IH]; intros refuse p r r' x Hmk Hp.
  - cbn in Hmk. destruct r; try discriminate. injection Hmk as <-.
    exists x. split; [assumption|apply sameKind_refl].
  - cbn [Fs.mkdirp] in Hmk. destruct r as [|b m rd items|]; try discriminate.
    destruct p as [|t p].
    + injection Hp as <-.
      destruct (Fs.findItem s items) as [child|].
      * destruct (Fs.mkdirp _ now q child); [|discriminate]. injection Hmk as <-.
        eexists. split; reflexivity.
      * destruct (refuse [s]); [discriminate|].
        injection Hmk as <-. eexists. split; reflexivity.
    + cbn [Fs.lookup] in Hp |- *.
      destruct (Fs.findItem t items) as [c|] eqn:Ft; [|discriminate].
      destruct (Fs.findItem s items) as [child|] eqn:Fs.
      * destruct (Fs.mkdirp _ now q child) as [child'|] eqn:Hc; [|discriminate].
        injection Hmk as <-. cbn [Fs.andThen Fs.lookup]. rewrite findItem_setItem.
        destruct (s =? t) eqn:E.
        -- apply String.eqb_eq in E. subst t. rewrite Ft in Fs. injection Fs as ->.
           eapply IH; eassumption.
        -- rewrite Ft. exists x. split; [assumption|apply sameKind_refl].
      * destruct (refuse [s]); [discriminate|].
        injection Hmk as <-. cbn [Fs.lookup]. rewrite findItem_setItem.
        destruct (s =? t) eqn:E.
        -- apply String.eqb_eq in E. subst t. congruence.
        -- rewrite Ft. exists x. split; [assumption|apply sameKind_refl].
Qed.

Lemma lookup_freshDirs now segs k :
  exists d, Fs.lookup (firstn k segs) (Fs.freshDirs now segs) = Fs.Done d
            /\ Fs.isDir d = true.
Proof.
  revert k. induction segs as [|s segs IH]; intros k.
  - rewrite firstn_nil. eexists. split; reflexivity.
  - destruct k as [|k]; [eexists; split; reflexivity|].
    cbn. rewrite String.eqb_refl. apply IH.
Qed.

(** After a successful recursive [mkdir] every prefix of the path is a
    directory. *)
Lemma mkdirp_dirs now segs : forall refuse r r' k,
  Fs.mkdirp refuse now segs r = Fs.Done r' ->
  exists d, Fs.lookup (firstn k segs) r' = Fs.Done d /\ Fs.isDir d = true.
Proof.
  induction segs as [|s segs IH]; intros refuse r r' k H.
  - rewrite firstn_nil. cbn in H. destruct r; try discriminate. injection H as <-.
    eexists. split; reflexivity.
  - cbn [Fs.mkdirp] in H. destruct r as [|b m rd items|]; try discriminate.
    destruct (Fs.findItem s items) as [child|] eqn:F.
    + destruct (Fs.mkdirp _ now segs child) as [child'|] eqn:Hc; [|discriminate].
      injection H as <-. destruct k as [|k]; [eexists; split; reflexivity|].
      cbn [firstn Fs.lookup]. rewrite findItem_setItem, String.eqb_refl.
      eapply IH. eassumption.
    + destruct (refuse [s]); [discriminate|].
      injection H as <-. destruct k as [|k]; [eexists; split; reflexivity|].
      cbn [firstn Fs.lookup]. rewrite findItem_setItem, String.eqb_refl.
      apply lookup_freshDirs.
Qed.

(** A recursive [mkdir] on the path of a file reports EEXIST. *)
Lemma mkdirp_file now segs : forall refuse r size b m,
  Fs.lookup segs r = Fs.Done (Fs.File size b m) ->
  Fs.mkdirp refuse now segs r = Fs.Fail Fs.EEXIST.
Proof.
  induction segs as [|s segs IH]; intros refuse r size b m H.
  - cbn in H. injection H as ->. reflexivity.
  - cbn [Fs.lookup] in H. destruct r as [|b' m' rd items|]; try discriminate.
    cbn [Fs.mkdirp]. destruct (Fs.findItem s items) as [child|]; [|discriminate].
    now rewrite (IH _ _ _ _ _ H).
Qed.

(** A new folder in a directory that has no entry of that name: it is
    created unless the kernel refuses. *)
Lemma mkdirp_child now name segs : forall refuse r b m rd its,
  Fs.lookup segs r = Fs.Done (Fs.Dir b m rd its) ->
  Fs.findItem name its = None ->
  refuse (segs ++ [name]) = None ->
  exists r', Fs.mkdirp refuse now (segs ++ [name]) r = Fs.Done r'
             /\ Fs.lookup segs r'
                = Fs.Done (Fs.Dir b now rd (its ++ [(name, Fs.Dir now now true [])])).
Proof.
  induction segs as [|s segs IH]; intros refuse r b m rd its Hdir Hnew Hfree.
  - cbn in Hdir. injection Hdir as ->. cbn in Hfree |- *. rewrite Hnew, Hfree.
    eexists. split; [reflexivity|]. now rewrite setItem_new.
  - cbn [Fs.lookup] in Hdir. destruct r as [|b' m' rd' items|]; try discriminate.
    destruct (Fs.findItem s items) as [child|] eqn:F; [|discriminate].
    destruct (IH (fun p => refuse (s :: p)) _ _ _ _ _ Hdir Hnew Hfree)
      as (child' & Hc & Hl).
    cbn [app Fs.mkdirp]. rewrite F, Hc. cbn [Fs.andThen].
    eexists. split; [reflexivity|].
    cbn [Fs.lookup]. now rewrite findItem_setItem, String.eqb_refl.
Qed.

Lemma mkdirp_child_refused now name segs : forall refuse r b m rd its e,
  Fs.lookup segs r = Fs.Done (Fs.Dir b m rd its) ->
  Fs.findItem name its = None ->
  refuse (segs ++ [name]) = Some e ->
  Fs.mkdirp refuse now (segs ++ [name]) r = Fs.Fail e.
Proof.
  induction segs as [|s segs IH]; intros refuse r b m rd its e Hdir Hnew Hno.
  - cbn in Hdir. injection Hdir as ->. cbn in Hno |- *. now rewrite Hnew, Hno.
  - cbn [Fs.lookup] in Hdir. destruct r as [|b' m' rd' items|]; try discriminate.
    destruct (Fs.findItem s items) as [child|] eqn:F; [|discriminate].
    cbn [app Fs.mkdirp]. rewrite F.
    now rewrite (IH (fun p => refuse (s :: p)) _ _ _ _ _ _ Hdir Hnew Hno).
Qed.

(** ** The directory initializer *)

Lemma mkdirEntry_Done refuse now path r r' :
  Fs.mkdirEntry refuse now path r = Fs.Done r' ->
  path <> "" /\ Fs.mkdirp refuse now (Fs.segments path) r = Fs.Done r'.
Proof.
  unfold Fs.mkdirEntry. destruct (path =? "") eqn:E; [discriminate|].
  apply String.eqb_neq in E.
  destruct (Fs.mkdirp refuse now (Fs.segments path) r) as [x|e]; [now intros [= <-]|].
  destruct e; try discriminate. destruct (Js.endsWith "/" path); discriminate.
Qed.

(** The initializer never throws; its world is the one of the last call
    that succeeded. *)
Lemma initialize_cases env dir w :
  let now := clock w in
  let world r := mkWorld r (clock w) (nextId w) in
  exists w',
    initializeUserFilesDirectory env dir w = (w', Ok tt)
    /\ ((exists e, Fs.mkdirEntry (refuses env) now dir (root w) = Fs.Fail e /\ w' = w)
        \/ exists r1,
             Fs.mkdirEntry (refuses env) now dir (root w) = Fs.Done r1
             /\ ((exists e, Fs.readdirEntry dir r1 = Fs.Fail e /\ w' = world r1)
                 \/ (exists items, Fs.readdirEntry dir r1 = Fs.Done items
                                   /\ items <> [] /\ w' = world r1)
                 \/ (Fs.readdirEntry dir r1 = Fs.Done []
                     /\ ((exists e, Fs.mkdirEntry (refuses env) now (Path.join [dir; "Documents"]) r1
                                    = Fs.Fail e /\ w' = world r1)
                         \/ exists r2,
                              Fs.mkdirEntry (refuses env) now (Path.join [dir; "Documents"]) r1 = Fs.Done r2
                              /\ ((exists e, Fs.mkdirEntry (refuses env) now (Path.join [dir; "Images"]) r2
                                             = Fs.Fail e /\ w' = world r2)
                                  \/ exists r3,
                                       Fs.mkdirEntry (refuses env) now (Path.join [dir; "Images"]) r2
                                       = Fs.Done r3 /\ w' = world r3))))).
Proof.
  cbv zeta.
  unfold initializeUserFilesDirectory, tryCatch, bind, mkdir, readdir, writing, reading,
    console, ret.
  destruct (Fs.mkdirEntry (refuses env) (clock w) dir (root w)) as [r1|e] eqn:E1; cbn.
  2: { eexists. split; [first [reflexivity|eassumption]|]. left. eauto. }
  destruct (Fs.readdirEntry dir r1) as [items|e] eqn:E2; cbn.
  2: { eexists. split; [first [reflexivity|eassumption]|]. right. eexists. split; [first [reflexivity|eassumption]|]. left. eauto. }
  destruct items as [|item items]; cbn.
  2: { eexists. split; [first [reflexivity|eassumption]|]. right. eexists. split; [first [reflexivity|eassumption]|].
       right. left. exists (item :: items).
       split; [first [reflexivity|eassumption]|]. split; [discriminate|reflexivity]. }
  destruct (Fs.mkdirEntry (refuses env) (clock w) (Path.join [dir; "Documents"]) r1) as [r2|e] eqn:E3; cbn.
  2: { eexists. split; [first [reflexivity|eassumption]|]. right. eexists. split; [first [reflexivity|eassumption]|].
       right. right. split; [first [reflexivity|eassumption]|]. left. eauto. }
  destruct (Fs.mkdirEntry (refuses env) (clock w) (Path.join [dir; "Images"]) r2) as [r3|e] eqn:E4; cbn.
  2: { eexists. split; [first [reflexivity|eassumption]|]. right. eexists. split; [first [reflexivity|eassumption]|].
       right. right. split; [first [reflexivity|eassumption]|]. right. eexists. split; [first [reflexivity|eassumption]|].
       left. eauto. }
  eexists. split; [first [reflexivity|eassumption]|]. right. eexists. split; [first [reflexivity|eassumption]|].
  right. right. split; [first [reflexivity|eassumption]|]. right. eexists. split; [first [reflexivity|eassumption]|].
  right. eauto.
Qed.

Lemma mkdirEntry_preserves refuse now path r r' p x :
  Fs.mkdirEntry refuse now path r = Fs.Done r' -> Fs.lookup p r = Fs.Done x ->
  exists x', Fs.lookup p r' = Fs.Done x' /\ sameKind x x'.
Proof.
  intros H. apply mkdirEntry_Done in H as [_ H]. eapply mkdirp_preserves. exact H.
Qed.

(** What was there before the initializer ran is there after it. *)
Lemma initialize_preserves env dir w w' o p x :
  initializeUserFilesDirectory env dir w = (w', o) ->
  Fs.lookup p (root w) = Fs.Done x ->
  o = Ok tt /\ clock w' = clock w /\ nextId w' = nextId w
  /\ exists x', Fs.lookup p (root w') = Fs.Done x' /\ sameKind x x'.
Proof.
  intros H Hx. destruct (initialize_cases env dir w) as (w1 & E & Hcases).
  rewrite E in H. injection H as <- <-. cbv zeta in Hcases.
  destruct Hcases as [(e & _ & ->)|(r1 & H1 & Hcases)].
  { repeat split; eauto using sameKind_refl. }
  destruct (mkdirEntry_preserves _ _ _ _ _ _ _ H1 Hx) as (x1 & Hx1 & K1).
  destruct Hcases as [(e & _ & ->)|[(items & _ & _ & ->)|(_ & Hcases)]];
    [repeat split; eauto..|].
  destruct Hcases as [(e & _ & ->)|(r2 & H2 & Hcases)]; [repeat split; eauto|].
  destruct (mkdirEntry_preserves _ _ _ _ _ _ _ H2 Hx1) as (x2 & Hx2 & K2).
  destruct Hcases as [(e & _ & ->)|(r3 & H3 & ->)];
    [repeat split; eauto using sameKind_trans|].
  destruct (mkdirEntry_preserves _ _ _ _ _ _ _ H3 Hx2) as (x3 & Hx3 & K3).
  repeat split; eauto using sameKind_trans.
Qed.

Lemma statEntry_file target r st :
  Fs.statEntry target r = Fs.Done st -> Fs.isDirectory st = false ->
  target <> "" /\ Js.endsWith "/" target = false
  /\ exists size b m, Fs.lookup (Fs.segments target) r = Fs.Done (Fs.File size b m)
                      /\ st = Fs.mkStats false size b m.
Proof.
  unfold Fs.statEntry, Fs.resolve.
  destruct (target =? "") eqn:E; [discriminate|]. apply String.eqb_neq in E.
  destruct (Fs.lookup (Fs.segments target) r) as [e|]; [|discriminate].
  destruct e; cbn; try discriminate.
  - destruct (Js.endsWith "/" target); cbn; [discriminate|].
    intros [= <-] _. repeat split; eauto.
  - intros [= <-]. discriminate.
Qed.

Lemma statEntry_of_file target r size b m :
  target <> "" -> Js.endsWith "/" target = false ->
  Fs.lookup (Fs.segments target) r = Fs.Done (Fs.File size b m) ->
  Fs.statEntry target r = Fs.Done (Fs.mkStats false size b m).
Proof.
  intros Hne Hend Hl. unfold Fs.statEntry, Fs.resolve.
  apply String.eqb_neq in Hne. rewrite Hne, Hl. cbn. now rewrite Hend.
Qed.

(** C10.  When the path POST is to create is an existing file, the
    pre-check lets it pass, the recursive [mkdir] reports EEXIST and POST
    answers 409 "Folder already exists"; the world is the one the
    initializer left. *)
Theorem POST_on_file_conflicts env fields nameText target w st :
  getField "name" fields = Some (JStr nameText) ->
  nameText <> "" ->
  createTarget env (getField "folderPath" fields) nameText = Some target ->
  Fs.statEntry target (root w) = Fs.Done st ->
  Fs.isDirectory st = false ->
  exists w',
    initializeUserFilesDirectory env (userFilesDirOf env) w = (w', Ok tt)
    /\ POST env (Some (JObj fields)) w
       = (w', Ok (json (Failure "Folder already exists") 409)).
Proof.
  intros Hname Hne Htarget Hstat Hfile.
  destruct (statEntry_file _ _ _ Hstat Hfile) as (Hte & Hend & size & b & m & Hl & ->).
  destruct (initializeUserFilesDirectory env (userFilesDirOf env) w) as [w1 o] eqn:Hinit.
  destruct (initialize_preserves _ _ _ _ _ _ _ Hinit Hl) as (-> & Hclock & _ & x' & Hl1 & Hk).
  cbn in Hk. subst x'.
  exists w1. split; [reflexivity|].
  assert (Ht : (if truthy (getField "folderPath" fields)
                then joinValues [Some (JStr (userFilesDirOf env)); getField "folderPath" fields;
                                 Some (JStr (Js.trim nameText))]
                else ret (Path.join [userFilesDirOf env; Js.trim nameText])) w1
               = (w1, Ok target)).
  { unfold createTarget in Htarget. destruct (truthy (getField "folderPath" fields)).
    - unfold joinValues.
      destruct (stringsOf _); [|discriminate]. now injection Htarget as ->.
    - now injection Htarget as ->. }
  unfold POST. apply tryCatch_Ok.
  rewrite (bind_Ok _ _ w w (JObj fields)) by reflexivity.
  rewrite (bind_Ok _ _ w w (getField "folderPath" fields)) by reflexivity.
  rewrite (bind_Ok _ _ w w (Some (JStr nameText))) by (cbn; now rewrite Hname).
  cbn [truthy isString textOf negb orb].
  apply truthy_nonempty in Hne as ->. cbn [negb orb].
  rewrite (bind_Ok _ _ _ _ _ Hinit).
  rewrite (bind_Ok _ _ _ _ _ Ht).
  rewrite (bind_Ok _ _ w1 w1 None).
  2: { apply tryCatch_Ok.
       rewrite (bind_Ok _ _ _ _ _ (stat_Done _ _ _ (statEntry_of_file _ _ _ _ _ Hte Hend Hl1))).
       reflexivity. }
  rewrite (bind_Ok _ _ w1 w1 (Some (json (Failure "Folder already exists") 409)));
    [reflexivity|].
  rewrite (tryCatch_Throw _ _ w1 w1 (SystemError Fs.EEXIST)); [reflexivity|].
  apply bind_Throw. unfold mkdir, writing, Fs.mkdirEntry.
  apply String.eqb_neq in Hte. rewrite Hte.
  rewrite (mkdirp_file _ _ _ _ _ _ _ Hl1), Hend. reflexivity.
Qed.

Lemma mkdirEntry_child refuse now dir name r b m rd its :
  dir <> "" -> Forall (fun s => validName s = true) (Fs.segments dir) ->
  validName name = true ->
  Fs.lookup (Fs.segments dir) r = Fs.Done (Fs.Dir b m rd its) ->
  Fs.findItem name its = None ->
  refuse (Fs.segments dir ++ [name]) = None ->
  exists r', Fs.mkdirEntry refuse now (Path.join [dir; name]) r = Fs.Done r'
             /\ Fs.lookup (Fs.segments dir) r'
                = Fs.Done (Fs.Dir b now rd (its ++ [(name, Fs.Dir now now true [])])).
Proof.
  intros Hne Hsegs Hname Hdir Hnew Hfree.
  destruct (join_child_segments dir name Hne Hsegs Hname) as (Hjoin & _ & Hnj).
  destruct (mkdirp_child now name _ _ _ _ _ _ _ Hdir Hnew Hfree) as (r' & Hmk & Hl).
  exists r'. split; [|assumption].
  unfold Fs.mkdirEntry. apply String.eqb_neq in Hnj. now rewrite Hnj, Hjoin, Hmk.
Qed.

(** The same call when the kernel refuses: it fails with the error of the
    kernel. *)
Lemma mkdirEntry_child_refused refuse now dir name r b m rd its e :
  dir <> "" -> Forall (fun s => validName s = true) (Fs.segments dir) ->
  validName name = true ->
  Fs.lookup (Fs.segments dir) r = Fs.Done (Fs.Dir b m rd its) ->
  Fs.findItem name its = None ->
  refuse (Fs.segments dir ++ [name]) = Some e ->
  Fs.mkdirEntry refuse now (Path.join [dir; name]) r = Fs.Fail e.
Proof.
  intros Hne Hsegs Hname Hdir Hnew Hno.
  destruct (join_child_segments dir name Hne Hsegs Hname) as (Hjoin & Hend & Hnj).
  unfold Fs.mkdirEntry. apply String.eqb_neq in Hnj. rewrite Hnj, Hjoin.
  rewrite (mkdirp_child_refused now name _ _ _ _ _ _ _ _ Hdir Hnew Hno), Hend.
  now destruct e.
Qed.

Lemma directoryAt_preserved refuse now path r r' segs :
  Fs.mkdirEntry refuse now path r = Fs.Done r' -> directoryAt segs r -> directoryAt segs r'.
Proof.
  intros Hmk (d & Hd & Hdir).
  destruct (mkdirEntry_preserves _ _ _ _ _ _ _ Hmk Hd) as (d' & Hd' & Hk).
  exists d'. split; [assumption|]. destruct d; try discriminate. exact Hk.
Qed.

(** C7, as amended.  The initializer never throws, whatever fails.  If
    the recursive [mkdir] of the root fails, nothing has changed.  If it
    succeeds, the root and every prefix of its path are directories
    afterwards.  When the root then lists something, or cannot be listed,
    nothing more is created.  When it lists as empty, what it ends up
    holding depends on what the kernel lets the process create: exactly
    [Documents] and [Images], both empty directories, when it refuses
    neither; [Documents] alone when it refuses [Images]; nothing when it
    refuses [Documents], for then [Images] is not attempted.  The refusal
    is swallowed like every other error. *)
Theorem initialize_contract env dir w :
  dir <> "" -> Forall (fun s => validName s = true) (Fs.segments dir) ->
  exists w',
    initializeUserFilesDirectory env dir w = (w', Ok tt)
    /\ (forall e, Fs.mkdirEntry (refuses env) (clock w) dir (root w) = Fs.Fail e -> w' = w)
    /\ (forall r1, Fs.mkdirEntry (refuses env) (clock w) dir (root w) = Fs.Done r1 ->
          (forall k, directoryAt (firstn k (Fs.segments dir)) (root w'))
          /\ (forall e, Fs.readdirEntry dir r1 = Fs.Fail e -> root w' = r1)
          /\ (forall items, Fs.readdirEntry dir r1 = Fs.Done items ->
                (items <> [] -> root w' = r1)
                /\ (items = [] ->
                    match refuses env (Fs.segments dir ++ ["Documents"]),
                          refuses env (Fs.segments dir ++ ["Images"]) with
                    | Some _, _ => root w' = r1
                    | None, Some _ =>
                        Fs.readdirEntry dir (root w') = Fs.Done ["Documents"]
                        /\ emptyDirectoryAt (Fs.segments dir ++ ["Documents"]) (root w')
                    | None, None =>
                        Fs.readdirEntry dir (root w') = Fs.Done ["Documents"; "Images"]
                        /\ emptyDirectoryAt (Fs.segments dir ++ ["Documents"]) (root w')
                        /\ emptyDirectoryAt (Fs.segments dir ++ ["Images"]) (root w')
                    end))).
Proof.
  intros Hne Hsegs.
  destruct (initialize_cases env dir w) as (w' & E & Hcases). cbv zeta in Hcases.
  exists w'. split; [assumption|].
  destruct Hcases as [(e & H1 & ->)|(r1 & H1 & Hcases)].
  { split; [reflexivity|]. intros r1 H. congruence. }
  split; [intros e H; congruence|].
  intros r1' H1'. rewrite H1 in H1'. injection H1' as <-.
  assert (Hdirs : forall k, directoryAt (firstn k (Fs.segments dir)) r1).
  { intros k. apply mkdirEntry_Done in H1 as [_ H1]. eapply mkdirp_dirs. exact H1. }
  destruct Hcases as [(e & H2 & ->)|[(items & H2 & Hitems & ->)|(H2 & Hcases)]].
  { cbn [root]. split; [exact Hdirs|]. split; [reflexivity|]. intros; congruence. }
  { cbn [root]. split; [exact Hdirs|]. split; [reflexivity|].
    intros items' H2'. rewrite H2 in H2'. injection H2' as <-.
    split; [reflexivity|contradiction]. }
  destruct (readdirEntry_Done _ _ _ H2) as (_ & b & m & its & Hl1 & Hnil).
  destruct its; [clear Hnil|discriminate].
  assert (Hlist : forall r l,
             Fs.lookup (Fs.segments dir) r = Fs.Done (Fs.Dir b (clock w) true l) ->
             Fs.readdirEntry dir r = Fs.Done (map fst l)).
  { intros r l Hl. unfold Fs.readdirEntry, Fs.resolve.
    apply String.eqb_neq in Hne. now rewrite Hne, Hl. }
  destruct (refuses env (Fs.segments dir ++ ["Documents"])) as [e1|] eqn:R1.
  { pose proof (mkdirEntry_child_refused _ (clock w) dir "Documents" r1 _ _ _ _ _
                  Hne Hsegs eq_refl Hl1 eq_refl R1) as H3.
    destruct Hcases as [(e & _ & ->)|(r2 & H3' & _)]; [|congruence].
    cbn [root]. split; [exact Hdirs|]. split; [reflexivity|].
    intros items _. split; reflexivity. }
  destruct (mkdirEntry_child _ (clock w) dir "Documents" r1 _ _ _ _
              Hne Hsegs eq_refl Hl1 eq_refl R1) as (r2 & H3 & Hl2).
  destruct Hcases as [(e & H3' & _)|(r2' & H3' & Hcases)]; [congruence|].
  rewrite H3 in H3'. injection H3' as <-.
  destruct (refuses env (Fs.segments dir ++ ["Images"])) as [e2|] eqn:R2.
  { pose proof (mkdirEntry_child_refused _ (clock w) dir "Images" r2 _ _ _ _ _
                  Hne Hsegs eq_refl Hl2 eq_refl R2) as H4.
    destruct Hcases as [(e & _ & ->)|(r3 & H4' & _)]; [|congruence].
    cbn [root]. split; [|split; [intros; congruence|]].
    - intros k. eapply directoryAt_preserved; [exact H3|]. apply Hdirs.
    - intros items H2'. rewrite H2 in H2'. injection H2' as <-.
      split; [congruence|intros _].
      split; [exact (Hlist _ _ Hl2)|].
      exists (clock w), (clock w), true. rewrite lookup_app, Hl2. reflexivity. }
  destruct (mkdirEntry_child _ (clock w) dir "Images" r2 _ _ _ _
              Hne Hsegs eq_refl Hl2 eq_refl R2) as (r3 & H4 & Hl3).
  destruct Hcases as [(e & H4' & _)|(r3' & H4' & ->)]; [congruence|].
  rewrite H4 in H4'. injection H4' as <-. cbn [root].
  split; [|split; [intros; congruence|]].
  - intros k. eapply directoryAt_preserved; [exact H4|].
    eapply directoryAt_preserved; [exact H3|]. apply Hdirs.
  - intros items H2'. rewrite H2 in H2'. injection H2' as <-.
    split; [congruence|intros _].
    split; [exact (Hlist _ _ Hl3)|]. split.
    + exists (clock w), (clock w), true. rewrite lookup_app, Hl3. reflexivity.
    + exists (clock w), (clock w), true. rewrite lookup_app, Hl3. reflexivity.
Qed.

(** ** The tree a GET returns *)

(** C4, as amended.  In the tree of a 200 answer of GET, every node below
    the synthetic root carries the name of the entry it was built from,
    character for character: at every level the nodes are, up to the order
    the sort gives them, one node for each entry that the directory of the
    level enumerates, each named as that entry is named and filled from what
    [stat] says of that entry (a level that met a read error holds no node).
    The synthetic root is named by [rootName]: "My Files" for the top
    level, otherwise the text after the last slash of the requested path, or
    "user-files" when that text is empty. *)
Theorem GET_names_below_root env fuel query w w' resp node :
  GET env fuel query w = (w', Ok resp) ->
  payload resp = Tree node ->
  status resp = 200%Z
  /\ nodeName node = rootName (requestedPathOf query)
  /\ everyLevel (levelExact env (root w')) (targetDirOf env query) (childrenOf node).
Proof.
  intros H Hp. unfold GET in H.
  apply tryCatch_inv_Ok in H as [H|(w1 & e & _ & H)].
  2: { cbn in H. injection H as _ <-. discriminate. }
  apply bind_inv_Ok in H as (w1 & [] & _ & H).
  apply bind_inv_Ok in H as (w2 & early & Hearly & H).
  destruct early as [response|].
  - injection H as _ <-.
    apply tryCatch_inv_Ok in Hearly as [Hearly|(w3 & e & _ & Hearly)].
    + apply bind_inv_Ok in Hearly as (w3 & stats & _ & Hearly).
      destruct (negb (Fs.isDirectory stats)); injection Hearly as _ E; [|discriminate].
      subst response. discriminate.
    + injection Hearly as _ <-. discriminate.
  - apply tryCatch_inv_Ok in Hearly as [Hearly|(w3 & e & _ & Hearly)]; [|discriminate].
    apply bind_inv_Ok in Hearly as (w3 & stats & Hstat & _).
    apply reading_inv_Ok in Hstat as [-> _].
    apply bind_inv_Ok in H as (w4 & children & Hread & H).
    apply bind_inv_Ok in H as (w5 & created & Hc & H).
    apply bind_inv_Ok in H as (w6 & updated & Hu & H).
    injection Hc as <- _. injection Hu as <- _. injection H as <- <-.
    cbn in Hp. injection Hp as <-.
    pose proof (readDirectory_readOnly _ _ _ _ _ _ _ Hread) as [Hroot _].
    apply readDirectory_levelExact in Hread.
    split; [reflexivity|]. split; [reflexivity|].
    cbn [childrenOf root]. rewrite Hroot. exact Hread.
Qed.

(** ** Read errors *)



(** The directory the handlers work in is a normalised absolute path, so
    the contract of the initializer applies to each of their calls. *)
Lemma userFilesDirOf_normal env :
  Js.startsWith "/" (cwd env) = true ->
  userFilesDirOf env <> ""
  /\ Forall (fun s => validName s = true) (Fs.segments (userFilesDirOf env)).
Proof.
  intros Hcwd.
  destruct (join_absolute (cwd env) ["public"; "user-files"] Hcwd) as (l & tr & Hv & E).
  unfold userFilesDirOf. rewrite E. split.
  - now apply absRender_nonempty.
  - now rewrite segments_absRender.
Qed.


(** ** The extension of a file name *)

Lemma orElse_empty a : Js.orElse a "" = a.
Proof. now destruct a. Qed.

Lemma pop_last l x : Js.pop (l ++ [x]) = Some x.
Proof.
  induction l as [|y l IH]; [reflexivity|].
  cbn [app Js.pop]. rewrite IH. destruct (l ++ [x]) eqn:E; [|reflexivity].
  now destruct l.
Qed.

Lemma extensionOf_without_dot item :
  Js.includes "." item = false -> extensionOf item = Js.toLowerCase item.
Proof.
  intros H. unfold extensionOf. rewrite (split_excludes _ _ H). cbn.
  apply orElse_empty.
Qed.

Lemma extensionOf_with_dot stem ext :
  Js.includes "." ext = false ->
  extensionOf (stem ++ String "." ext) = Js.toLowerCase ext.
Proof.
  intros H. unfold extensionOf.
  rewrite split_app, (split_excludes _ _ H), pop_last. apply orElse_empty.
Qed.

(** ** The name of a new folder *)

(** What the check of POST does reject: a [name] that is absent, is not a
    string or is the empty string is answered 400 before anything is
    touched. *)
Lemma POST_requires_name env fields w :
  truthy (getField "name" fields) && isString (getField "name" fields) = false ->
  POST env (Some (JObj fields)) w = (w, Ok (json (Failure "Folder name is required") 400)).
Proof.
  intros H. unfold POST. apply tryCatch_Ok.
  rewrite (bind_Ok _ _ w w (JObj fields)) by reflexivity.
  rewrite (bind_Ok _ _ w w (getField "folderPath" fields)) by reflexivity.
  rewrite (bind_Ok _ _ w w (getField "name" fields)) by reflexivity.
  destruct (truthy (getField "name" fields)), (isString (getField "name" fields));
    try discriminate; reflexivity.
Qed.

(** C1 (the code departs from the claim).  A [name] of three spaces passes
    the check of POST, which tests the name before trimming it.  With a
    [folderPath] the request creates that folder and answers 200 with a node
    whose name is empty; without one it answers 409. *)
Theorem POST_blank_name_not_rejected :
  let w := sampleWorld [("Documents", Fs.Dir 1 2 true [])] in
  let created :=
    POST sampleEnv (Some (JObj [("folderPath", JStr "Inbox"); ("name", JStr "   ")])) w in
  snd created
  = Ok (json (Created "Folder created successfully" (FolderNode "id-0" "" [] 1000 1000)) 200)
  /\ Fs.statEntry "/srv/app/public/user-files/Inbox" (root w) = Fs.Fail Fs.ENOENT
  /\ Fs.statEntry "/srv/app/public/user-files/Inbox" (root (fst created))
     = Fs.Done (Fs.mkStats true 0 1000 1000)
  /\ POST sampleEnv (Some (JObj [("name", JStr "   ")])) w
     = (w, Ok (json (Failure "Folder already exists") 409)).
Proof. repeat split; vm_compute; reflexivity. Qed.

(** C2 (the code departs from the claim).  For the file [README], whose
    name holds no dot, [readDirectory] reports the extension [readme], the
    whole name in lower case, where the claim has the empty string. *)
Theorem readDirectory_extension_without_dot :
  snd (readDirectory sampleEnv 1 "/srv/app/public/user-files" ""
         (sampleWorld [("README", Fs.File 12 5 7)]))
  = Ok [FileNode "id-0" "README" 12 "readme" "application/octet-stream" 5 7].
Proof. vm_compute. reflexivity. Qed.

(** C3 (the code departs from the claim).  Renaming the file [a/a] to [b]
    moves it to [a/b], and the answer reports [b/a] as its new path: the
    first occurrence of the old name was replaced, not the final segment. *)
Theorem PATCH_newPath_first_occurrence :
  let w := sampleWorld [("a", Fs.Dir 1 2 true [("a", Fs.File 3 4 5)])] in
  let renamed :=
    PATCH sampleEnv (Some (JObj [("oldPath", JStr "a/a"); ("newName", JStr "b")])) w in
  snd renamed = Ok (json (Renamed "Item renamed successfully" "a/a" "b/a" "b") 200)
  /\ Fs.statEntry "/srv/app/public/user-files/a/b" (root (fst renamed))
     = Fs.Done (Fs.mkStats false 3 4 5)
  /\ Fs.statEntry "/srv/app/public/user-files/b/a" (root (fst renamed))
     = Fs.Fail Fs.ENOENT.
Proof. repeat split; vm_compute; reflexivity. Qed.

(** ** Counterexamples *)

(** C4 as stated fails at the synthetic root: a GET of the top level
    names it "My Files", and the directory it stands for is [user-files]. *)
Lemma GET_root_name_is_display_name :
  exists w' node,
    GET sampleEnv 3 None (sampleWorld sampleFiles) = (w', Ok (json (Tree node) 200))
    /\ nodeName node = "My Files"
    /\ Path.basename (targetDirOf sampleEnv None) = "user-files"
    /\ nodeName node <> Path.basename (targetDirOf sampleEnv None).
Proof.
  eexists _, _. split; [vm_compute; reflexivity|].
  split; [reflexivity|]. split; [reflexivity|]. vm_compute. discriminate.
Qed.

(** C9 as stated fails for a name with a forbidden character: the file
    [a:b] exists, the new name is its own, and PATCH answers 400. *)
Lemma PATCH_same_name_forbidden_character :
  let w := sampleWorld [("a:b", Fs.File 3 4 5)] in
  let full := Path.join [userFilesDirOf sampleEnv; "a:b"] in
  Fs.statEntry full (root w) = Fs.Done (Fs.mkStats false 3 4 5)
  /\ Js.trim "a:b" = Path.basename full
  /\ PATCH sampleEnv (Some (JObj [("oldPath", JStr "a:b"); ("newName", JStr "a:b")])) w
     = (w, Ok (json (Failure "Name contains invalid characters") 400))
  /\ PATCH sampleEnv (Some (JObj [("oldPath", JStr "a:b"); ("newName", JStr "a:b")])) w
     <> (w, Ok (json (Failure "A file or folder with this name already exists") 409)).
Proof.
  repeat split; try (vm_compute; reflexivity).
  vm_compute. discriminate.
Qed.

(** C7 as stated fails when a subfolder cannot be created.  The root
    exists and is empty.  For a process without write permission the
    initializer returns normally and the root is still empty: neither
    [Documents] nor [Images] was created.  On a disk that fills up before
    [Images] can be created, it returns normally and the root holds
    [Documents] alone. *)
Lemma initialize_seeding_refused :
  let dir := "/srv/app/public/user-files" in
  let w := sampleWorld [] in
  Fs.readdirEntry dir (root w) = Fs.Done []
  /\ initializeUserFilesDirectory deniedEnv dir w = (w, Ok tt)
  /\ snd (initializeUserFilesDirectory fullDiskEnv dir w) = Ok tt
  /\ Fs.readdirEntry dir (root (fst (initializeUserFilesDirectory fullDiskEnv dir w)))
     = Fs.Done ["Documents"].
Proof. repeat split; vm_compute; reflexivity. Qed.

(** ** The theorems at work *)

Lemma GET_names_below_root_witness :
  let w := sampleWorld sampleFiles in
  let w' := mkWorld (hostTree sampleFiles) 1000 10 in
  let node := FolderNode "root" "My Files" sampleListing 1000 1000 in
  (GET sampleEnv 3 None w = (w', Ok (json (Tree node) 200))
   /\ payload (json (Tree node) 200) = Tree node)
  /\ (status (json (Tree node) 200) = 200%Z
      /\ nodeName node = rootName (requestedPathOf None)
      /\ everyLevel (levelExact sampleEnv (root w')) (targetDirOf sampleEnv None)
           (childrenOf node)).
Proof.
  cbv zeta.
  assert (H : GET sampleEnv 3 None (sampleWorld sampleFiles)
              = (mkWorld (hostTree sampleFiles) 1000 10,
                 Ok (json (Tree (FolderNode "root" "My Files" sampleListing 1000 1000)) 200)))
    by (vm_compute; reflexivity).
  split; [split; [exact H|reflexivity]|].
  exact (GET_names_below_root sampleEnv 3 None _ _ _ _ H eq_refl).
Defined.

Lemma readDirectory_ordered_witness :
  let w := sampleWorld sampleFiles in
  readDirectory sampleEnv 3 "/srv/app/public/user-files" "" w
  = (mkWorld (hostTree sampleFiles) 1000 10, Ok sampleListing)
  /\ everyLevel (levelOrdered (root w)) "/srv/app/public/user-files" sampleListing.
Proof.
  cbv zeta.
  assert (H : readDirectory sampleEnv 3 "/srv/app/public/user-files" ""
                (sampleWorld sampleFiles)
              = (mkWorld (hostTree sampleFiles) 1000 10, Ok sampleListing))
    by (vm_compute; reflexivity).
  split; [exact H|].
  exact (readDirectory_ordered sampleEnv 3 _ _ _ _ _ H).
Defined.


Lemma initialize_contract_witness :
  let dir := "/srv/app/public/user-files" in
  (dir <> "" /\ Forall (fun s => validName s = true) (Fs.segments dir))
  /\ exists w',
       initializeUserFilesDirectory sampleEnv dir emptyWorld = (w', Ok tt)
       /\ (forall e, Fs.mkdirEntry (refuses sampleEnv) (clock emptyWorld) dir (root emptyWorld)
                     = Fs.Fail e -> w' = emptyWorld)
       /\ (forall r1, Fs.mkdirEntry (refuses sampleEnv) (clock emptyWorld) dir (root emptyWorld)
                      = Fs.Done r1 ->
             (forall k, directoryAt (firstn k (Fs.segments dir)) (root w'))
             /\ (forall e, Fs.readdirEntry dir r1 = Fs.Fail e -> root w' = r1)
             /\ (forall items, Fs.readdirEntry dir r1 = Fs.Done items ->
                   (items <> [] -> root w' = r1)
                   /\ (items = [] ->
                       match refuses sampleEnv (Fs.segments dir ++ ["Documents"]),
                             refuses sampleEnv (Fs.segments dir ++ ["Images"]) with
                       | Some _, _ => root w' = r1
                       | None, Some _ =>
                           Fs.readdirEntry dir (root w') = Fs.Done ["Documents"]
                           /\ emptyDirectoryAt (Fs.segments dir ++ ["Documents"]) (root w')
                       | None, None =>
                           Fs.readdirEntry dir (root w') = Fs.Done ["Documents"; "Images"]
                           /\ emptyDirectoryAt (Fs.segments dir ++ ["Documents"]) (root w')
                           /\ emptyDirectoryAt (Fs.segments dir ++ ["Images"]) (root w')
                       end))).
Proof.
  cbv zeta.
  assert (Hne : "/srv/app/public/user-files" <> "") by discriminate.
  assert (Hsegs : Forall (fun s => validName s = true)
                    (Fs.segments "/srv/app/public/user-files"))
    by (vm_compute; repeat constructor).
  split; [split; assumption|].
  exact (initialize_contract sampleEnv "/srv/app/public/user-files" emptyWorld Hne Hsegs).
Defined.

Lemma PATCH_same_name_conflict_witness :
  let w := sampleWorld sampleFiles in
  let fields := [("oldPath", JStr "Documents"); ("newName", JStr " Documents ")] in
  (Js.startsWith "/" (cwd sampleEnv) = true
   /\ getField "oldPath" fields = Some (JStr "Documents")
   /\ getField "newName" fields = Some (JStr " Documents ")
   /\ "Documents" <> ""
   /\ Js.trim " Documents " <> ""
   /\ Js.testClass invalidChar (Js.trim " Documents ") = false
   /\ Fs.statEntry (Path.join [userFilesDirOf sampleEnv; "Documents"]) (root w)
      = Fs.Done (Fs.mkStats true 0 10 50)
   /\ Js.trim " Documents " = Path.basename (Path.join [userFilesDirOf sampleEnv; "Documents"]))
  /\ PATCH sampleEnv (Some (JObj fields)) w
     = (w, Ok (json (Failure "A file or folder with this name already exists") 409)).
Proof.
  cbv zeta.
  assert (H1 : Js.startsWith "/" (cwd sampleEnv) = true) by reflexivity.
  assert (H2 : getField "oldPath" [("oldPath", JStr "Documents"); ("newName", JStr " Documents ")]
               = Some (JStr "Documents")) by reflexivity.
  assert (H3 : getField "newName" [("oldPath", JStr "Documents"); ("newName", JStr " Documents ")]
               = Some (JStr " Documents ")) by reflexivity.
  assert (H4 : "Documents" <> "") by discriminate.
  assert (H5 : Js.trim " Documents " <> "") by (vm_compute; discriminate).
  assert (H6 : Js.testClass invalidChar (Js.trim " Documents ") = false) by reflexivity.
  assert (H7 : Fs.statEntry (Path.join [userFilesDirOf sampleEnv; "Documents"])
                 (root (sampleWorld sampleFiles))
               = Fs.Done (Fs.mkStats true 0 10 50)) by reflexivity.
  assert (H8 : Js.trim " Documents "
               = Path.basename (Path.join [userFilesDirOf sampleEnv; "Documents"]))
    by reflexivity.
  split; [repeat split; assumption|].
  exact (PATCH_same_name_conflict sampleEnv _ _ _ _ _ H1 H2 H3 H4 H5 H6 H7 H8).
Defined.

Lemma POST_on_file_conflicts_witness :
  let w := sampleWorld sampleFiles in
  let fields := [("name", JStr "report.PDF")] in
  let target := "/srv/app/public/user-files/report.PDF" in
  (getField "name" fields = Some (JStr "report.PDF")
   /\ "report.PDF" <> ""
   /\ createTarget sampleEnv (getField "folderPath" fields) "report.PDF" = Some target
   /\ Fs.statEntry target (root w) = Fs.Done (Fs.mkStats false 300 12 70)
   /\ Fs.isDirectory (Fs.mkStats false 300 12 70) = false)
  /\ exists w',
       initializeUserFilesDirectory sampleEnv (userFilesDirOf sampleEnv) w = (w', Ok tt)
       /\ POST sampleEnv (Some (JObj fields)) w
          = (w', Ok (json (Failure "Folder already exists") 409)).
Proof.
  cbv zeta.
  assert (H1 : getField "name" [("name", JStr "report.PDF")] = Some (JStr "report.PDF"))
    by reflexivity.
  assert (H2 : "report.PDF" <> "") by discriminate.
  assert (H3 : createTarget sampleEnv (getField "folderPath" [("name", JStr "report.PDF")])
                 "report.PDF"
               = Some "/srv/app/public/user-files/report.PDF") by reflexivity.
  assert (H4 : Fs.statEntry "/srv/app/public/user-files/report.PDF"
                 (root (sampleWorld sampleFiles))
               = Fs.Done (Fs.mkStats false 300 12 70)) by reflexivity.
  assert (H5 : Fs.isDirectory (Fs.mkStats false 300 12 70) = false) by reflexivity.
  split; [repeat split; assumption|].
  exact (POST_on_file_conflicts sampleEnv _ _ _ _ _ H1 H2 H3 H4 H5).
Defined.

(** ** The model against known answers *)

(** The examples of the documentation of Node's [path] module. *)
Example join_documented :
  Path.join ["/foo"; "bar"; "baz/asdf"; "quux"; ".."] = "/foo/bar/baz/asdf".
Proof. reflexivity. Qed.

Example normalize_documented :
  Path.normalize "/foo/bar//baz/asdf/quux/.." = "/foo/bar/baz/asdf".
Proof. reflexivity. Qed.

Example basename_documented :
  Path.basename "/foo/bar/baz/asdf/quux.html" = "quux.html".
Proof. reflexivity. Qed.

Example dirname_documented :
  Path.dirname "/foo/bar/baz/asdf/quux" = "/foo/bar/baz/asdf".
Proof. reflexivity. Qed.

Example dirname_corner_cases :
  map Path.dirname [""; "/"; "abc"; "/abc"; "a/b/"; "//x"; "a//b"]
  = ["."; "/"; "."; "/"; "a"; "//"; "a/"].
Proof. reflexivity. Qed.

Example replace_patterns :
  Js.replace "docs/doc" "doc" "x$&y$$" = "xdocy$s/doc".
Proof. reflexivity. Qed.

(** The end-to-end properties of the specification: an empty root is
    seeded with [Documents] and [Images]; a created folder shows in the
    next listing; a renamed folder is listed under its new name. *)
Example GET_seeds_empty_root :
  snd (GET sampleEnv 3 None emptyWorld)
  = Ok (json (Tree (FolderNode "root" "My Files"
                      [FolderNode "id-0" "Documents" [] 1000 1000;
                       FolderNode "id-1" "Images" [] 1000 1000]
                      1000 1000)) 200).
Proof. vm_compute. reflexivity. Qed.

Example POST_then_GET :
  let posted := POST sampleEnv (Some (JObj [("name", JStr "Notes")])) emptyWorld in
  snd posted
  = Ok (json (Created "Folder created successfully" (FolderNode "id-0" "Notes" [] 1000 1000))
          200)
  /\ snd (GET sampleEnv 3 None (fst posted))
     = Ok (json (Tree (FolderNode "root" "My Files"
                         [FolderNode "id-1" "Documents" [] 1000 1000;
                          FolderNode "id-2" "Images" [] 1000 1000;
                          FolderNode "id-3" "Notes" [] 1000 1000]
                         1000 1000)) 200).
Proof. split; vm_compute; reflexivity. Qed.

Example PATCH_then_GET :
  let posted := POST sampleEnv (Some (JObj [("name", JStr "Notes")])) emptyWorld in
  let patched :=
    PATCH sampleEnv (Some (JObj [("oldPath", JStr "Notes"); ("newName", JStr "Work")]))
      (fst posted) in
  snd patched = Ok (json (Renamed "Item renamed successfully" "Notes" "Work" "Work") 200)
  /\ snd (GET sampleEnv 3 None (fst patched))
     = Ok (json (Tree (FolderNode "root" "My Files"
                         [FolderNode "id-1" "Documents" [] 1000 1000;
                          FolderNode "id-2" "Images" [] 1000 1000;
                          FolderNode "id-3" "Work" [] 1000 1000]
                         1000 1000)) 200).
Proof. split; vm_compute; reflexivity. Qed.

(** A folder that cannot be listed and a folder with a dangling link both
    come back empty, inside an answer that is still a 200. *)
Example GET_partial_tree :
  GET sampleEnv 3 None (sampleWorld sampleFiles)
  = (mkWorld (hostTree sampleFiles) 1000 10,
     Ok (json (Tree (FolderNode "root" "My Files" sampleListing 1000 1000)) 200)).
Proof. vm_compute. reflexivity. Qed.

(* ================================================================== *)
(** * Part III: further properties of the handlers *)
(* ================================================================== *)

(** ** PATCH: what is refused before the filesystem is consulted *)

Lemma stat_Throw path w e :
  Fs.statEntry path (root w) = Fs.Fail e -> stat path w = (w, Throw (SystemError e)).
Proof. intros H. unfold stat, reading. now rewrite H. Qed.

Lemma trim_empty : Js.trim "" = "".
Proof. reflexivity. Qed.

Lemma testClass_nonempty cls s : Js.testClass cls s = true -> s <> "".
Proof. destruct s; [discriminate|discriminate]. Qed.

(** A body that lacks [oldPath] or [newName], or holds for either something
    that is no string or is the empty string, is answered 400 and nothing is
    touched. *)
Theorem PATCH_requires_fields env fields w :
  truthy (getField "oldPath" fields) && truthy (getField "newName" fields)
  && isString (getField "oldPath" fields) && isString (getField "newName" fields) = false ->
  PATCH env (Some (JObj fields)) w
  = (w, Ok (json (Failure "Old path and new name are required") 400)).
Proof.
  intros H. unfold PATCH. apply tryCatch_Ok.
  rewrite (bind_Ok _ _ w w (JObj fields)) by reflexivity.
  rewrite (bind_Ok _ _ w w (getField "oldPath" fields)) by reflexivity.
  rewrite (bind_Ok _ _ w w (getField "newName" fields)) by reflexivity.
  destruct (truthy (getField "oldPath" fields)), (truthy (getField "newName" fields)),
    (isString (getField "oldPath" fields)), (isString (getField "newName" fields));
    try discriminate; reflexivity.
Qed.

Lemma PATCH_requires_fields_witness :
  let fields := [("oldPath", JStr "Documents"); ("newName", JNum 7)] in
  (truthy (getField "oldPath" fields) && truthy (getField "newName" fields)
   && isString (getField "oldPath" fields) && isString (getField "newName" fields) = false)
  /\ PATCH sampleEnv (Some (JObj fields)) (sampleWorld sampleFiles)
     = (sampleWorld sampleFiles, Ok (json (Failure "Old path and new name are required") 400)).
Proof.
  cbv zeta.
  assert (H : truthy (getField "oldPath" [("oldPath", JStr "Documents"); ("newName", JNum 7)])
              && truthy (getField "newName" [("oldPath", JStr "Documents"); ("newName", JNum 7)])
              && isString (getField "oldPath" [("oldPath", JStr "Documents"); ("newName", JNum 7)])
              && isString (getField "newName" [("oldPath", JStr "Documents"); ("newName", JNum 7)])
              = false) by reflexivity.
  split; [exact H|].
  exact (PATCH_requires_fields sampleEnv _ (sampleWorld sampleFiles) H).
Defined.

(** A [newName] made of white space only is answered 400 "New name cannot
    be empty" and nothing is touched. *)
Theorem PATCH_blank_name env fields oldPath newName w :
  getField "oldPath" fields = Some (JStr oldPath) ->
  getField "newName" fields = Some (JStr newName) ->
  oldPath <> "" -> newName <> "" ->
  Js.trim newName = "" ->
  PATCH env (Some (JObj fields)) w = (w, Ok (json (Failure "New name cannot be empty") 400)).
Proof.
  intros Hold Hnew Ho Hn Ht.
  unfold PATCH. apply tryCatch_Ok.
  rewrite (bind_Ok _ _ w w (JObj fields)) by reflexivity.
  rewrite (bind_Ok _ _ w w (Some (JStr oldPath))) by (cbn; now rewrite Hold).
  rewrite (bind_Ok _ _ w w (Some (JStr newName))) by (cbn; now rewrite Hnew).
  cbn [truthy isString textOf negb orb].
  apply truthy_nonempty in Ho as ->. apply truthy_nonempty in Hn as ->.
  cbn [negb orb]. rewrite Ht. reflexivity.
Qed.

Lemma PATCH_blank_name_witness :
  let fields := [("oldPath", JStr "Documents"); ("newName", JStr "   ")] in
  (getField "oldPath" fields = Some (JStr "Documents")
   /\ getField "newName" fields = Some (JStr "   ")
   /\ "Documents" <> "" /\ "   " <> "" /\ Js.trim "   " = "")
  /\ PATCH sampleEnv (Some (JObj fields)) (sampleWorld sampleFiles)
     = (sampleWorld sampleFiles, Ok (json (Failure "New name cannot be empty") 400)).
Proof.
  cbv zeta.
  assert (H1 : getField "oldPath" [("oldPath", JStr "Documents"); ("newName", JStr "   ")]
               = Some (JStr "Documents")) by reflexivity.
  assert (H2 : getField "newName" [("oldPath", JStr "Documents"); ("newName", JStr "   ")]
               = Some (JStr "   ")) by reflexivity.
  assert (H3 : "Documents" <> "") by discriminate.
  assert (H4 : "   " <> "") by discriminate.
  assert (H5 : Js.trim "   " = "") by reflexivity.
  split; [repeat split; assumption|].
  exact (PATCH_blank_name sampleEnv _ _ _ (sampleWorld sampleFiles) H1 H2 H3 H4 H5).
Defined.

(** A [newName] that holds one of the forbidden characters after trimming
    is answered 400 "Name contains invalid characters", whatever [oldPath]
    names, and nothing is touched. *)
Theorem PATCH_forbidden_character env fields oldPath newName w :
  getField "oldPath" fields = Some (JStr oldPath) ->
  getField "newName" fields = Some (JStr newName) ->
  oldPath <> "" ->
  Js.testClass invalidChar (Js.trim newName) = true ->
  PATCH env (Some (JObj fields)) w
  = (w, Ok (json (Failure "Name contains invalid characters") 400)).
Proof.
  intros Hold Hnew Ho Hbad.
  pose proof (testClass_nonempty _ _ Hbad) as Ht.
  assert (Hn : newName <> "") by (intros ->; now apply Ht).
  unfold PATCH. apply tryCatch_Ok.
  rewrite (bind_Ok _ _ w w (JObj fields)) by reflexivity.
  rewrite (bind_Ok _ _ w w (Some (JStr oldPath))) by (cbn; now rewrite Hold).
  rewrite (bind_Ok _ _ w w (Some (JStr newName))) by (cbn; now rewrite Hnew).
  cbn [truthy isString textOf negb orb].
  apply truthy_nonempty in Ho as ->. apply truthy_nonempty in Hn as ->.
  apply truthy_nonempty in Ht as ->. cbn [negb orb]. rewrite Hbad. reflexivity.
Qed.

Lemma PATCH_forbidden_character_witness :
  let fields := [("oldPath", JStr "Documents"); ("newName", JStr "a/b")] in
  (getField "oldPath" fields = Some (JStr "Documents")
   /\ getField "newName" fields = Some (JStr "a/b")
   /\ "Documents" <> ""
   /\ Js.testClass invalidChar (Js.trim "a/b") = true)
  /\ PATCH sampleEnv (Some (JObj fields)) (sampleWorld sampleFiles)
     = (sampleWorld sampleFiles, Ok (json (Failure "Name contains invalid characters") 400)).
Proof.
  cbv zeta.
  assert (H1 : getField "oldPath" [("oldPath", JStr "Documents"); ("newName", JStr "a/b")]
               = Some (JStr "Documents")) by reflexivity.
  assert (H2 : getField "newName" [("oldPath", JStr "Documents"); ("newName", JStr "a/b")]
               = Some (JStr "a/b")) by reflexivity.
  assert (H3 : "Documents" <> "") by discriminate.
  assert (H4 : Js.testClass invalidChar (Js.trim "a/b") = true) by reflexivity.
  split; [repeat split; assumption|].
  exact (PATCH_forbidden_character sampleEnv _ _ _ (sampleWorld sampleFiles) H1 H2 H3 H4).
Defined.

(** ** PATCH: a missing source, a name that is taken *)

Ltac patch_validated fields oldPath newName w Hold Hnew Ho Ht Hvalid :=
  let Hn := fresh "Hn" in
  assert (Hn : newName <> "") by (intros ->; now apply Ht);
  unfold PATCH; apply tryCatch_Ok;
  rewrite (bind_Ok _ _ w w (JObj fields)) by reflexivity;
  rewrite (bind_Ok _ _ w w (Some (JStr oldPath))) by (cbn; now rewrite Hold);
  rewrite (bind_Ok _ _ w w (Some (JStr newName))) by (cbn; now rewrite Hnew);
  cbn [truthy isString textOf negb orb];
  rewrite (proj2 (truthy_nonempty oldPath) Ho), (proj2 (truthy_nonempty newName) Hn),
    (proj2 (truthy_nonempty (Js.trim newName)) Ht), Hvalid;
  cbn [negb orb].

(** When nothing can be examined at the old path, PATCH answers 404 and
    nothing is touched. *)
Theorem PATCH_missing_source env fields oldPath newName w e :
  getField "oldPath" fields = Some (JStr oldPath) ->
  getField "newName" fields = Some (JStr newName) ->
  oldPath <> "" -> Js.trim newName <> "" ->
  Js.testClass invalidChar (Js.trim newName) = false ->
  Fs.statEntry (Path.join [userFilesDirOf env; oldPath]) (root w) = Fs.Fail e ->
  PATCH env (Some (JObj fields)) w = (w, Ok (json (Failure "File or folder not found") 404)).
Proof.
  intros Hold Hnew Ho Ht Hvalid Hstat.
  patch_validated fields oldPath newName w Hold Hnew Ho Ht Hvalid.
  rewrite (bind_Ok _ _ w w (Some (json (Failure "File or folder not found") 404)));
    [reflexivity|].
  rewrite (tryCatch_Throw _ _ w w (SystemError e)); [reflexivity|].
  apply bind_Throw. now apply stat_Throw.
Qed.

Lemma PATCH_missing_source_witness :
  let fields := [("oldPath", JStr "Nowhere"); ("newName", JStr "Work")] in
  (getField "oldPath" fields = Some (JStr "Nowhere")
   /\ getField "newName" fields = Some (JStr "Work")
   /\ "Nowhere" <> "" /\ Js.trim "Work" <> ""
   /\ Js.testClass invalidChar (Js.trim "Work") = false
   /\ Fs.statEntry (Path.join [userFilesDirOf sampleEnv; "Nowhere"])
        (root (sampleWorld sampleFiles)) = Fs.Fail Fs.ENOENT)
  /\ PATCH sampleEnv (Some (JObj fields)) (sampleWorld sampleFiles)
     = (sampleWorld sampleFiles, Ok (json (Failure "File or folder not found") 404)).
Proof.
  cbv zeta.
  assert (H1 : getField "oldPath" [("oldPath", JStr "Nowhere"); ("newName", JStr "Work")]
               = Some (JStr "Nowhere")) by reflexivity.
  assert (H2 : getField "newName" [("oldPath", JStr "Nowhere"); ("newName", JStr "Work")]
               = Some (JStr "Work")) by reflexivity.
  assert (H3 : "Nowhere" <> "") by discriminate.
  assert (H4 : Js.trim "Work" <> "") by (vm_compute; discriminate).
  assert (H5 : Js.testClass invalidChar (Js.trim "Work") = false) by reflexivity.
  assert (H6 : Fs.statEntry (Path.join [userFilesDirOf sampleEnv; "Nowhere"])
                 (root (sampleWorld sampleFiles)) = Fs.Fail Fs.ENOENT) by reflexivity.
  split; [repeat split; assumption|].
  exact (PATCH_missing_source sampleEnv _ _ _ (sampleWorld sampleFiles) _ H1 H2 H3 H4 H5 H6).
Defined.

(** When the source exists and something can be examined at the new path
    (the directory of the old path joined with the new name), PATCH answers
    409 and nothing is touched: nothing is ever overwritten. *)
Theorem PATCH_name_taken env fields oldPath newName w st st' :
  getField "oldPath" fields = Some (JStr oldPath) ->
  getField "newName" fields = Some (JStr newName) ->
  oldPath <> "" -> Js.trim newName <> "" ->
  Js.testClass invalidChar (Js.trim newName) = false ->
  Fs.statEntry (Path.join [userFilesDirOf env; oldPath]) (root w) = Fs.Done st ->
  Fs.statEntry (Path.join [Path.dirname (Path.join [userFilesDirOf env; oldPath]);
                           Js.trim newName]) (root w) = Fs.Done st' ->
  PATCH env (Some (JObj fields)) w
  = (w, Ok (json (Failure "A file or folder with this name already exists") 409)).
Proof.
  intros Hold Hnew Ho Ht Hvalid Hstat Hstat'.
  patch_validated fields oldPath newName w Hold Hnew Ho Ht Hvalid.
  rewrite (bind_Ok _ _ w w None).
  2: { apply tryCatch_Ok. now rewrite (bind_Ok _ _ _ _ _ (stat_Done _ _ _ Hstat)). }
  rewrite (bind_Ok _ _ w w
             (Some (json (Failure "A file or folder with this name already exists") 409)));
    [reflexivity|].
  apply tryCatch_Ok. now rewrite (bind_Ok _ _ _ _ _ (stat_Done _ _ _ Hstat')).
Qed.

Lemma PATCH_name_taken_witness :
  let fields := [("oldPath", JStr "Documents/README"); ("newName", JStr "notes.txt")] in
  let w := sampleWorld sampleFiles in
  (getField "oldPath" fields = Some (JStr "Documents/README")
   /\ getField "newName" fields = Some (JStr "notes.txt")
   /\ "Documents/README" <> "" /\ Js.trim "notes.txt" <> ""
   /\ Js.testClass invalidChar (Js.trim "notes.txt") = false
   /\ Fs.statEntry (Path.join [userFilesDirOf sampleEnv; "Documents/README"]) (root w)
      = Fs.Done (Fs.mkStats false 12 5 40)
   /\ Fs.statEntry (Path.join [Path.dirname (Path.join [userFilesDirOf sampleEnv;
                                                         "Documents/README"]);
                               Js.trim "notes.txt"]) (root w)
      = Fs.Done (Fs.mkStats false 120 11 40))
  /\ PATCH sampleEnv (Some (JObj fields)) w
     = (w, Ok (json (Failure "A file or folder with this name already exists") 409)).
Proof.
  cbv zeta.
  assert (H1 : getField "oldPath" [("oldPath", JStr "Documents/README");
                                   ("newName", JStr "notes.txt")]
               = Some (JStr "Documents/README")) by reflexivity.
  assert (H2 : getField "newName" [("oldPath", JStr "Documents/README");
                                   ("newName", JStr "notes.txt")]
               = Some (JStr "notes.txt")) by reflexivity.
  assert (H3 : "Documents/README" <> "") by discriminate.
  assert (H4 : Js.trim "notes.txt" <> "") by (vm_compute; discriminate).
  assert (H5 : Js.testClass invalidChar (Js.trim "notes.txt") = false) by reflexivity.
  assert (H6 : Fs.statEntry (Path.join [userFilesDirOf sampleEnv; "Documents/README"])
                 (root (sampleWorld sampleFiles))
               = Fs.Done (Fs.mkStats false 12 5 40)) by reflexivity.
  assert (H7 : Fs.statEntry (Path.join [Path.dirname (Path.join [userFilesDirOf sampleEnv;
                                                                  "Documents/README"]);
                                        Js.trim "notes.txt"])
                 (root (sampleWorld sampleFiles))
               = Fs.Done (Fs.mkStats false 120 11 40)) by reflexivity.
  split; [repeat split; assumption|].
  exact (PATCH_name_taken sampleEnv _ _ _ (sampleWorld sampleFiles) _ _ H1 H2 H3 H4 H5 H6 H7).
Defined.

(** ** PATCH: what a 200 means *)

Lemma PATCH_200_inv env body w w' resp :
  PATCH env body w = (w', Ok resp) -> status resp = 200%Z ->
  exists fields st e,
    body = Some (JObj fields)
    /\ textOf (getField "oldPath" fields) <> ""
    /\ Js.trim (textOf (getField "newName" fields)) <> ""
    /\ Js.testClass invalidChar (Js.trim (textOf (getField "newName" fields))) = false
    /\ Fs.statEntry (fullOldPathOf env (textOf (getField "oldPath" fields))) (root w)
       = Fs.Done st
    /\ Fs.statEntry (fullNewPathOf env (textOf (getField "oldPath" fields))
                       (Js.trim (textOf (getField "newName" fields)))) (root w)
       = Fs.Fail e
    /\ Fs.renameEntry (clock w)
         (fullOldPathOf env (textOf (getField "oldPath" fields)))
         (fullNewPathOf env (textOf (getField "oldPath" fields))
            (Js.trim (textOf (getField "newName" fields))))
         (root w) = Fs.Done (root w')
    /\ resp = json (Renamed "Item renamed successfully"
                      (textOf (getField "oldPath" fields))
                      (Js.replace (textOf (getField "oldPath" fields))
                         (Path.basename (textOf (getField "oldPath" fields)))
                         (Js.trim (textOf (getField "newName" fields))))
                      (Js.trim (textOf (getField "newName" fields)))) 200.
Proof.
  unfold fullNewPathOf, fullOldPathOf.
  unfold PATCH, tryCatch, bind, reqJson, property, ret, throw, console, json,
    stat, rename, reading, writing.
  repeat (break_match; cbn in * ); try discriminate;
    repeat match goal with H : (_, _) = (_, _) |- _ => inversion H; clear H; subst end;
    intros H Hs; inversion H; subst; clear H; cbn in Hs; try discriminate.
  exists fields. eexists _, _. cbn [root].
  repeat match goal with
         | H : _ || _ = false |- _ => apply orb_false_iff in H as [H ?]
         | H : negb _ = false |- _ => apply negb_false_iff in H
         end.
  assert (Ho : textOf (getField "oldPath" fields) <> "").
  { destruct (getField "oldPath" fields) as [[]|]; try discriminate.
    cbn in *. now apply truthy_nonempty. }
  repeat split; try eassumption; try reflexivity.
  now apply truthy_nonempty.
Qed.

Lemma invalidChar_slash s :
  Js.testClass invalidChar s = false -> Js.includes "/" s = false.
Proof.
  unfold Js.includes. induction s as [|c s IH]; [reflexivity|]. cbn [Js.testClass].
  intros H. apply orb_false_iff in H as [Hc Hs]. rewrite (IH Hs), orb_false_r.
  destruct (Ascii.eqb "/" c) eqn:E; [|reflexivity].
  apply Ascii.eqb_eq in E. subst c. discriminate.
Qed.

Lemma name_cases s :
  s <> "" -> Js.includes "/" s = false -> validName s = true \/ s = "." \/ s = "..".
Proof.
  intros Hne Hs. unfold validName. rewrite Hs, (proj2 (truthy_nonempty s) Hne).
  destruct (s =? ".") eqn:E1; [apply String.eqb_eq in E1; auto|].
  destruct (s =? "..") eqn:E2; [apply String.eqb_eq in E2; auto|].
  now left.
Qed.

Lemma normalize_absRender p q :
  Js.startsWith "/" p = true -> Js.endsWith "/" p = false ->
  Path.normalizeSegments false (Js.split "/" p) = q ->
  Forall (fun s => validName s = true) q ->
  Path.normalize p = absRender q false.
Proof.
  intros Hs He Hq Hv. unfold Path.normalize, Path.normalizeString.
  rewrite Hs, He. cbn [negb]. rewrite Hq.
  assert (Hp : (p =? "") = false) by (destruct p; [discriminate|reflexivity]).
  rewrite Hp. destruct q as [|x q]; [reflexivity|].
  rewrite concat_valid_eqb by (assumption || discriminate).
  unfold absRender, render. now rewrite append_empty_r.
Qed.

Lemma fold_left_snoc {A B} (f : A -> B -> A) l x a :
  fold_left f (l ++ [x]) a = f (fold_left f l a) x.
Proof. now rewrite fold_left_app. Qed.

Lemma stack_of_absRender p :
  Forall (fun s => validName s = true) p ->
  fold_left (Path.pushSegment false) (Js.split "/" (absRender p false)) [] = rev p.
Proof.
  intros Hv. rewrite fold_push_filter.
  change (filter Js.truthy (Js.split "/" (absRender p false)))
    with (Fs.segments (absRender p false)).
  rewrite segments_absRender, fold_push_valid, app_nil_r by assumption. reflexivity.
Qed.

Lemma rev_tail_removelast {A} (l : list A) x below :
  rev l = x :: below -> rev below = removelast l.
Proof.
  intros H. apply (f_equal (@rev A)) in H. rewrite rev_involutive in H. cbn in H.
  subst l. now rewrite removelast_last.
Qed.

(** Joining [.] or [..] to a normalised directory stays in it or goes to
    its parent. *)
Lemma join_dot p :
  Forall (fun s => validName s = true) p ->
  Path.join [absRender p false; "."] = absRender p false.
Proof.
  intros Hv. unfold Path.join. cbn [filter].
  rewrite (proj2 (truthy_nonempty _) (absRender_nonempty p false Hv)). cbn [Js.truthy].
  change (String.concat "/" [absRender p false; "."])
    with (absRender p false ++ String "/" ".")%string.
  apply normalize_absRender; [| | |assumption].
  - rewrite startsWith_app by (now apply absRender_nonempty).
    now apply startsWith_absRender.
  - now rewrite endsWith_app by discriminate.
  - unfold Path.normalizeSegments. rewrite split_app.
    change (Js.split "/" ".") with ["."].
    rewrite fold_left_snoc, stack_of_absRender by assumption.
    cbn. apply rev_involutive.
Qed.

Lemma join_dotdot p :
  Forall (fun s => validName s = true) p ->
  Path.join [absRender p false; ".."] = absRender (removelast p) false.
Proof.
  intros Hv. unfold Path.join. cbn [filter].
  rewrite (proj2 (truthy_nonempty _) (absRender_nonempty p false Hv)). cbn [Js.truthy].
  change (String.concat "/" [absRender p false; ".."])
    with (absRender p false ++ String "/" "..")%string.
  apply normalize_absRender; [| | |now apply removelast_valid].
  - rewrite startsWith_app by (now apply absRender_nonempty).
    now apply startsWith_absRender.
  - now rewrite endsWith_app by discriminate.
  - unfold Path.normalizeSegments. rewrite split_app.
    change (Js.split "/" "..") with [".."].
    rewrite fold_left_snoc, stack_of_absRender by assumption.
    destruct (rev p) as [|top below] eqn:R.
    + apply (f_equal (@rev string)) in R. rewrite rev_involutive in R. now subst p.
    + assert (Ht : validName top = true).
      { apply Forall_rev in Hv. rewrite R in Hv. now inversion Hv. }
      unfold Path.pushSegment. cbn [String.eqb orb].
      assert (E : (top =? "..") = false).
      { destruct (top =? "..") eqn:E; [|reflexivity].
        apply String.eqb_eq in E. subst top. discriminate. }
      cbn. rewrite E. now apply rev_tail_removelast with top.
Qed.

Lemma lookup_prefix_dir q : forall r rest e,
  rest <> [] -> Fs.lookup (q ++ rest) r = Fs.Done e ->
  exists b m rd its, Fs.lookup q r = Fs.Done (Fs.Dir b m rd its).
Proof.
  intros r rest e Hrest H. rewrite lookup_app in H.
  destruct (Fs.lookup q r) as [d|]; [|discriminate]. cbn in H.
  destruct rest as [|x rest]; [congruence|].
  destruct d; cbn in H; try discriminate. eauto.
Qed.

Lemma statEntry_absRender_dir q r b m rd its :
  Forall (fun s => validName s = true) q ->
  Fs.lookup q r = Fs.Done (Fs.Dir b m rd its) ->
  Fs.statEntry (absRender q false) r = Fs.Done (Fs.mkStats true 0 b m).
Proof.
  intros Hv Hl. unfold Fs.statEntry, Fs.resolve.
  rewrite segments_absRender by assumption.
  pose proof (absRender_nonempty q false Hv) as Hne. apply String.eqb_neq in Hne.
  now rewrite Hne, Hl.
Qed.

Lemma statEntry_absRender l tr r st :
  Forall (fun s => validName s = true) l ->
  Fs.statEntry (absRender l tr) r = Fs.Done st ->
  exists e, Fs.lookup l r = Fs.Done e /\ e <> Fs.Dangling
            /\ (l = [] -> Fs.isDir e = true).
Proof.
  intros Hv H. destruct (statEntry_lookup _ _ _ H) as (e & He & _ & Hd).
  rewrite segments_absRender in He by assumption.
  exists e. repeat split; try assumption.
  intros ->. cbn in He. injection He as <-.
  unfold Fs.statEntry, Fs.resolve in H. cbn in H.
  destruct r; cbn in H; [discriminate|reflexivity|congruence].
Qed.

Lemma findItem_absent name items :
  existsb (String.eqb name) (map fst items) = false -> Fs.findItem name items = None.
Proof.
  induction items as [|[n x] items IH]; [reflexivity|]. cbn.
  intros H. apply orb_false_iff in H as [H1 H2].
  rewrite String.eqb_sym, H1. now apply IH.
Qed.

Lemma findItem_removeItem_same name items :
  namesOnce (map fst items) = true -> Fs.findItem name (Fs.removeItem name items) = None.
Proof.
  induction items as [|[n x] items IH]; [reflexivity|]. cbn.
  intros H. apply andb_prop in H as [H1 H2]. apply negb_true_iff in H1.
  destruct (n =? name) eqn:E.
  - apply String.eqb_eq in E. subst n. now apply findItem_absent.
  - cbn. rewrite E. now apply IH.
Qed.

Lemma uniqueTree_Dir b m rd items :
  uniqueTree (Fs.Dir b m rd items) = true <->
  namesOnce (map fst items) = true /\ Forall (fun it => uniqueTree (snd it) = true) items.
Proof.
  cbn [uniqueTree]. rewrite andb_true_iff.
  assert (H : (fix all (l : list (string * Fs.Entry)) : bool :=
                 match l with
                 | [] => true
                 | (_, c) :: t => uniqueTree c && all t
                 end) items = true
              <-> Forall (fun it => uniqueTree (snd it) = true) items).
  { induction items as [|[n c] items IH]; [split; [constructor|reflexivity]|].
    rewrite andb_true_iff, IH. split.
    - intros [H1 H2]. now constructor.
    - intros H. inversion H; subst. tauto. }
  now rewrite H.
Qed.

Lemma snoc_not_nil {A} (l : list A) x : l ++ [x] <> [].
Proof. destruct l; discriminate. Qed.

(** Unlinking [a] in a directory and linking the entry as [b] in the same
    directory: it is found as [b], and no longer as [a]. *)
Lemma rename_sibling now a b src :
  a <> b ->
  forall p r r1 r',
    Fs.lookup (p ++ [a]) r = Fs.Done src ->
    Fs.removeAt now (p ++ [a]) r = Fs.Done r1 ->
    Fs.insertAt now (p ++ [b]) src r1 = Fs.Done r' ->
    Fs.lookup (p ++ [b]) r' = Fs.Done src
    /\ (uniqueTree r = true -> Fs.lookup (p ++ [a]) r' = Fs.Fail Fs.ENOENT).
Proof.
  intros Hab. apply String.eqb_neq in Hab.
  induction p as [|s p IH]; intros r r1 r' Hl Hrm Hin.
  - cbn in Hl, Hrm. destruct r as [|b0 m0 rd items|]; try discriminate.
    destruct (Fs.findItem a items) as [x|] eqn:F; [|discriminate].
    injection Hl as ->. injection Hrm as <-. cbn in Hin. injection Hin as <-.
    cbn. rewrite !findItem_setItem, String.eqb_refl. split; [reflexivity|].
    intros Hu. apply (proj1 (uniqueTree_Dir b0 m0 rd items)) in Hu as [Hu _].
    rewrite String.eqb_sym, Hab, findItem_removeItem_same by assumption. reflexivity.
  - cbn [app Fs.lookup] in Hl. cbn [app Fs.removeAt] in Hrm.
    destruct r as [|b0 m0 rd items|]; try discriminate.
    destruct (Fs.findItem s items) as [child|] eqn:F; [|discriminate].
    destruct (p ++ [a]) as [|y ys] eqn:E; [now apply snoc_not_nil in E|].
    rewrite <- E in *.
    destruct (Fs.removeAt now (p ++ [a]) child) as [child1|] eqn:Hc; [|discriminate].
    cbn in Hrm. injection Hrm as <-.
    cbn [app Fs.insertAt] in Hin.
    destruct (p ++ [b]) as [|z zs] eqn:E'; [now apply snoc_not_nil in E'|].
    rewrite <- E' in *.
    rewrite findItem_setItem, String.eqb_refl in Hin.
    destruct (Fs.insertAt now (p ++ [b]) src child1) as [child'|] eqn:Hi; [|discriminate].
    cbn in Hin. injection Hin as <-.
    destruct (IH _ _ _ Hl Hc Hi) as [H1 H2].
    cbn [app Fs.lookup]. rewrite !findItem_setItem, String.eqb_refl.
    split; [rewrite E'; rewrite <- E'; exact H1|].
    intros Hu. apply (proj1 (uniqueTree_Dir b0 m0 rd items)) in Hu as [_ Hu].
    apply findItem_In in F. rewrite Forall_forall in Hu. specialize (Hu _ F).
    rewrite E. rewrite <- E. now apply H2.
Qed.

Lemma isPrefix_refl l : Fs.isPrefix l l = true.
Proof. induction l as [|x l IH]; [reflexivity|]. cbn. now rewrite String.eqb_refl. Qed.

Lemma isPrefix_snoc p a b : Fs.isPrefix (p ++ [a]) (p ++ [b]) = (a =? b).
Proof.
  induction p as [|x p IH]; cbn; [now rewrite andb_true_r|].
  now rewrite String.eqb_refl.
Qed.

Lemma renameEntry_sibling now p a b tr r r' :
  Forall (fun s => validName s = true) (p ++ [a]) ->
  Forall (fun s => validName s = true) (p ++ [b]) ->
  a <> b ->
  Fs.renameEntry now (render true (p ++ [a]) tr) (render true (p ++ [b]) false) r
  = Fs.Done r' ->
  exists src r1,
    Fs.lookup (p ++ [a]) r = Fs.Done src
    /\ Fs.removeAt now (p ++ [a]) r = Fs.Done r1
    /\ Fs.insertAt now (p ++ [b]) src r1 = Fs.Done r'.
Proof.
  intros Ha Hb Hab H. unfold Fs.renameEntry in H.
  pose proof (render_nonempty true _ tr (snoc_not_nil p a) Ha) as N1.
  pose proof (render_nonempty true _ false (snoc_not_nil p b) Hb) as N2.
  apply String.eqb_neq in N1, N2. rewrite N1, N2 in H. cbn [orb] in H.
  rewrite !segments_render in H by (assumption || apply snoc_not_nil).
  destruct (p ++ [a]) as [|x xs] eqn:E; [now apply snoc_not_nil in E|].
  destruct (p ++ [b]) as [|y ys] eqn:E'; [now apply snoc_not_nil in E'|].
  rewrite <- E, <- E' in *.
  destruct (Fs.lookup (p ++ [a]) r) as [src|] eqn:Hl; [|discriminate].
  cbn [Fs.andThen] in H.
  match type of H with
  | (if ?c then _ else _) = _ => destruct c; [discriminate|]
  end.
  unfold Fs.segments_eqb in H. rewrite !isPrefix_snoc in H.
  apply String.eqb_neq in Hab. rewrite Hab in H. cbn [andb] in H.
  match type of H with
  | Fs.andThen ?c _ = _ => destruct c; [|discriminate]
  end.
  cbn [Fs.andThen] in H.
  destruct (Fs.removeAt now (p ++ [a]) r) as [r1|] eqn:Hr; [|discriminate].
  cbn [Fs.andThen] in H. eauto.
Qed.

Lemma userFilesDirOf_absolute env :
  Js.startsWith "/" (cwd env) = true -> Js.startsWith "/" (userFilesDirOf env) = true.
Proof.
  intros Hcwd.
  destruct (join_absolute (cwd env) ["public"; "user-files"] Hcwd) as (l & tr & Hv & E).
  unfold userFilesDirOf. rewrite E. now apply startsWith_absRender.
Qed.

Lemma absRender_snoc p a tr : absRender (p ++ [a]) tr = render true (p ++ [a]) tr.
Proof. unfold absRender. destruct (p ++ [a]) eqn:E; [now apply snoc_not_nil in E|reflexivity]. Qed.

Lemma dirname_absRender l tr :
  Forall (fun s => validName s = true) l ->
  Path.dirname (absRender l tr) = absRender (removelast l) false.
Proof.
  intros Hv. destruct l as [|x l]; [reflexivity|].
  apply dirname_render; [discriminate|assumption].
Qed.

Lemma removelast_prefix {A} (l : list A) : exists rest, l = removelast l ++ rest.
Proof.
  destruct l as [|x l]; [now exists []|].
  exists [last (x :: l) x]. apply app_removelast_last. discriminate.
Qed.

(** Whatever can be examined has ancestors that can be examined. *)
Lemma stat_ancestor l tr r st q rest :
  Forall (fun s => validName s = true) l ->
  Fs.statEntry (absRender l tr) r = Fs.Done st ->
  l = q ++ rest ->
  exists st', Fs.statEntry (absRender q false) r = Fs.Done st'.
Proof.
  intros Hv Hst ->. destruct rest as [|x rest].
  - rewrite app_nil_r in *. destruct q as [|y q]; [eauto|].
    exists st. unfold absRender in *.
    eapply statEntry_render; [discriminate|assumption|exact Hst].
  - destruct (statEntry_lookup _ _ _ Hst) as (e & He & _).
    rewrite segments_absRender in He by assumption.
    apply lookup_prefix_dir in He as (b & m & rd & its & Hq); [|discriminate].
    apply Forall_app in Hv as [Hq' _].
    eexists. eapply statEntry_absRender_dir; eassumption.
Qed.

Lemma statEntry_render_lookup l tr r :
  l <> [] -> Forall (fun s => validName s = true) l ->
  Fs.statEntry (render true l tr) r
  = Fs.andThen (Fs.lookup l r) (fun e =>
      match e with
      | Fs.File sz b m => if tr then Fs.Fail Fs.ENOTDIR else Fs.Done (Fs.mkStats false sz b m)
      | Fs.Dir b m _ _ => Fs.Done (Fs.mkStats true 0 b m)
      | Fs.Dangling => Fs.Fail Fs.ENOENT
      end).
Proof.
  intros Hne Hv. unfold Fs.statEntry, Fs.resolve.
  rewrite segments_render, endsWith_render by assumption.
  pose proof (render_nonempty true l tr Hne Hv) as N. apply String.eqb_neq in N.
  rewrite N. destruct (Fs.lookup l r) as [e|]; [|reflexivity].
  destruct e, tr; reflexivity.
Qed.

Lemma renameEntry_root now newPath r r' :
  Fs.renameEntry now "/" newPath r = Fs.Done r' -> False.
Proof.
  unfold Fs.renameEntry. change (Fs.segments "/") with (@nil string).
  change ("/" =? "") with false. cbn [orb].
  destruct (newPath =? ""); [discriminate|].
  destruct (Fs.segments newPath); discriminate.
Qed.

Lemma textOf_nonempty v : textOf v <> "" -> v = Some (JStr (textOf v)).
Proof. destruct v as [[]|]; cbn; congruence. Qed.

(** Whenever PATCH answers 200, the entry the request names has moved.
    The body is an object whose [oldPath] and [newName] are strings; the
    answer repeats that [oldPath] and gives that [newName], trimmed.  The
    entry found at [join(userFilesDir, oldPath)] before the request, with
    all it holds, is the entry found afterwards at the new full path, the
    join of the directory of the old full path and the trimmed name;
    nothing could be examined at the new full path before, and nothing is
    left at the old one. *)
Theorem PATCH_moves_entry env body w w' resp :
  Js.startsWith "/" (cwd env) = true ->
  uniqueTree (root w) = true ->
  PATCH env body w = (w', Ok resp) ->
  status resp = 200%Z ->
  exists fields oldPath newName src st,
    body = Some (JObj fields)
    /\ getField "oldPath" fields = Some (JStr oldPath)
    /\ getField "newName" fields = Some (JStr newName)
    /\ payload resp = Renamed "Item renamed successfully" oldPath
                        (Js.replace oldPath (Path.basename oldPath) (Js.trim newName))
                        (Js.trim newName)
    /\ Fs.lookup (Fs.segments (fullOldPathOf env oldPath)) (root w) = Fs.Done src
    /\ Fs.statEntry (fullOldPathOf env oldPath) (root w) = Fs.Done st
    /\ (exists e,
          Fs.statEntry (fullNewPathOf env oldPath (Js.trim newName)) (root w) = Fs.Fail e)
    /\ Fs.lookup (Fs.segments (fullNewPathOf env oldPath (Js.trim newName))) (root w')
       = Fs.Done src
    /\ Fs.statEntry (fullNewPathOf env oldPath (Js.trim newName)) (root w') = Fs.Done st
    /\ Fs.statEntry (fullOldPathOf env oldPath) (root w') = Fs.Fail Fs.ENOENT
    /\ Path.dirname (fullNewPathOf env oldPath (Js.trim newName))
       = Path.dirname (fullOldPathOf env oldPath).
Proof.
  intros Hcwd Hu H Hs.
  destruct (PATCH_200_inv _ _ _ _ _ H Hs)
    as (fields & st & e & -> & Ho & Ht & Hvalid & Hold & Hnew & Hren & ->).
  assert (Hnn : textOf (getField "newName" fields) <> "").
  { intros E. rewrite E in Ht. now apply Ht. }
  pose proof (textOf_nonempty _ Ho) as Eold.
  pose proof (textOf_nonempty _ Hnn) as Enew.
  set (oldPath := textOf (getField "oldPath" fields)) in *.
  set (newName := textOf (getField "newName" fields)) in *.
  set (nm := Js.trim newName) in *.
  unfold fullNewPathOf, fullOldPathOf in *.
  destruct (join_absolute (userFilesDirOf env) [oldPath] (userFilesDirOf_absolute _ Hcwd))
    as (l & tr & Hv & E).
  rewrite E in *. rewrite dirname_absRender in * by assumption.
  pose proof (removelast_valid _ Hv) as Hv'.
  destruct (name_cases nm Ht (invalidChar_slash _ Hvalid)) as [Hn|[Hn|Hn]].
  2: { exfalso. rewrite Hn, join_dot in Hnew by assumption.
       destruct (removelast_prefix l) as [rest Hl].
       destruct (stat_ancestor _ _ _ _ _ _ Hv Hold Hl). congruence. }
  2: { exfalso. rewrite Hn, join_dotdot in Hnew by assumption.
       destruct (removelast_prefix l) as [rest Hl].
       destruct (removelast_prefix (removelast l)) as [rest' Hl'].
       assert (Hl2 : l = removelast (removelast l) ++ (rest' ++ rest))
         by (rewrite app_assoc, <- Hl', <- Hl; reflexivity).
       destruct (stat_ancestor _ _ _ _ _ _ Hv Hold Hl2). congruence. }
  rewrite join_child in *
    by (try apply absRender_nonempty; try rewrite segments_absRender; assumption).
  rewrite startsWith_absRender, segments_absRender in * by assumption.
  destruct l as [|x l'] using rev_ind.
  { exfalso. cbn [absRender] in Hren. now apply renameEntry_root in Hren. }
  clear IHl'. rename l' into p, x into a.
  rewrite removelast_last in *. rewrite absRender_snoc in *.
  assert (Hvn : Forall (fun s => validName s = true) (p ++ [nm])).
  { apply Forall_app. split; [assumption|now constructor]. }
  destruct (String.eqb_spec a nm) as [->|Hab].
  { exfalso. apply (statEntry_render _ tr) in Hold; [congruence|apply snoc_not_nil|assumption]. }
  destruct (renameEntry_sibling _ _ _ _ _ _ _ Hv Hvn Hab Hren) as (src & r1 & Hl & Hrm & Hin).
  destruct (rename_sibling _ _ _ _ Hab _ _ _ _ Hl Hrm Hin) as [H1 H2].
  exists fields, oldPath, newName, src, st. change (Js.trim newName) with nm.
  unfold fullNewPathOf, fullOldPathOf. rewrite E.
  rewrite (dirname_render (p ++ [a]) tr) by (assumption || apply snoc_not_nil).
  rewrite removelast_last.
  rewrite join_child
    by (try apply absRender_nonempty; try rewrite segments_absRender; assumption).
  rewrite startsWith_absRender, segments_absRender by assumption.
  rewrite !segments_render by (assumption || apply snoc_not_nil).
  rewrite !statEntry_render_lookup in * by (assumption || apply snoc_not_nil).
  rewrite Hl in Hold. rewrite Hl, H1, (H2 Hu). cbn [Fs.andThen] in *.
  split; [reflexivity|]. split; [exact Eold|]. split; [exact Enew|].
  split; [reflexivity|]. split; [reflexivity|]. split; [exact Hold|].
  split; [eauto|]. split; [reflexivity|].
  split; [destruct src, tr; cbn in *; congruence|].
  split; [reflexivity|].
  rewrite dirname_render, removelast_last by (assumption || apply snoc_not_nil).
  reflexivity.
Qed.

Lemma PATCH_moves_entry_witness :
  let w := sampleWorld sampleFiles in
  let body := Some (JObj [("oldPath", JStr "Documents/README"); ("newName", JStr " README.md ")]) in
  let w' := fst (PATCH sampleEnv body w) in
  let resp := json (Renamed "Item renamed successfully" "Documents/README"
                      "Documents/README.md" "README.md") 200 in
  (Js.startsWith "/" (cwd sampleEnv) = true
   /\ uniqueTree (root w) = true
   /\ PATCH sampleEnv body w = (w', Ok resp)
   /\ status resp = 200%Z)
  /\ exists fields oldPath newName src st,
       body = Some (JObj fields)
       /\ getField "oldPath" fields = Some (JStr oldPath)
       /\ getField "newName" fields = Some (JStr newName)
       /\ payload resp = Renamed "Item renamed successfully" oldPath
                           (Js.replace oldPath (Path.basename oldPath) (Js.trim newName))
                           (Js.trim newName)
       /\ Fs.lookup (Fs.segments (fullOldPathOf sampleEnv oldPath)) (root w) = Fs.Done src
       /\ Fs.statEntry (fullOldPathOf sampleEnv oldPath) (root w) = Fs.Done st
       /\ (exists e,
             Fs.statEntry (fullNewPathOf sampleEnv oldPath (Js.trim newName)) (root w)
             = Fs.Fail e)
       /\ Fs.lookup (Fs.segments (fullNewPathOf sampleEnv oldPath (Js.trim newName)))
            (root w') = Fs.Done src
       /\ Fs.statEntry (fullNewPathOf sampleEnv oldPath (Js.trim newName)) (root w')
          = Fs.Done st
       /\ Fs.statEntry (fullOldPathOf sampleEnv oldPath) (root w') = Fs.Fail Fs.ENOENT
       /\ Path.dirname (fullNewPathOf sampleEnv oldPath (Js.trim newName))
          = Path.dirname (fullOldPathOf sampleEnv oldPath).
Proof.
  cbv zeta.
  assert (H1 : Js.startsWith "/" (cwd sampleEnv) = true) by reflexivity.
  assert (H2 : uniqueTree (root (sampleWorld sampleFiles)) = true) by reflexivity.
  assert (H3 : PATCH sampleEnv
                 (Some (JObj [("oldPath", JStr "Documents/README");
                              ("newName", JStr " README.md ")]))
                 (sampleWorld sampleFiles)
               = (fst (PATCH sampleEnv
                         (Some (JObj [("oldPath", JStr "Documents/README");
                                      ("newName", JStr " README.md ")]))
                         (sampleWorld sampleFiles)),
                  Ok (json (Renamed "Item renamed successfully" "Documents/README"
                              "Documents/README.md" "README.md") 200)))
    by (vm_compute; reflexivity).
  assert (H4 : status (json (Renamed "Item renamed successfully" "Documents/README"
                               "Documents/README.md" "README.md") 200) = 200%Z)
    by reflexivity.
  split; [repeat split; assumption|].
  exact (PATCH_moves_entry sampleEnv _ _ _ _ H1 H2 H3 H4).
Defined.

(** ** PATCH: when the reported path is the path *)

Lemma getSubstitution_plain matched before after repl :
  Js.includes "$" repl = false ->
  Js.getSubstitution matched before after repl = repl.
Proof.
  unfold Js.includes. induction repl as [|c repl IH]; [reflexivity|].
  cbn [Js.testClass]. intros H. apply orb_false_iff in H as [Hc Hr].
  specialize (IH Hr).
  destruct c as [[] [] [] [] [] [] [] []]; try discriminate Hc;
    cbn [Js.getSubstitution]; now rewrite IH.
Qed.

Lemma prefix_refl s : String.prefix s s = true.
Proof.
  induction s as [|c s IH]; [reflexivity|]. cbn.
  destruct (ascii_dec c c); [assumption|congruence].
Qed.

Lemma substring_end s : substring (String.length s) 0 s = "".
Proof. induction s as [|c s IH]; [reflexivity|exact IH]. Qed.

Lemma breakAt_self s : s <> "" -> Js.breakAt s s = Some ("", "").
Proof.
  intros Hs. destruct s as [|c s]; [congruence|].
  unfold Js.breakAt; fold Js.breakAt. rewrite prefix_refl, Nat.sub_diag.
  now rewrite substring_end.
Qed.

(** A text without slash that starts [x/y] starts [x]. *)
Lemma prefix_before_slash pat : forall x y,
  Js.includes "/" pat = false ->
  String.prefix pat (x ++ String "/" y) = true -> String.prefix pat x = true.
Proof.
  unfold Js.includes. induction pat as [|c pat IH]; intros x y Hp H.
  - now destruct x.
  - cbn [Js.testClass] in Hp. apply orb_false_iff in Hp as [Hc Hp].
    destruct x as [|d x]; cbn in H |- *.
    + destruct (ascii_dec c "/") as [->|]; [discriminate Hc|discriminate H].
    + destruct (ascii_dec c d); [|discriminate]. eapply IH; eassumption.
Qed.

Lemma breakAt_None_inv pat c s :
  Js.breakAt pat (String c s) = None ->
  String.prefix pat (String c s) = false /\ Js.breakAt pat s = None.
Proof.
  unfold Js.breakAt; fold Js.breakAt.
  destruct (String.prefix pat (String c s)); [discriminate|].
  destruct (Js.breakAt pat s) as [[? ?]|]; [discriminate|auto].
Qed.

(** The first occurrence of a name that does not occur in [dir] is the one
    after the last slash of [dir/name]. *)
Lemma breakAt_last_segment base : forall dir,
  base <> "" -> Js.includes "/" base = false ->
  Js.breakAt base dir = None ->
  Js.breakAt base (dir ++ String "/" base) = Some ((dir ++ "/")%string, "").
Proof.
  intros dir Hne Hb. induction dir as [|d dir IH]; intros Hnone.
  - cbn [append]. unfold Js.breakAt; fold Js.breakAt.
    destruct (String.prefix base (String "/" base)) eqn:E.
    + apply (prefix_before_slash base "" base Hb) in E. destruct base; [congruence|discriminate].
    + now rewrite breakAt_self.
  - apply breakAt_None_inv in Hnone as [Hp Hnone]. specialize (IH Hnone).
    cbn [append]. unfold Js.breakAt; fold Js.breakAt.
    destruct (String.prefix base (String d (dir ++ String "/" base))) eqn:E.
    + apply (prefix_before_slash base (String d dir) base Hb) in E. congruence.
    + now rewrite IH.
Qed.

Lemma last_snoc {A} (l : list A) x d : last (l ++ [x]) d = x.
Proof. apply last_last. Qed.

Lemma basename_last_segment dir base :
  base <> "" -> Js.includes "/" base = false ->
  Path.basename (dir ++ String "/" base) = base.
Proof.
  intros Hne Hb. unfold Path.basename.
  rewrite split_app, (split_excludes _ _ Hb), filter_app. cbn [filter].
  rewrite (proj2 (truthy_nonempty base) Hne). apply last_snoc.
Qed.

Lemma basename_single base :
  base <> "" -> Js.includes "/" base = false -> Path.basename base = base.
Proof.
  intros Hne Hb. unfold Path.basename.
  rewrite (split_excludes _ _ Hb). cbn [filter].
  now rewrite (proj2 (truthy_nonempty base) Hne).
Qed.

(** The path PATCH reports, [oldPath.replace(basename(oldPath), newName)],
    is the old path with its final segment replaced when the name of that
    segment occurs nowhere before it and the new name holds no dollar
    sign. *)
Theorem newPath_replaces_final_segment base newName :
  base <> "" -> Js.includes "/" base = false -> Js.includes "$" newName = false ->
  Js.replace base (Path.basename base) newName = newName
  /\ forall dir,
       Js.breakAt base dir = None ->
       Js.replace (dir ++ String "/" base) (Path.basename (dir ++ String "/" base)) newName
       = (dir ++ String "/" newName)%string.
Proof.
  intros Hne Hb Hd. split.
  - rewrite basename_single by assumption. unfold Js.replace.
    rewrite breakAt_self by assumption. cbn [append].
    now rewrite getSubstitution_plain, append_empty_r.
  - intros dir Hnone. rewrite basename_last_segment by assumption. unfold Js.replace.
    rewrite breakAt_last_segment by assumption.
    rewrite getSubstitution_plain, append_empty_r by assumption.
    now rewrite <- append_assoc.
Qed.

Lemma newPath_replaces_final_segment_witness :
  ("README" <> "" /\ Js.includes "/" "README" = false
   /\ Js.includes "$" "README.md" = false)
  /\ (Js.replace "README" (Path.basename "README") "README.md" = "README.md"
      /\ forall dir,
           Js.breakAt "README" dir = None ->
           Js.replace (dir ++ String "/" "README")
             (Path.basename (dir ++ String "/" "README")) "README.md"
           = (dir ++ String "/" "README.md")%string).
Proof.
  assert (H1 : "README" <> "") by discriminate.
  assert (H2 : Js.includes "/" "README" = false) by reflexivity.
  assert (H3 : Js.includes "$" "README.md" = false) by reflexivity.
  split; [repeat split; assumption|].
  exact (newPath_replaces_final_segment "README" "README.md" H1 H2 H3).
Defined.

(** ** POST: what a 200 means, and what else it answers *)

Lemma POST_200_inv env body w w' resp :
  POST env body w = (w', Ok resp) -> status resp = 200%Z ->
  exists fields w1 target,
    body = Some (JObj fields)
    /\ textOf (getField "name" fields) <> ""
    /\ initializeUserFilesDirectory env (userFilesDirOf env) w = (w1, Ok tt)
    /\ createTarget env (getField "folderPath" fields) (textOf (getField "name" fields))
       = Some target
    /\ Fs.mkdirEntry (refuses env) (clock w1) target (root w1) = Fs.Done (root w')
    /\ resp = json (Created "Folder created successfully"
                      (FolderNode (idText env (nextId w1))
                         (Js.trim (textOf (getField "name" fields))) []
                         (clock w1) (clock w1))) 200.
Proof.
  unfold POST, tryCatch, bind, reqJson, property, ret, throw, console, json,
    stat, mkdir, reading, writing, generateId, newDate, joinValues.
  repeat (break_match; cbn in * ); try discriminate;
    repeat match goal with H : (_, _) = (_, _) |- _ => inversion H; clear H; subst end;
    intros H Hs; inversion H; subst; clear H; cbn in Hs; try discriminate.
  all: match goal with
       | H : initializeUserFilesDirectory _ _ _ = (_, Ok ?a) |- _ => destruct a
       end.
  all: match goal with
       | H : _ || _ = false |- _ => apply orb_false_iff in H as [Ht Hi];
                                     apply negb_false_iff in Ht, Hi
       end.
  all: assert (Hn : textOf (getField "name" fields) <> "")
         by (destruct (getField "name" fields) as [[]|]; try discriminate;
             cbn in *; now apply truthy_nonempty).
  all: exists fields; eexists _, _; cbn [root clock nextId].
  all: (split; [reflexivity|]); (split; [exact Hn|]); (split; [reflexivity|]).
  all: unfold createTarget.
  all: repeat match goal with
              | H : getField "folderPath" _ = _ |- _ => rewrite H; cbn [truthy stringsOf]
              | H : Js.truthy _ = true |- _ => rewrite H
              | H : truthy _ = false |- _ => rewrite H
              end.
  all: split; [reflexivity|]; split; [eassumption|reflexivity].
Qed.

Lemma initialize_clock env dir w w' o :
  initializeUserFilesDirectory env dir w = (w', o) ->
  o = Ok tt /\ clock w' = clock w /\ nextId w' = nextId w.
Proof.
  intros H. destruct (initialize_cases env dir w) as (w1 & E & Hcases).
  rewrite E in H. injection H as <- <-. cbv zeta in Hcases.
  repeat match goal with
         | H : _ \/ _ |- _ => destruct H
         | H : exists _, _ |- _ => destruct H
         | H : _ /\ _ |- _ => destruct H
         end; subst; repeat split.
Qed.

Lemma statEntry_of_dir target r b m rd its :
  target <> "" -> Fs.lookup (Fs.segments target) r = Fs.Done (Fs.Dir b m rd its) ->
  Fs.statEntry target r = Fs.Done (Fs.mkStats true 0 b m).
Proof.
  intros Hne Hl. unfold Fs.statEntry, Fs.resolve.
  apply String.eqb_neq in Hne. now rewrite Hne, Hl.
Qed.

(** Whenever POST answers 200 the folder is there: the target and every
    prefix of its path are directories afterwards.  The answer is a folder
    node without children that carries the trimmed name and the time of the
    request. *)
Theorem POST_creates_folder env body w w' resp :
  POST env body w = (w', Ok resp) ->
  status resp = 200%Z ->
  exists fields nameText target id st,
    body = Some (JObj fields)
    /\ getField "name" fields = Some (JStr nameText)
    /\ createTarget env (getField "folderPath" fields) nameText = Some target
    /\ payload resp = Created "Folder created successfully"
                        (FolderNode id (Js.trim nameText) [] (clock w) (clock w))
    /\ Fs.statEntry target (root w') = Fs.Done st
    /\ Fs.isDirectory st = true
    /\ forall k, directoryAt (firstn k (Fs.segments target)) (root w').
Proof.
  intros H Hs.
  destruct (POST_200_inv _ _ _ _ _ H Hs) as (fields & w1 & target & -> & Hn & Hinit & Ht & Hmk & ->).
  destruct (initialize_clock _ _ _ _ _ Hinit) as (_ & Hc & _).
  apply mkdirEntry_Done in Hmk as [Hne Hmk].
  destruct (mkdirp_dirs _ _ _ _ _ (List.length (Fs.segments target)) Hmk) as (d & Hd & Hdir).
  rewrite firstn_all in Hd. destruct d as [|b m rd its|]; try discriminate.
  destruct (getField "name" fields) as [[| | |nameText| |]|] eqn:E; try (now contradiction Hn).
  cbn [textOf] in *.
  exists fields, nameText, target. eexists _, _.
  split; [reflexivity|]. split; [exact E|]. split; [exact Ht|].
  split; [cbn; now rewrite Hc|].
  split; [now apply (statEntry_of_dir _ _ _ _ _ _ Hne Hd)|].
  split; [reflexivity|].
  intros k. eapply mkdirp_dirs. exact Hmk.
Qed.

Lemma POST_creates_folder_witness :
  let w := sampleWorld sampleFiles in
  let body := Some (JObj [("folderPath", JStr "Documents/2024"); ("name", JStr " Taxes ")]) in
  let w' := fst (POST sampleEnv body w) in
  let resp := json (Created "Folder created successfully"
                      (FolderNode "id-0" "Taxes" [] 1000 1000)) 200 in
  (POST sampleEnv body w = (w', Ok resp) /\ status resp = 200%Z)
  /\ exists fields nameText target id st,
       body = Some (JObj fields)
       /\ getField "name" fields = Some (JStr nameText)
       /\ createTarget sampleEnv (getField "folderPath" fields) nameText = Some target
       /\ payload resp = Created "Folder created successfully"
                           (FolderNode id (Js.trim nameText) [] (clock w) (clock w))
       /\ Fs.statEntry target (root w') = Fs.Done st
       /\ Fs.isDirectory st = true
       /\ forall k, directoryAt (firstn k (Fs.segments target)) (root w').
Proof.
  cbv zeta.
  assert (H1 : POST sampleEnv
                 (Some (JObj [("folderPath", JStr "Documents/2024"); ("name", JStr " Taxes ")]))
                 (sampleWorld sampleFiles)
               = (fst (POST sampleEnv
                         (Some (JObj [("folderPath", JStr "Documents/2024");
                                      ("name", JStr " Taxes ")]))
                         (sampleWorld sampleFiles)),
                  Ok (json (Created "Folder created successfully"
                              (FolderNode "id-0" "Taxes" [] 1000 1000)) 200)))
    by (vm_compute; reflexivity).
  assert (H2 : status (json (Created "Folder created successfully"
                               (FolderNode "id-0" "Taxes" [] 1000 1000)) 200) = 200%Z)
    by reflexivity.
  split; [split; assumption|].
  exact (POST_creates_folder sampleEnv _ _ _ _ H1 H2).
Defined.

Lemma statEntry_dir target r st :
  Fs.statEntry target r = Fs.Done st -> Fs.isDirectory st = true ->
  target <> ""
  /\ exists b m rd its, Fs.lookup (Fs.segments target) r = Fs.Done (Fs.Dir b m rd its).
Proof.
  unfold Fs.statEntry, Fs.resolve.
  destruct (target =? "") eqn:E; [discriminate|]. apply String.eqb_neq in E.
  destruct (Fs.lookup (Fs.segments target) r) as [e|]; [|discriminate].
  destruct e; cbn; try discriminate.
  - destruct (Js.endsWith "/" target); cbn; [discriminate|]. intros [= <-]. discriminate.
  - intros _ _. split; [assumption|eauto].
Qed.

Lemma initialized_eq env w :
  initializeUserFilesDirectory env (userFilesDirOf env) w = (initialized env w, Ok tt).
Proof.
  unfold initialized. destruct (initialize_cases env (userFilesDirOf env) w) as (w1 & E & _).
  now rewrite E.
Qed.

Ltac post_named fields nameText w Hname Hne :=
  unfold POST; apply tryCatch_Ok;
  rewrite (bind_Ok _ _ w w (JObj fields)) by reflexivity;
  rewrite (bind_Ok _ _ w w (getField "folderPath" fields)) by reflexivity;
  rewrite (bind_Ok _ _ w w (Some (JStr nameText))) by (cbn; now rewrite Hname);
  cbn [truthy isString textOf negb orb];
  rewrite (proj2 (truthy_nonempty nameText) Hne); cbn [negb orb].

(** A target that is already a directory is answered 409, and the world is
    the one the initializer left: the directory is not touched. *)
Theorem POST_existing_directory env fields nameText target w st :
  getField "name" fields = Some (JStr nameText) ->
  nameText <> "" ->
  createTarget env (getField "folderPath" fields) nameText = Some target ->
  Fs.statEntry target (root w) = Fs.Done st ->
  Fs.isDirectory st = true ->
  POST env (Some (JObj fields)) w
  = (initialized env w, Ok (json (Failure "Folder already exists") 409)).
Proof.
  intros Hname Hne Htarget Hstat Hdir.
  destruct (statEntry_dir _ _ _ Hstat Hdir) as (Hte & b & m & rd & its & Hl).
  pose proof (initialized_eq env w) as Hinit.
  destruct (initialize_preserves _ _ _ _ _ _ _ Hinit Hl) as (_ & _ & _ & x' & Hl1 & Hk).
  cbn in Hk. destruct x' as [|b' m' rd' its'|]; try discriminate.
  assert (Ht : (if truthy (getField "folderPath" fields)
                then joinValues [Some (JStr (userFilesDirOf env)); getField "folderPath" fields;
                                 Some (JStr (Js.trim nameText))]
                else ret (Path.join [userFilesDirOf env; Js.trim nameText]))
                 (initialized env w)
               = (initialized env w, Ok target)).
  { unfold createTarget in Htarget. destruct (truthy (getField "folderPath" fields)).
    - unfold joinValues.
      destruct (stringsOf _); [|discriminate]. now injection Htarget as ->.
    - now injection Htarget as ->. }
  post_named fields nameText w Hname Hne.
  rewrite (bind_Ok _ _ _ _ _ Hinit).
  rewrite (bind_Ok _ _ _ _ _ Ht).
  rewrite (bind_Ok _ _ (initialized env w) (initialized env w)
             (Some (json (Failure "Folder already exists") 409))); [reflexivity|].
  apply tryCatch_Ok.
  now rewrite (bind_Ok _ _ _ _ _ (stat_Done _ _ _ (statEntry_of_dir _ _ _ _ _ _ Hte Hl1))).
Qed.

Lemma POST_existing_directory_witness :
  let w := sampleWorld sampleFiles in
  let fields := [("name", JStr "Images")] in
  let target := "/srv/app/public/user-files/Images" in
  (getField "name" fields = Some (JStr "Images")
   /\ "Images" <> ""
   /\ createTarget sampleEnv (getField "folderPath" fields) "Images" = Some target
   /\ Fs.statEntry target (root w) = Fs.Done (Fs.mkStats true 0 10 50)
   /\ Fs.isDirectory (Fs.mkStats true 0 10 50) = true)
  /\ POST sampleEnv (Some (JObj fields)) w
     = (initialized sampleEnv w, Ok (json (Failure "Folder already exists") 409)).
Proof.
  cbv zeta.
  assert (H1 : getField "name" [("name", JStr "Images")] = Some (JStr "Images")) by reflexivity.
  assert (H2 : "Images" <> "") by discriminate.
  assert (H3 : createTarget sampleEnv (getField "folderPath" [("name", JStr "Images")]) "Images"
               = Some "/srv/app/public/user-files/Images") by reflexivity.
  assert (H4 : Fs.statEntry "/srv/app/public/user-files/Images"
                 (root (sampleWorld sampleFiles))
               = Fs.Done (Fs.mkStats true 0 10 50)) by reflexivity.
  assert (H5 : Fs.isDirectory (Fs.mkStats true 0 10 50) = true) by reflexivity.
  split; [repeat split; assumption|].
  exact (POST_existing_directory sampleEnv _ _ _ _ _ H1 H2 H3 H4 H5).
Defined.

(** A [folderPath] that is truthy and no string makes [path.join] throw:
    the answer is 500 and no folder is created (the world is the one the
    initializer left). *)
Theorem POST_folderPath_not_a_string env fields nameText w :
  getField "name" fields = Some (JStr nameText) ->
  nameText <> "" ->
  truthy (getField "folderPath" fields) = true ->
  isString (getField "folderPath" fields) = false ->
  POST env (Some (JObj fields)) w
  = (initialized env w, Ok (json (Failure "Failed to create folder") 500)).
Proof.
  intros Hname Hne Htruthy Hstring.
  pose proof (initialized_eq env w) as Hinit.
  unfold POST.
  rewrite (tryCatch_Throw _ _ w (initialized env w) TypeError); [reflexivity|].
  rewrite (bind_Ok _ _ w w (JObj fields)) by reflexivity.
  rewrite (bind_Ok _ _ w w (getField "folderPath" fields)) by reflexivity.
  rewrite (bind_Ok _ _ w w (Some (JStr nameText))) by (cbn; now rewrite Hname).
  cbn [truthy isString textOf negb orb].
  rewrite (proj2 (truthy_nonempty nameText) Hne). cbn [negb orb].
  rewrite (bind_Ok _ _ _ _ _ Hinit). apply bind_Throw.
  rewrite Htruthy. unfold joinValues. cbn [stringsOf].
  destruct (getField "folderPath" fields) as [[]|]; try discriminate; reflexivity.
Qed.

Lemma POST_folderPath_not_a_string_witness :
  let w := sampleWorld sampleFiles in
  let fields := [("folderPath", JNum 7); ("name", JStr "Notes")] in
  (getField "name" fields = Some (JStr "Notes")
   /\ "Notes" <> ""
   /\ truthy (getField "folderPath" fields) = true
   /\ isString (getField "folderPath" fields) = false)
  /\ POST sampleEnv (Some (JObj fields)) w
     = (initialized sampleEnv w, Ok (json (Failure "Failed to create folder") 500)).
Proof.
  cbv zeta.
  assert (H1 : getField "name" [("folderPath", JNum 7); ("name", JStr "Notes")]
               = Some (JStr "Notes")) by reflexivity.
  assert (H2 : "Notes" <> "") by discriminate.
  assert (H3 : truthy (getField "folderPath" [("folderPath", JNum 7); ("name", JStr "Notes")])
               = true) by reflexivity.
  assert (H4 : isString (getField "folderPath" [("folderPath", JNum 7); ("name", JStr "Notes")])
               = false) by reflexivity.
  split; [repeat split; assumption|].
  exact (POST_folderPath_not_a_string sampleEnv _ _ (sampleWorld sampleFiles) H1 H2 H3 H4).
Defined.

(** A body that does not parse, or that is the JSON value [null] (which
    cannot be destructured), is answered 500 by POST and by PATCH, and
    nothing is touched; a body that is another non-object yields no fields
    and is answered 400. *)
Theorem unusable_body env w :
  POST env None w = (w, Ok (json (Failure "Failed to create folder") 500))
  /\ POST env (Some JNull) w = (w, Ok (json (Failure "Failed to create folder") 500))
  /\ PATCH env None w = (w, Ok (json (Failure "Failed to rename item") 500))
  /\ PATCH env (Some JNull) w = (w, Ok (json (Failure "Failed to rename item") 500))
  /\ (forall parsed,
        match parsed with
        | JNull | JObj _ => True
        | _ =>
            POST env (Some parsed) w
            = (w, Ok (json (Failure "Folder name is required") 400))
            /\ PATCH env (Some parsed) w
               = (w, Ok (json (Failure "Old path and new name are required") 400))
        end).
Proof.
  repeat split; try reflexivity.
  intros parsed. destruct parsed; try exact I; split; reflexivity.
Qed.

Lemma tryCatch_bind_Ok {A B} (c : M A) (k : A -> M B) (h : Exn -> M B) w w1 a :
  c w = (w1, Ok a) -> tryCatch (x <- c ;; k x) h w = tryCatch (k a) h w1.
Proof. intros H. unfold tryCatch, bind. now rewrite H. Qed.

Ltac get_prepared env query w :=
  unfold GET;
  rewrite (tryCatch_bind_Ok _ _ _ w (initialized env w) tt (initialized_eq env w)).

(** A requested directory that cannot be examined once the initializer has
    run is answered 404; nothing is listed, whatever the depth allowed. *)
Theorem GET_missing_directory env fuel query w e :
  Fs.statEntry (targetDirOf env query) (root (initialized env w)) = Fs.Fail e ->
  GET env fuel query w
  = (initialized env w, Ok (json (Failure "Directory not found") 404)).
Proof.
  intros Hstat. get_prepared env query w.
  apply tryCatch_Ok. unfold targetDirOf, requestedPathOf in Hstat.
  rewrite (bind_Ok _ _ (initialized env w) (initialized env w)
             (Some (json (Failure "Directory not found") 404))); [reflexivity|].
  rewrite (tryCatch_Throw _ _ _ (initialized env w) (SystemError e)); [reflexivity|].
  apply bind_Throw. now apply stat_Throw.
Qed.

Lemma GET_missing_directory_witness :
  let w := sampleWorld sampleFiles in
  Fs.statEntry (targetDirOf sampleEnv (Some "Music")) (root (initialized sampleEnv w))
  = Fs.Fail Fs.ENOENT
  /\ GET sampleEnv 0 (Some "Music") w
     = (initialized sampleEnv w, Ok (json (Failure "Directory not found") 404)).
Proof.
  cbv zeta.
  assert (H1 : Fs.statEntry (targetDirOf sampleEnv (Some "Music"))
                 (root (initialized sampleEnv (sampleWorld sampleFiles)))
               = Fs.Fail Fs.ENOENT) by reflexivity.
  split; [assumption|].
  exact (GET_missing_directory sampleEnv 0 (Some "Music") (sampleWorld sampleFiles) _ H1).
Defined.

(** A requested path that is no directory is answered 400. *)
Theorem GET_not_a_directory env fuel query w st :
  Fs.statEntry (targetDirOf env query) (root (initialized env w)) = Fs.Done st ->
  Fs.isDirectory st = false ->
  GET env fuel query w
  = (initialized env w, Ok (json (Failure "Path is not a directory") 400)).
Proof.
  intros Hstat Hdir. get_prepared env query w.
  apply tryCatch_Ok. unfold targetDirOf, requestedPathOf in Hstat.
  rewrite (bind_Ok _ _ (initialized env w) (initialized env w)
             (Some (json (Failure "Path is not a directory") 400))); [reflexivity|].
  apply tryCatch_Ok.
  rewrite (bind_Ok _ _ _ _ _ (stat_Done _ _ _ Hstat)).
  now rewrite Hdir.
Qed.

Lemma GET_not_a_directory_witness :
  let w := sampleWorld sampleFiles in
  Fs.statEntry (targetDirOf sampleEnv (Some "Documents/README"))
    (root (initialized sampleEnv w)) = Fs.Done (Fs.mkStats false 12 5 40)
  /\ Fs.isDirectory (Fs.mkStats false 12 5 40) = false
  /\ GET sampleEnv 0 (Some "Documents/README") w
     = (initialized sampleEnv w, Ok (json (Failure "Path is not a directory") 400)).
Proof.
  cbv zeta.
  assert (H1 : Fs.statEntry (targetDirOf sampleEnv (Some "Documents/README"))
                 (root (initialized sampleEnv (sampleWorld sampleFiles)))
               = Fs.Done (Fs.mkStats false 12 5 40)) by reflexivity.
  assert (H2 : Fs.isDirectory (Fs.mkStats false 12 5 40) = false) by reflexivity.
  split; [assumption|]. split; [assumption|].
  exact (GET_not_a_directory sampleEnv 0 (Some "Documents/README")
           (sampleWorld sampleFiles) _ H1 H2).
Defined.

(** At every level of the tree that [readDirectory] returns, a directory
    read without error is listed completely: the names of its nodes are the
    names it enumerates, each of them once. *)
Theorem readDirectory_lists_every_entry env fuel dirPath relativePath w w' nodes :
  readDirectory env fuel dirPath relativePath w = (w', Ok nodes) ->
  everyLevel (levelComplete (root w)) dirPath nodes.
Proof.
  intros H. apply readDirectory_levelExact in H.
  eapply everyLevel_mono; [|exact H]. clear.
  intros dir forest [[Herr _]|(items & unsorted & Hread & Hitems & ->)] Hno; [contradiction|].
  exists items. split; [assumption|].
  rewrite <- (nodeBuilt_names _ _ _ _ _ Hitems).
  apply Permutation_map, Permutation_sym, sortByLastUpdate_Permutation.
Qed.

Lemma readDirectory_lists_every_entry_witness :
  let w := sampleWorld sampleFiles in
  readDirectory sampleEnv 3 "/srv/app/public/user-files" "" w
  = (mkWorld (hostTree sampleFiles) 1000 10, Ok sampleListing)
  /\ everyLevel (levelComplete (root w)) "/srv/app/public/user-files" sampleListing.
Proof.
  cbv zeta.
  assert (H : readDirectory sampleEnv 3 "/srv/app/public/user-files" ""
                (sampleWorld sampleFiles)
              = (mkWorld (hostTree sampleFiles) 1000 10, Ok sampleListing))
    by (vm_compute; reflexivity).
  split; [exact H|].
  exact (readDirectory_lists_every_entry sampleEnv 3 _ _ _ _ _ H).
Defined.

(** Every node of the tree that [readDirectory] returns is filled from the
    entry it is named after: a file node has the size, the birth time and
    the modification time that [stat] reports, the extension computed from
    its name and the MIME type looked up for its name; a folder node stands
    for a directory and has its two times. *)
Theorem readDirectory_node_details env fuel dirPath relativePath w w' nodes :
  readDirectory env fuel dirPath relativePath w = (w', Ok nodes) ->
  everyLevel (levelDetailed env (root w)) dirPath nodes.
Proof.
  intros H. apply readDirectory_levelExact in H.
  eapply everyLevel_mono; [|exact H]. clear.
  intros dir forest [[_ ->]|(items & unsorted & _ & Hitems & ->)] n Hn; [contradiction|].
  apply (proj1 (sortByLastUpdate_In _ _)) in Hn.
  destruct (Forall2_In_l _ _ _ _ Hitems Hn) as (item & _ & Hb).
  now rewrite (nodeBuilt_name _ _ _ _ _ Hb).
Qed.

Lemma readDirectory_node_details_witness :
  let w := sampleWorld sampleFiles in
  readDirectory sampleEnv 3 "/srv/app/public/user-files" "" w
  = (mkWorld (hostTree sampleFiles) 1000 10, Ok sampleListing)
  /\ everyLevel (levelDetailed sampleEnv (root w)) "/srv/app/public/user-files"
       sampleListing.
Proof.
  cbv zeta.
  assert (H : readDirectory sampleEnv 3 "/srv/app/public/user-files" ""
                (sampleWorld sampleFiles)
              = (mkWorld (hostTree sampleFiles) 1000 10, Ok sampleListing))
    by (vm_compute; reflexivity).
  split; [exact H|].
  exact (readDirectory_node_details sampleEnv 3 _ _ _ _ _ H).
Defined.

Lemma bind_ext {A B} (c c' : M A) (k k' : A -> M B) w :
  c w = c' w -> (forall a w1, k a w1 = k' a w1) -> bind c k w = bind c' k' w.
Proof.
  intros Hc Hk. unfold bind. rewrite Hc. destruct (c' w) as [w1 [a|e|]]; auto.
Qed.

Lemma forEach_ext {A S} (body body' : S -> A -> M S) :
  (forall acc x w, body acc x w = body' acc x w) ->
  forall items acc w, forEach items acc body w = forEach items acc body' w.
Proof.
  intros H. induction items as [|x items IH]; intros acc w; cbn [forEach]; [reflexivity|].
  apply bind_ext; [apply H|]. intros; apply IH.
Qed.

(** The relative path that [readDirectory] receives and hands down to its
    recursive calls never reaches the result: two calls that differ in it
    alone return the same nodes and the same ids. *)
Theorem readDirectory_ignores_relativePath env fuel :
  forall dirPath relativePath relativePath' w,
    readDirectory env fuel dirPath relativePath w
    = readDirectory env fuel dirPath relativePath' w.
Proof.
  induction fuel as [|fuel IH]; intros dirPath relativePath relativePath' w;
    cbn [readDirectory]; [reflexivity|].
  unfold tryCatch.
  match goal with
  | |- match ?a with _ => _ end = match ?b with _ => _ end =>
      assert (E : a = b); [|now rewrite E]
  end.
  apply bind_ext; [reflexivity|]. intros items w1.
  apply bind_ext; [|reflexivity].
  apply forEach_ext. intros acc item w2.
  apply bind_ext; [reflexivity|]. intros stats w3.
  destruct (Fs.isDirectory stats); [|reflexivity].
  apply bind_ext; [apply IH|reflexivity].
Qed.

(** ** What GET and POST never do *)

Lemma keeps_readOnly {A} (c : M A) : readOnly c -> keepsEntries c.
Proof.
  intros H w w' o E p x Hx. apply H in E as [E _]. rewrite E.
  exists x. split; [assumption|apply sameKind_refl].
Qed.

Lemma keeps_ret {A} (a : A) : keepsEntries (ret a).
Proof. apply keeps_readOnly, readOnly_ret. Qed.

Lemma keeps_throw {A} (e : Exn) : keepsEntries (@throw A e).
Proof. apply keeps_readOnly. intros w w' o [= <- _]. now split. Qed.

Lemma keeps_newDate : keepsEntries newDate.
Proof. apply keeps_readOnly. intros w w' o [= <- _]. now split. Qed.

Lemma keeps_reading {A} (call : Fs.Entry -> Fs.Res A) : keepsEntries (reading call).
Proof. apply keeps_readOnly, readOnly_reading. Qed.

Lemma keeps_generateId env : keepsEntries (generateId env).
Proof. apply keeps_readOnly, readOnly_generateId. Qed.

Lemma keeps_bind {A B} (c : M A) (k : A -> M B) :
  keepsEntries c -> (forall a, keepsEntries (k a)) -> keepsEntries (bind c k).
Proof.
  intros Hc Hk w w' o H p x Hx.
  apply bind_inv in H as [(w1 & a & H1 & H2)|[(e & H1 & _)|(H1 & _)]].
  - destruct (Hc _ _ _ H1 _ _ Hx) as (x1 & Hx1 & K1).
    destruct (Hk a _ _ _ H2 _ _ Hx1) as (x2 & Hx2 & K2).
    exists x2. split; [assumption|]. eapply sameKind_trans; eassumption.
  - eapply Hc; eassumption.
  - eapply Hc; eassumption.
Qed.

Lemma keeps_tryCatch {A} (c : M A) (h : Exn -> M A) :
  keepsEntries c -> (forall e, keepsEntries (h e)) -> keepsEntries (tryCatch c h).
Proof.
  intros Hc Hh w w' o H p x Hx. unfold tryCatch in H.
  destruct (c w) as [w1 [a|e|]] eqn:E.
  - injection H as <- <-. eapply Hc; eassumption.
  - destruct (Hc _ _ _ E _ _ Hx) as (x1 & Hx1 & K1).
    destruct (Hh e _ _ _ H _ _ Hx1) as (x2 & Hx2 & K2).
    exists x2. split; [assumption|]. eapply sameKind_trans; eassumption.
  - injection H as <- <-. eapply Hc; eassumption.
Qed.

Lemma keeps_mkdir refuse path : keepsEntries (mkdir refuse path).
Proof.
  intros w w' o H p x Hx. unfold mkdir, writing in H.
  destruct (Fs.mkdirEntry refuse (clock w) path (root w)) as [r|e] eqn:E;
    injection H as <- <-.
  - cbn [root]. eapply mkdirEntry_preserves; eassumption.
  - exists x. split; [assumption|apply sameKind_refl].
Qed.

Lemma keeps_initialize env dir : keepsEntries (initializeUserFilesDirectory env dir).
Proof.
  intros w w' o H p x Hx. now destruct (initialize_preserves _ _ _ _ _ _ _ H Hx) as (_ & _ & _ & K).
Qed.

Lemma keeps_readDirectory env fuel dirPath relativePath :
  keepsEntries (readDirectory env fuel dirPath relativePath).
Proof. apply keeps_readOnly, readDirectory_readOnly. Qed.

Ltac keeps_step :=
  lazymatch goal with
  | |- forall _, _ => intro
  | |- keepsEntries (bind _ _) => apply keeps_bind
  | |- keepsEntries (tryCatch _ _) => apply keeps_tryCatch
  | |- keepsEntries (match ?v with _ => _ end) => destruct v
  | |- keepsEntries _ =>
      first [ apply keeps_initialize | apply keeps_mkdir | apply keeps_readDirectory
            | apply keeps_ret | apply keeps_throw | apply keeps_reading
            | apply keeps_generateId | apply keeps_newDate ]
  end.

(** Whatever it answers, POST removes nothing and alters no file: an entry
    that was there before the request is there after it, a file or a
    dangling link unchanged, a directory still a directory. *)
Theorem POST_keeps_entries env body w w' o p x :
  POST env body w = (w', o) ->
  Fs.lookup p (root w) = Fs.Done x ->
  exists x', Fs.lookup p (root w') = Fs.Done x' /\ sameKind x x'.
Proof.
  assert (K : keepsEntries (POST env body))
    by (unfold POST, reqJson, property, joinValues; repeat keeps_step).
  intros H Hx. exact (K _ _ _ H _ _ Hx).
Qed.

Lemma POST_keeps_entries_witness :
  let w := sampleWorld sampleFiles in
  let body := Some (JObj [("folderPath", JStr "Documents"); ("name", JStr "Taxes")]) in
  let p := ["srv"; "app"; "public"; "user-files"; "Documents"; "notes.txt"] in
  Fs.lookup p (root w) = Fs.Done (Fs.File 120 11 40)
  /\ exists x', Fs.lookup p (root (fst (POST sampleEnv body w))) = Fs.Done x'
                /\ sameKind (Fs.File 120 11 40) x'.
Proof.
  cbv zeta.
  assert (H1 : Fs.lookup ["srv"; "app"; "public"; "user-files"; "Documents"; "notes.txt"]
                 (root (sampleWorld sampleFiles)) = Fs.Done (Fs.File 120 11 40))
    by reflexivity.
  split; [assumption|].
  exact (POST_keeps_entries sampleEnv _ (sampleWorld sampleFiles) _ _ _ _
           (surjective_pairing _) H1).
Defined.

(** Whatever it answers, and whatever the depth allowed to the reader, GET
    removes nothing and alters no file. *)
Theorem GET_keeps_entries env fuel query w w' o p x :
  GET env fuel query w = (w', o) ->
  Fs.lookup p (root w) = Fs.Done x ->
  exists x', Fs.lookup p (root w') = Fs.Done x' /\ sameKind x x'.
Proof.
  assert (K : keepsEntries (GET env fuel query)) by (unfold GET; repeat keeps_step).
  intros H Hx. exact (K _ _ _ H _ _ Hx).
Qed.

Lemma GET_keeps_entries_witness :
  let w := sampleWorld sampleFiles in
  let p := ["srv"; "app"; "public"; "user-files"; "Documents"; "notes.txt"] in
  Fs.lookup p (root w) = Fs.Done (Fs.File 120 11 40)
  /\ exists x', Fs.lookup p (root (fst (GET sampleEnv 3 (Some "Documents") w))) = Fs.Done x'
                /\ sameKind (Fs.File 120 11 40) x'.
Proof.
  cbv zeta.
  assert (H1 : Fs.lookup ["srv"; "app"; "public"; "user-files"; "Documents"; "notes.txt"]
                 (root (sampleWorld sampleFiles)) = Fs.Done (Fs.File 120 11 40))
    by reflexivity.
  split; [assumption|].
  exact (GET_keeps_entries sampleEnv 3 _ (sampleWorld sampleFiles) _ _ _ _
           (surjective_pairing _) H1).
Defined.

(** The root of a 200 answer of GET: its id is the requested path, or the
    word root for the top level; its two dates are the time of the request;
    the directory it stands for is a directory; and the tree on disk is the
    one the initializer left, the reader having written nothing. *)
Theorem GET_tree_root env fuel query w w' resp :
  GET env fuel query w = (w', Ok resp) ->
  status resp = 200%Z ->
  exists children st,
    payload resp
    = Tree (FolderNode (Js.orElse (requestedPathOf query) "root")
              (rootName (requestedPathOf query)) children (clock w) (clock w))
    /\ Fs.statEntry (targetDirOf env query) (root w') = Fs.Done st
    /\ Fs.isDirectory st = true
    /\ root w' = root (initialized env w).
Proof.
  intros H Hs. unfold GET in H.
  apply tryCatch_inv_Ok in H as [H|(w1 & e & _ & H)].
  2: { cbn in H. injection H as _ <-. discriminate. }
  apply bind_inv_Ok in H as (w1 & [] & Hinit & H).
  pose proof (initialized_eq env w) as E. rewrite Hinit in E. injection E as E.
  apply initialize_clock in Hinit as (_ & Hclock & _).
  apply bind_inv_Ok in H as (w2 & early & Hearly & H).
  destruct early as [response|].
  - injection H as _ <-.
    apply tryCatch_inv_Ok in Hearly as [Hearly|(w3 & e & _ & Hearly)].
    + apply bind_inv_Ok in Hearly as (w3 & stats & _ & Hearly).
      destruct (negb (Fs.isDirectory stats)); injection Hearly as _ E'; [|discriminate].
      subst response. discriminate.
    + injection Hearly as _ <-. discriminate.
  - apply tryCatch_inv_Ok in Hearly as [Hearly|(w3 & e & _ & Hearly)]; [|discriminate].
    apply bind_inv_Ok in Hearly as (w3 & stats & Hstat & Hd).
    apply reading_inv_Ok in Hstat as [-> Hstat].
    destruct (Fs.isDirectory stats) eqn:Hdir; [|discriminate].
    injection Hd as <-.
    apply bind_inv_Ok in H as (w4 & children & Hread & H).
    apply bind_inv_Ok in H as (w5 & created & Hc & H).
    apply bind_inv_Ok in H as (w6 & updated & Hu & H).
    injection Hc as <- <-. injection Hu as <- <-. injection H as <- <-.
    pose proof (readDirectory_readOnly _ _ _ _ _ _ _ Hread) as [Hroot Hclock'].
    exists children, stats. cbn [payload json].
    rewrite Hroot, Hclock', Hclock, <- E.
    repeat split; assumption.
Qed.

Lemma GET_tree_root_witness :
  let w := sampleWorld sampleFiles in
  let w' := fst (GET sampleEnv 3 (Some "Documents") w) in
  let resp := match snd (GET sampleEnv 3 (Some "Documents") w) with
              | Ok r => r
              | _ => json (Failure "") 0
              end in
  (GET sampleEnv 3 (Some "Documents") w = (w', Ok resp) /\ status resp = 200%Z)
  /\ exists children st,
       payload resp
       = Tree (FolderNode (Js.orElse (requestedPathOf (Some "Documents")) "root")
                 (rootName (requestedPathOf (Some "Documents"))) children (clock w) (clock w))
       /\ Fs.statEntry (targetDirOf sampleEnv (Some "Documents")) (root w') = Fs.Done st
       /\ Fs.isDirectory st = true
       /\ root w' = root (initialized sampleEnv w).
Proof.
  cbv zeta.
  assert (H1 : GET sampleEnv 3 (Some "Documents") (sampleWorld sampleFiles)
               = (fst (GET sampleEnv 3 (Some "Documents") (sampleWorld sampleFiles)),
                  Ok match snd (GET sampleEnv 3 (Some "Documents") (sampleWorld sampleFiles)) with
                     | Ok r => r
                     | _ => json (Failure "") 0
                     end)) by (vm_compute; reflexivity).
  assert (H2 : status match snd (GET sampleEnv 3 (Some "Documents") (sampleWorld sampleFiles)) with
                      | Ok r => r
                      | _ => json (Failure "") 0
                      end = 200%Z) by (vm_compute; reflexivity).
  split; [split; assumption|].
  exact (GET_tree_root sampleEnv 3 _ _ _ _ H1 H2).
Defined.

(** ** Running the initializer again *)

Lemma setItem_same s child items :
  Fs.findItem s items = Some child -> Fs.setItem s child items = items.
Proof.
  induction items as [|[n x] items IH]; cbn; [discriminate|].
  destruct (n =? s) eqn:E; [intros [= ->]; reflexivity|].
  intros H. now rewrite IH.
Qed.

Lemma mkdirp_existing now segs : forall refuse r d,
  Fs.lookup segs r = Fs.Done d -> Fs.isDir d = true ->
  Fs.mkdirp refuse now segs r = Fs.Done r.
Proof.
  induction segs as [|s segs IH]; intros refuse r d Hl Hd.
  - cbn in Hl. injection Hl as ->. destruct d; try discriminate. reflexivity.
  - cbn [Fs.lookup] in Hl. destruct r as [|b m rd items|]; try discriminate.
    cbn [Fs.mkdirp]. destruct (Fs.findItem s items) as [child|] eqn:F; [|discriminate].
    rewrite (IH _ _ _ Hl Hd). cbn. now rewrite (setItem_same _ _ _ F).
Qed.

(** The initializer on a world whose root directory exists and is not to
    be seeded, or cannot be seeded. *)
Lemma initialize_again env dir r c n :
  dir <> "" -> directoryAt (Fs.segments dir) r ->
  match Fs.readdirEntry dir r with
  | Fs.Done [] =>
      exists e, Fs.mkdirEntry (refuses env) c (Path.join [dir; "Documents"]) r = Fs.Fail e
  | _ => True
  end ->
  initializeUserFilesDirectory env dir (mkWorld r c n) = (mkWorld r c n, Ok tt).
Proof.
  intros Hne (d & Hd & Hdir) Hlist.
  unfold initializeUserFilesDirectory, tryCatch, bind, mkdir, readdir, writing, reading,
    console, ret. cbn [root clock nextId].
  replace (Fs.mkdirEntry (refuses env) c dir r) with (Fs.Done r).
  2: { unfold Fs.mkdirEntry. apply String.eqb_neq in Hne. rewrite Hne.
       now rewrite (mkdirp_existing _ _ _ _ _ Hd Hdir). }
  cbn [root clock nextId].
  destruct (Fs.readdirEntry dir r) as [[|item items]|e]; [|reflexivity..].
  destruct Hlist as (e & He). cbn [List.length Nat.eqb root clock nextId].
  rewrite He. reflexivity.
Qed.

(** Every request runs the initializer; run on the world it has left, it
    changes nothing: the directories it created are not created again, no
    time stamp moves, and a creation that the kernel refused is refused
    again. *)
Theorem initialize_idempotent env dir w w1 o :
  dir <> "" -> Forall (fun s => validName s = true) (Fs.segments dir) ->
  initializeUserFilesDirectory env dir w = (w1, o) ->
  initializeUserFilesDirectory env dir w1 = (w1, Ok tt).
Proof.
  intros Hne Hsegs H.
  destruct (initialize_cases env dir w) as (w' & E & Hcases). cbv zeta in Hcases.
  rewrite E in H. injection H as <- <-.
  destruct Hcases as [(e & H1 & ->)|(r1 & H1 & Hcases)]; [exact E|].
  assert (Hdir1 : directoryAt (Fs.segments dir) r1).
  { apply mkdirEntry_Done in H1 as [_ H1].
    rewrite <- (firstn_all (Fs.segments dir)). eapply mkdirp_dirs. exact H1. }
  destruct Hcases as [(e & H2 & ->)|[(items & H2 & Hitems & ->)|(H2 & Hcases)]].
  { apply initialize_again; [assumption..|]. now rewrite H2. }
  { apply initialize_again; [assumption..|]. rewrite H2. now destruct items. }
  destruct Hcases as [(e & H3 & ->)|(r2 & H3 & Hcases)].
  { apply initialize_again; [assumption..|]. rewrite H2. eauto. }
  destruct (readdirEntry_Done _ _ _ H2) as (_ & b & m & its & Hl1 & Hnil).
  destruct its; [clear Hnil|discriminate].
  assert (Hlist : forall r l,
             Fs.lookup (Fs.segments dir) r = Fs.Done (Fs.Dir b (clock w) true l) ->
             Fs.readdirEntry dir r = Fs.Done (map fst l)).
  { intros r l Hl. unfold Fs.readdirEntry, Fs.resolve.
    apply String.eqb_neq in Hne. now rewrite Hne, Hl. }
  destruct (refuses env (Fs.segments dir ++ ["Documents"])) as [e1|] eqn:R1.
  { rewrite (mkdirEntry_child_refused _ (clock w) dir "Documents" r1 _ _ _ _ _
               Hne Hsegs eq_refl Hl1 eq_refl R1) in H3. discriminate. }
  destruct (mkdirEntry_child _ (clock w) dir "Documents" r1 _ _ _ _
              Hne Hsegs eq_refl Hl1 eq_refl R1) as (r2' & H3' & Hl2).
  rewrite H3 in H3'. injection H3' as <-.
  assert (Hdir2 : directoryAt (Fs.segments dir) r2)
    by (eapply directoryAt_preserved; [exact H3|exact Hdir1]).
  destruct Hcases as [(e & H4 & ->)|(r3 & H4 & ->)].
  { apply initialize_again; [assumption..|]. now rewrite (Hlist _ _ Hl2). }
  apply initialize_again; [assumption| |].
  - eapply directoryAt_preserved; [exact H4|exact Hdir2].
  - destruct (refuses env (Fs.segments dir ++ ["Images"])) as [e2|] eqn:R2.
    { rewrite (mkdirEntry_child_refused _ (clock w) dir "Images" r2 _ _ _ _ _
                 Hne Hsegs eq_refl Hl2 eq_refl R2) in H4. discriminate. }
    destruct (mkdirEntry_child _ (clock w) dir "Images" r2 _ _ _ _
                Hne Hsegs eq_refl Hl2 eq_refl R2) as (r3' & H4' & Hl3).
    rewrite H4 in H4'. injection H4' as <-.
    now rewrite (Hlist _ _ Hl3).
Qed.

Lemma initialize_idempotent_witness :
  let dir := "/srv/app/public/user-files" in
  let w1 := fst (initializeUserFilesDirectory sampleEnv dir emptyWorld) in
  (dir <> "" /\ Forall (fun s => validName s = true) (Fs.segments dir))
  /\ initializeUserFilesDirectory sampleEnv dir w1 = (w1, Ok tt).
Proof.
  cbv zeta.
  assert (H1 : "/srv/app/public/user-files" <> "") by discriminate.
  assert (H2 : Forall (fun s => validName s = true)
                 (Fs.segments "/srv/app/public/user-files"))
    by (vm_compute; repeat constructor).
  split; [split; assumption|].
  exact (initialize_idempotent sampleEnv _ emptyWorld _ _ H1 H2 (surjective_pairing _)).
Defined.

(** ** Names computed from names *)

Lemma pop_In l x : Js.pop l = Some x -> In x l.
Proof.
  induction l as [|y l IH]; [discriminate|]. cbn [Js.pop].
  destruct l as [|z l]; [intros [= ->]; now left|]. intros H. right. now apply IH.
Qed.

(** The name GET gives to the root of its tree is never empty and never
    holds a slash, whatever path was requested. *)
Theorem rootName_display requestedPath :
  rootName requestedPath <> ""
  /\ Js.includes "/" (rootName requestedPath) = false.
Proof.
  unfold rootName. destruct (Js.truthy requestedPath); [|split; [discriminate|reflexivity]].
  pose proof (split_pieces "/" requestedPath) as Hp.
  destruct (Js.pop (Js.split "/" requestedPath)) as [last|] eqn:E;
    [|split; [discriminate|reflexivity]].
  apply pop_In in E. rewrite Forall_forall in Hp. apply Hp in E.
  destruct last as [|c last]; [split; [discriminate|reflexivity]|].
  split; [discriminate|exact E].
Qed.

Lemma last_piece c s :
  exists ext,
    Js.includes c ext = false
    /\ (s = ext \/ exists stem, s = (stem ++ String c ext)%string).
Proof.
  induction s as [|a s (ext & Hx & [->|(stem & ->)])].
  - exists "". split; [reflexivity|now left].
  - destruct (Ascii.eqb a c) eqn:E.
    + apply Ascii.eqb_eq in E. subst a. exists ext. split; [assumption|].
      right. exists "". reflexivity.
    + exists (String a ext). split; [|now left].
      unfold Js.includes in *. cbn [Js.testClass]. now rewrite Ascii.eqb_sym, E, Hx.
  - exists ext. split; [assumption|]. right. exists (String a stem). reflexivity.
Qed.

(** The extension of a node is the text after the last dot of its name, in
    lower case; a name without a dot is, whole, its own extension. *)
Theorem extensionOf_last_piece item :
  exists ext,
    Js.includes "." ext = false
    /\ extensionOf item = Js.toLowerCase ext
    /\ (item = ext \/ exists stem, item = (stem ++ String "." ext)%string).
Proof.
  destruct (last_piece "." item) as (ext & Hx & H).
  exists ext. split; [assumption|]. split; [|assumption].
  destruct H as [->|(stem & ->)].
  - now apply extensionOf_without_dot.
  - now apply extensionOf_with_dot.
Qed.

Lemma POST_requires_name_witness :
  let fields := [("folderPath", JStr "Documents"); ("name", JNum 7)] in
  truthy (getField "name" fields) && isString (getField "name" fields) = false
  /\ POST sampleEnv (Some (JObj fields)) emptyWorld
     = (emptyWorld, Ok (json (Failure "Folder name is required") 400)).
Proof.
  cbv zeta.
  assert (H1 : truthy (getField "name" [("folderPath", JStr "Documents"); ("name", JNum 7)])
               && isString (getField "name" [("folderPath", JStr "Documents"); ("name", JNum 7)])
               = false) by reflexivity.
  split; [assumption|].
  exact (POST_requires_name sampleEnv _ emptyWorld H1).
Defined.

